(** * Past Forward: the photo-timeline editor

    A shallow embedding of the timeline state machine of [App.tsx], of the
    generative-image client of [services/geminiService.ts] and of the
    import / share codecs, together with the properties the specification
    states about them; and of the toolbar (saving, exporting, the album),
    of the image a card shows and of the endpoints of the blob store, with
    further properties read off the code.

    Conventions.
    - JavaScript strings are [string]s (sequences of 8-bit characters).
    - An optional property ([generatedUrl?: string]) is an [option]; [None]
      stands for both an absent property and one holding [undefined].
    - A value that can be thrown is a [Thrown]; a computation that may throw
      returns [Thrown + A] ([inl] is the exception).
    - Asynchronous code is run on scripted outcomes of the outside world
      (fetch, the model, the blob store); what it does to the world is
      recorded as a list of [Event]s in program order. *)

From Stdlib Require Import String Ascii List Bool Arith ZArith Lia DecimalString.
From Stdlib Require Strings.Byte.
Import ListNotations.
Local Open Scope list_scope.
Local Open Scope string_scope.

Set Implicit Arguments.
Set Warnings "-register-all".

(* ================================================================== *)
(** ** JavaScript strings and exceptions *)

Module JS.

(** [s.includes(sub)] *)
Fixpoint includes (s sub : string) : bool :=
  if String.prefix sub s then true
  else match s with
       | EmptyString => false
       | String _ rest => includes rest sub
       end.

(** [s.startsWith(pre)] *)
Definition startsWith (s pre : string) : bool := String.prefix pre s.

(** ToBoolean on a string: only the empty string is falsy. *)
Definition truthy (s : string) : bool := negb (s =? "").

(** The double-quote character, by its code. *)
Definition dquote : string := String (ascii_of_nat 34) "".

(** A line feed, as a template literal embeds it. *)
Definition newline : string := String (ascii_of_nat 10) "".

(** What a [throw] can carry: an [Error] with its message, or any other
    value, kept as the text [JSON.stringify] gives for it. *)
Inductive Thrown : Type :=
| ErrorObject (message : string)
| OtherValue (json : string).

(** [error instanceof Error ? error.message : fallback] *)
Definition messageOr (fallback : Thrown -> string) (error : Thrown) : string :=
  match error with
  | ErrorObject message => message
  | OtherValue _ => fallback error
  end.

(** [JSON.stringify(error)] on a thrown non-[Error] value. *)
Definition stringifyThrown (error : Thrown) : string :=
  match error with
  | ErrorObject _ => "{}"
  | OtherValue json => json
  end.

End JS.
Export JS.

(* ================================================================== *)
(** ** Data model ([App.tsx], lines 15-28) *)

(** [type PhotoStatus = 'idle' | 'pending' | 'done' | 'error' | 'uploading'] *)
Module Status.
Inductive t : Set := idle | pending | done | error | uploading.

Definition eqb (a b : t) : bool :=
  match a, b with
  | idle, idle | pending, pending | done, done
  | error, error | uploading, uploading => true
  | _, _ => false
  end.

Lemma eqb_eq a b : eqb a b = true <-> a = b.
Proof. destruct a, b; simpl; split; congruence. Qed.
End Status.
Definition PhotoStatus : Set := Status.t.

(** [interface Photo] *)
Record Photo : Type := mkPhoto {
  id : string;
  imageUrl : string;
  date : string;
  message : string;
  status : PhotoStatus;
  generatedUrl : option string;
  error : option string;
  localDataUrl : option string
}.

(** [Partial<Pick<Photo, 'date' | 'message'>>] *)
Record PhotoEdits : Type := mkEdits {
  newDate : option string;
  newMessage : option string
}.

(** The object a card hands to [onUpdate]: [{ date: v }] or [{ message: v }]. *)
Definition editDate (v : string) : PhotoEdits := mkEdits (Some v) None.
Definition editMessage (v : string) : PhotoEdits := mkEdits None (Some v).

(* ================================================================== *)
(** ** The id-keyed merges of [App.tsx]

    Every asynchronous completion and every edit is one call
    [setPhotos(prev => prev.map(p => p.id === id ? { ...p, fields } : p))].
    [Merge] lists the six object literals that occur, [patch] is the spread. *)

Inductive Merge : Type :=
| UploadSucceeded (cloudUrl : string)               (* line 160 *)
| UploadFailed                                      (* line 163 *)
| Edited (updates : PhotoEdits)                     (* line 175 *)
| GenerationStarted                                 (* line 187 *)
| GenerationSucceeded (generatedCloudUrl : string)  (* line 196 *)
| GenerationFailed (errorMessage : string).         (* line 200 *)

Definition patch (m : Merge) (p : Photo) : Photo :=
  match m with
  | UploadSucceeded cloudUrl =>
      (* { ...p, imageUrl: cloudUrl, status: 'idle', localDataUrl: undefined } *)
      mkPhoto p.(id) cloudUrl p.(date) p.(message) Status.idle
              p.(generatedUrl) p.(error) None
  | UploadFailed =>
      (* { ...p, status: 'error', error: 'Upload failed.' } *)
      mkPhoto p.(id) p.(imageUrl) p.(date) p.(message) Status.error
              p.(generatedUrl) (Some "Upload failed.") p.(localDataUrl)
  | Edited updates =>
      (* { ...p, ...updates } *)
      mkPhoto p.(id) p.(imageUrl)
              (match updates.(newDate) with Some d => d | None => p.(date) end)
              (match updates.(newMessage) with Some m => m | None => p.(message) end)
              p.(status) p.(generatedUrl) p.(error) p.(localDataUrl)
  | GenerationStarted =>
      (* { ...p, status: 'pending' } *)
      mkPhoto p.(id) p.(imageUrl) p.(date) p.(message) Status.pending
              p.(generatedUrl) p.(error) p.(localDataUrl)
  | GenerationSucceeded generatedCloudUrl =>
      (* { ...p, status: 'done', generatedUrl: generatedCloudUrl } *)
      mkPhoto p.(id) p.(imageUrl) p.(date) p.(message) Status.done
              (Some generatedCloudUrl) p.(error) p.(localDataUrl)
  | GenerationFailed errorMessage =>
      (* { ...p, status: 'error', error: errorMessage } *)
      mkPhoto p.(id) p.(imageUrl) p.(date) p.(message) Status.error
              p.(generatedUrl) (Some errorMessage) p.(localDataUrl)
  end.

(** [prev.map(p => p.id === target ? patch(p) : p)] *)
Definition mergeById (target : string) (m : Merge) (prev : list Photo) : list Photo :=
  map (fun p => if p.(id) =? target then patch m p else p) prev.

(** The object literal of lines 148-155. *)
Definition newPhoto (tempId dataUrl : string) : Photo :=
  mkPhoto tempId "" "" "" Status.uploading None None (Some dataUrl).

(** What [setPhotos] is called with: a list (lines 75, 89, 129, 180) or one
    of the two updater shapes (line 156, and the merges). *)
Inductive PhotosUpdate : Type :=
| ReplaceWith (photos : list Photo)
| Append (photo : Photo)
| MergeById (target : string) (m : Merge).

Definition applyUpdate (u : PhotosUpdate) (prev : list Photo) : list Photo :=
  match u with
  | ReplaceWith photos => photos
  | Append photo => (prev ++ [photo])%list
  | MergeById target m => mergeById target m prev
  end.

(** [handleUpdatePhoto] (lines 173-177). *)
Definition handleUpdatePhoto (target : string) (updates : PhotoEdits) : PhotosUpdate :=
  MergeById target (Edited updates).

(** [handleDeletePhoto] (lines 179-181): the list of the current render,
    filtered, is what [setPhotos] receives. *)
Definition handleDeletePhoto (photos : list Photo) (target : string) : PhotosUpdate :=
  ReplaceWith (filter (fun p => negb (p.(id) =? target)) photos).

(** [photos.some(p => p.id === target)] *)
Definition hasId (target : string) (photos : list Photo) : bool :=
  existsb (fun p => p.(id) =? target) photos.

(* ================================================================== *)
(** ** Effects of asynchronous code

    The outside world answers by script; what the code does to it is logged
    in program order. [console.error] and [console.log] are not logged. *)

Inductive Event : Type :=
| Fetched (url : string)          (* fetch(imageUrl), geminiService.ts *)
| ModelCalled (attempt : nat)     (* client.models.generateContent(...) *)
| Slept (ms : Z)                  (* await new Promise(r => setTimeout(r, ms)) *)
| Uploaded (dataUrl : string)     (* fetch('/api/upload-image', POST) *)
| SetPhotos (u : PhotosUpdate).   (* setPhotos(...) *)

(** An asynchronous computation run to completion: its log and its
    outcome, [inl] for a rejected promise. *)
Definition Async (A : Type) : Type := list Event * (Thrown + A).

Definition ret {A} (a : A) : Async A := ([], inr a).
Definition throw {A} (e : Thrown) : Async A := ([], inl e).
Definition emit (ev : Event) : Async unit := ([ev], inr tt).
Definition lift {A} (r : Thrown + A) : Async A := ([], r).

Definition bind {A B} (m : Async A) (k : A -> Async B) : Async B :=
  match m with
  | (log, inl e) => (log, inl e)
  | (log, inr a) => let (log', r) := k a in ((log ++ log')%list, r)
  end.

(** [try { m } catch (error) { handler(error) }] *)
Definition catch {A} (m : Async A) (handler : Thrown -> Async A) : Async A :=
  match m with
  | (log, inl e) => let (log', r) := handler e in ((log ++ log')%list, r)
  | (log, inr a) => (log, inr a)
  end.

Declare Scope async_scope.
Delimit Scope async_scope with async.
Notation "x <- m ;; k" := (bind m (fun x => k))
  (at level 61, m at next level, right associativity) : async_scope.
Notation "m ;; k" := (bind m (fun _ => k))
  (at level 61, right associativity) : async_scope.
Local Open Scope async_scope.

(** The state after the [setPhotos] calls of a log, in order. *)
Fixpoint replay (log : list Event) (photos : list Photo) : list Photo :=
  match log with
  | [] => photos
  | SetPhotos u :: rest => replay rest (applyUpdate u photos)
  | _ :: rest => replay rest photos
  end.

(** How often the model was called in a log, and how long it slept. *)
Definition modelCalls (log : list Event) : nat :=
  length (filter (fun ev => match ev with ModelCalled _ => true | _ => false end) log).

Definition sleeps (log : list Event) : list Z :=
  flat_map (fun ev => match ev with Slept ms => [ms] | _ => [] end) log.

Definition touchesPhotos (log : list Event) : bool :=
  existsb (fun ev => match ev with SetPhotos _ => true | _ => false end) log.

(* ================================================================== *)
(** ** The generative-image client ([services/geminiService.ts])

    In the sources at hand its text follows the card in
    [components/PolaroidCard.tsx]; the line numbers are those of that file. *)

(** The parts of [GenerateContentResponse] the client reads. *)
Record InlineData : Type := mkInlineData {
  mimeType : option string;
  data : option string
}.

Record Part : Type := mkPart {
  inlineData : option InlineData;
  text : option string
}.

Record GenerateContentResponse : Type := mkResponse {
  (** [response.candidates?.[0]?.content?.parts] *)
  parts : option (list Part);
  (** the SDK's getter [response.text] *)
  responseText : option string
}.

(** What is sent to the model: [{ inlineData: { mimeType, data } }] and
    [{ text }]. *)
Record ModelRequest : Type := mkRequest {
  requestMimeType : string;
  requestData : string;
  requestText : string
}.

(** The model, as the client sees it: the outcome of the [attempt]-th call
    made with a request. *)
Definition Client : Type := ModelRequest -> nat -> Thrown + GenerateContentResponse.

(** The answer to [fetch(imageUrl)], with the blob read as a data URL. *)
Record ImageResponse : Type := mkImageResponse {
  imageOk : bool;
  statusText : string;
  readAsDataURL : Thrown + string
}.

(** The answer of [/api/upload-image]. *)
Record UploadResponse : Type := mkUploadResponse {
  uploadOk : bool;
  (** [await response.text()] *)
  errorText : string;
  (** [(await response.json()).url] *)
  url : Thrown + string
}.

(** The collaborators of the application. *)
Record World : Type := mkWorld {
  (** [fetch(imageUrl)] in [imageUrlToDataUrl] *)
  fetchImage : string -> Thrown + ImageResponse;
  (** [getGeminiClient()] *)
  getGeminiClient : Thrown + Client;
  (** [fetch('/api/upload-image', ...)] on the blob made of a data URL *)
  postImage : string -> Thrown + UploadResponse;
  (** [fetch(loadFromUrl)] followed by [response.json()], read as [Photo[]] *)
  fetchTimeline : string -> Thrown + list Photo
}.

(** A template literal prints [undefined] for a missing value. *)
Definition interpolate (v : option string) : string :=
  match v with Some s => s | None => "undefined" end.

(** [processGeminiResponse] (lines 270-281). *)
Definition processGeminiResponse (response : GenerateContentResponse) : Thrown + string :=
  let imagePartFromResponse :=
    match response.(parts) with
    | Some ps => find (fun part => match part.(inlineData) with Some _ => true | None => false end) ps
    | None => None
    end in
  match imagePartFromResponse with
  | Some {| inlineData := Some d |} =>
      inr ("data:" ++ interpolate d.(mimeType) ++ ";base64," ++ interpolate d.(data))
  | _ =>
      let textResponse := response.(responseText) in
      inl (ErrorObject
             ("The AI model responded with text instead of an image: " ++ dquote
              ++ match textResponse with
                 | Some t => if truthy t then t else "No text response received."
                 | None => "No text response received."
                 end
              ++ dquote))
  end.

Definition maxRetries : nat := 3.
Definition initialDelay : Z := 1000.

(** [isInternalError] (line 303). *)
Definition isInternalError (errorMessage : string) : bool :=
  includes errorMessage (dquote ++ "code" ++ dquote ++ ":500")
  || includes errorMessage "INTERNAL"
  || includes errorMessage "503".

(** The body of [for (let attempt = 1; attempt <= maxRetries; attempt++)]
    (lines 291-313), run over the values [attempt] takes, followed by the
    [throw] after the loop. *)
Fixpoint retryLoop (client : Client) (request : ModelRequest) (attempts : list nat)
  : Async GenerateContentResponse :=
  match attempts with
  | [] => throw (ErrorObject "Gemini API call failed after all retries.")
  | attempt :: rest =>
      emit (ModelCalled attempt) ;;
      match client request attempt with
      | inr response => ret response
      | inl error =>
          let errorMessage := messageOr stringifyThrown error in
          if isInternalError errorMessage && (attempt <? maxRetries)%nat then
            let delay := (initialDelay * 2 ^ (Z.of_nat attempt - 1))%Z in
            emit (Slept delay) ;;
            retryLoop client request rest
          else throw error
      end
  end.

(** [callGeminiWithRetry] (lines 286-315). *)
Definition callGeminiWithRetry (w : World) (request : ModelRequest)
  : Async GenerateContentResponse :=
  client <- lift w.(getGeminiClient) ;;
  retryLoop client request (seq 1 maxRetries).

(** [imageUrlToDataUrl] (lines 320-332). *)
Definition imageUrlToDataUrl (w : World) (imageUrl : string) : Async string :=
  emit (Fetched imageUrl) ;;
  response <- lift (w.(fetchImage) imageUrl) ;;
  if negb response.(imageOk) then
    throw (ErrorObject ("Failed to fetch image from " ++ imageUrl ++ ": " ++ response.(statusText)))
  else lift response.(readAsDataURL).

(** The regular expression matched against the data URL (line 340), by
    hand: the text [data:], a first group made of [image/] and one or more
    word characters (letters, digits, underscore), the text [;base64,],
    and a second group running to the end of the input, where the dot
    stops at a line terminator. *)
Fixpoint stripPrefix (pre s : string) : option string :=
  match pre, s with
  | EmptyString, _ => Some s
  | String a pre', String b s' => if Ascii.eqb a b then stripPrefix pre' s' else None
  | String _ _, EmptyString => None
  end.

Definition isWordChar (c : ascii) : bool :=
  let n := nat_of_ascii c in
  (((48 <=? n) && (n <=? 57)) || ((65 <=? n) && (n <=? 90))
   || ((97 <=? n) && (n <=? 122)) || (n =? 95))%nat.

Fixpoint spanWord (s : string) : string * string :=
  match s with
  | EmptyString => ("", "")
  | String c rest =>
      if isWordChar c then let (w, tl) := spanWord rest in (String c w, tl)
      else ("", s)
  end.

Fixpoint noLineTerminator (s : string) : bool :=
  match s with
  | EmptyString => true
  | String c rest =>
      let n := nat_of_ascii c in
      negb ((n =? 10) || (n =? 13))%nat && noLineTerminator rest
  end.

Definition matchDataUrl (s : string) : option (string * string) :=
  match stripPrefix "data:image/" s with
  | None => None
  | Some afterSlash =>
      let (word, afterWord) := spanWord afterSlash in
      if word =? "" then None
      else match stripPrefix ";base64," afterWord with
           | None => None
           | Some base64Data =>
               if noLineTerminator base64Data then Some ("image/" ++ word, base64Data)
               else None
           end
  end.

(** The prompt of lines 350-354. *)
Definition prompt (message : string) : string :=
  "Based on the user's photo and their memory, generate a new image that artistically enhances the original. The new image should capture the feeling and essence of the memory provided."
  ++ newline ++ "    " ++ newline
  ++ "    User's Memory: " ++ dquote ++ message ++ dquote ++ newline
  ++ newline
  ++ "    The output must be a single, beautified, photorealistic image. Do not add text to the image.".

(** [generateTimelineImage] (lines 337-365). *)
Definition generateTimelineImage (w : World) (imageUrl message : string) : Async string :=
  imageDataUrl <- imageUrlToDataUrl w imageUrl ;;
  match matchDataUrl imageDataUrl with
  | None => throw (ErrorObject "Failed to convert image URL to a valid data URL format.")
  | Some (mimeType, base64Data) =>
      catch
        (response <- callGeminiWithRetry w (mkRequest mimeType base64Data (prompt message)) ;;
         lift (processGeminiResponse response))
        (fun error =>
           let errorMessage := messageOr stringifyThrown error in
           throw (ErrorObject
                    ("The AI model failed to generate an image. Details: " ++ errorMessage)))
  end.

(** [uploadImageToCloud] ([App.tsx], lines 34-49). *)
Definition uploadImageToCloud (w : World) (dataUrl : string) : Async string :=
  emit (Uploaded dataUrl) ;;
  response <- lift (w.(postImage) dataUrl) ;;
  if negb response.(uploadOk) then
    throw (ErrorObject ("Image upload failed: " ++ response.(errorText)))
  else lift response.(url).

(** [handleGenerateImage] ([App.tsx], lines 183-202), called on the list of
    the current render. It never rejects; its log is what it did. *)
Definition handleGenerateImage (w : World) (photos : list Photo) (target : string)
  : list Event :=
  match find (fun p => p.(id) =? target) photos with
  | None => []
  | Some photo =>
      if negb (truthy photo.(imageUrl)) then []
      else
        let (log, outcome) :=
          (emit (SetPhotos (MergeById target GenerationStarted)) ;;
           generatedDataUrl <- generateTimelineImage w photo.(imageUrl) photo.(message) ;;
           uploadImageToCloud w generatedDataUrl) in
        match outcome with
        | inr generatedCloudUrl =>
            (log ++ [SetPhotos (MergeById target (GenerationSucceeded generatedCloudUrl))])%list
        | inl error =>
            let errorMessage := messageOr (fun _ => "An unknown error occurred.") error in
            (log ++ [SetPhotos (MergeById target (GenerationFailed errorMessage))])%list
        end
  end.

(** The continuation of [uploadImageToCloud(dataUrl)] in [handleFileSelect]
    (lines 159-164): [then] merges the URL, [catch] marks the failure. *)
Definition uploadCompletion (w : World) (tempId dataUrl : string) : list Event :=
  let (log, outcome) := uploadImageToCloud w dataUrl in
  match outcome with
  | inr cloudUrl => (log ++ [SetPhotos (MergeById tempId (UploadSucceeded cloudUrl))])%list
  | inl _ => (log ++ [SetPhotos (MergeById tempId UploadFailed)])%list
  end.

(* ================================================================== *)
(** ** The card's controls ([components/PolaroidCard.tsx])

    [onGenerate] is wired to two buttons: Generate Image, rendered for an
    idle entry and disabled when [!date || !message] (lines 212-219), and
    Try Again, rendered for an entry in error (lines 34 and 131). A
    disabled button delivers no click. *)

Inductive CardButton : Set := GenerateImage | TryAgain.

Definition rendered (p : Photo) (b : CardButton) : bool :=
  match b with
  | GenerateImage => Status.eqb p.(status) Status.idle
  | TryAgain => Status.eqb p.(status) Status.error
  end.

Definition disabled (p : Photo) (b : CardButton) : bool :=
  match b with
  | GenerateImage => negb (truthy p.(date)) || negb (truthy p.(message))
  | TryAgain => false
  end.

(** A click on a button of the card of [p], in the render of [photos]. *)
Definition click (w : World) (photos : list Photo) (p : Photo) (b : CardButton)
  : list Event :=
  if rendered p b && negb (disabled p b)
  then handleGenerateImage w photos p.(id)
  else [].

(* ================================================================== *)
(** ** Values read from a JSON file

    The import path is loosely typed ([any]): it works on whatever
    [JSON.parse] returned. *)

Module Json.

(** A number as [JSON.parse] returns it, as far as the code can tell: it
    only ever asks whether it is zero. *)
Inductive number : Set :=
| Zero
| NonZero (negative : bool) (digits : string).

Inductive value : Type :=
| JNull
| JBool (b : bool)
| JNumber (n : number)
| JString (s : string)
| JArray (items : list value)
| JObject (fields : list (string * value)).

(** A property that is absent reads as [undefined]: [None]. *)
Fixpoint lookup (key : string) (fields : list (string * value)) : option value :=
  match fields with
  | [] => None
  | (k, v) :: rest => if k =? key then Some v else lookup key rest
  end.

(** [v.key] for the keys the import reads ([photos], [id], [imageUrl],
    [dataUrl]): reading from [null] throws a TypeError, an object answers
    with its own property, and no array, string, number or boolean has a
    property of one of these names. *)
Definition getProp (v : value) (key : string) : Thrown + option value :=
  match v with
  | JNull => inl (ErrorObject "Cannot read properties of null")
  | JObject fields => inr (lookup key fields)
  | _ => inr None
  end.

(** ToBoolean. *)
Definition toBoolean (v : option value) : bool :=
  match v with
  | None => false
  | Some JNull => false
  | Some (JBool b) => b
  | Some (JNumber Zero) => false
  | Some (JNumber (NonZero _ _)) => true
  | Some (JString s) => truthy s
  | Some (JArray _) => true
  | Some (JObject _) => true
  end.

(** [a || b] *)
Definition or (a b : option value) : option value :=
  if toBoolean a then a else b.

(** [{ ...fields, key: v }]: an existing property keeps its place. *)
Fixpoint setProp (key : string) (v : value) (fields : list (string * value))
  : list (string * value) :=
  match fields with
  | [] => [(key, v)]
  | (k, x) :: rest =>
      if k =? key then (k, v) :: rest else (k, x) :: setProp key v rest
  end.

(** The decimal spelling of an index, as a property name. *)
Definition indexKey (i : nat) : string :=
  NilEmpty.string_of_uint (Nat.to_uint i).

Fixpoint indexed {A} (i : nat) (l : list A) : list (string * A) :=
  match l with
  | [] => []
  | x :: rest => (indexKey i, x) :: indexed (S i) rest
  end.

Fixpoint characters (s : string) : list value :=
  match s with
  | EmptyString => []
  | String c rest => JString (String c "") :: characters rest
  end.

(** The own enumerable properties [{ ...p }] copies. *)
Definition ownProperties (p : value) : list (string * value) :=
  match p with
  | JObject fields => fields
  | JArray items => indexed 0 items
  | JString s => indexed 0 (characters s)
  | JNull | JBool _ | JNumber _ => []
  end.

(** The error monad of code that may throw. *)
Definition andThen {A B} (r : Thrown + A) (k : A -> Thrown + B) : Thrown + B :=
  match r with
  | inl e => inl e
  | inr a => k a
  end.

(** [items.every(pred)], where [pred] may throw: it stops at the first
    element that fails. *)
Fixpoint every (pred : value -> Thrown + bool) (items : list value) : Thrown + bool :=
  match items with
  | [] => inr true
  | p :: rest =>
      andThen (pred p) (fun ok => if ok then every pred rest else inr false)
  end.

(** [items.map(f)], where [f] may throw. *)
Fixpoint mapThrowing {A B} (f : A -> Thrown + B) (items : list A) : Thrown + list B :=
  match items with
  | [] => inr []
  | p :: rest =>
      andThen (f p) (fun q => andThen (mapThrowing f rest) (fun qs => inr (q :: qs)))
  end.

End Json.
Import Json.

(* ================================================================== *)
(** ** Importing a timeline file ([handleFileSelect], lines 100-171) *)

(** Lines 118-124: the array to load. *)
Definition photosToLoad (parsedJson : value) : Thrown + list value :=
  andThen (getProp parsedJson "photos") (fun photosField =>
  match photosField with
  | Some (JArray items) => inr items
  | _ =>
      match parsedJson with
      | JArray items => inr items
      | _ => inl (ErrorObject "JSON file is not in a recognized timeline format.")
      end
  end).

(** Line 126: [p => p.id && (p.imageUrl || p.dataUrl)], as [every] reads it. *)
Definition hasIdAndUrl (p : value) : Thrown + bool :=
  andThen (getProp p "id") (fun pid =>
  if toBoolean pid then
    andThen (getProp p "imageUrl") (fun pImageUrl =>
    if toBoolean pImageUrl then inr true
    else andThen (getProp p "dataUrl") (fun pDataUrl => inr (toBoolean pDataUrl)))
  else inr false).

(** Line 128: [p => ({ ...p, imageUrl: p.imageUrl || p.dataUrl || '' })]. *)
Definition migrate (p : value) : Thrown + value :=
  andThen (getProp p "imageUrl") (fun pImageUrl =>
  andThen (if toBoolean pImageUrl then inr pImageUrl else getProp p "dataUrl") (fun firstUrl =>
  let newImageUrl :=
    match Json.or firstUrl (Some (JString "")) with
    | Some v => v
    | None => JString ""
    end in
  inr (JObject (setProp "imageUrl" newImageUrl (ownProperties p))))).

(** Lines 114-134 up to the call of [setPhotos]: the list it would be
    called with, or what was thrown. *)
Definition readTimeline (parsed : Thrown + value) : Thrown + list value :=
  andThen parsed (fun parsedJson =>
  andThen (photosToLoad parsedJson) (fun items =>
  andThen (every hasIdAndUrl items) (fun valid =>
  if valid then mapThrowing migrate items
  else inl (ErrorObject "Invalid photo data within timeline file.")))).

(** A selected file: its name, its MIME type and its text. *)
Record File : Type := mkFile {
  name : string;
  type : string;
  content : string
}.

(** What [handleFileSelect] does, in program order. *)
Inductive FileEvent : Type :=
| TimelineLoaded (migratedPhotos : list value)   (* setPhotos(migratedPhotos) *)
| PhotoAdded (photo : Photo)                     (* setPhotos(prev => [...prev, newPhoto]) *)
| UploadStarted (tempId dataUrl : string)        (* uploadImageToCloud(dataUrl) *)
| Alerted (text : string).                       (* alert(text) *)

(** [setPhotos] was called. *)
Definition changesPhotos (ev : FileEvent) : bool :=
  match ev with
  | TimelineLoaded _ | PhotoAdded _ => true
  | UploadStarted _ _ | Alerted _ => false
  end.

(** An image file was processed. *)
Definition processesImage (ev : FileEvent) : bool :=
  match ev with
  | PhotoAdded _ | UploadStarted _ _ => true
  | TimelineLoaded _ | Alerted _ => false
  end.

Section FileSelect.

(** [JSON.parse(await file.text())]. *)
Variable parseJson : string -> Thrown + value.
(** [resizeImage(file, 1024)] of [lib/albumUtils], which is not part of
    the sources at hand: the data URL, or what it threw. *)
Variable resizeImage : File -> nat -> Thrown + string.
(** The id drawn for the [i]-th image of a batch from the clock and the
    random generator (line 144). *)
Variable tempIdOf : nat -> string.

(** The JSON branch (lines 110-139): its events and [loadedTimeline]. *)
Definition loadJsonFile (file : File) : list FileEvent * bool :=
  match readTimeline (parseJson file.(content)) with
  | inr migratedPhotos =>
      ([TimelineLoaded migratedPhotos;
        Alerted ("Successfully loaded timeline from " ++ file.(name))], true)
  | inl _ =>
      ([Alerted ("Could not load the timeline from " ++ file.(name)
                 ++ ". The file might be corrupted or in the wrong format.")], false)
  end.

(** The image loop (lines 143-169), from the [i]-th image on. *)
Fixpoint processImages (i : nat) (imageFiles : list File) : list FileEvent :=
  match imageFiles with
  | [] => []
  | file :: rest =>
      let tempId := tempIdOf i in
      (match resizeImage file 1024 with
       | inr dataUrl => [PhotoAdded (newPhoto tempId dataUrl); UploadStarted tempId dataUrl]
       | inl _ => [Alerted ("Could not process " ++ file.(name) ++ ".")]
       end ++ processImages (S i) rest)%list
  end.

(** [handleFileSelect]; [None] is an input without a file list. *)
Definition handleFileSelect (files : option (list File)) : list FileEvent :=
  match files with
  | None => []
  | Some files =>
      let imageFiles := filter (fun file => startsWith file.(type) "image/") files in
      let jsonFiles := filter (fun file => file.(type) =? "application/json") files in
      let (jsonEvents, loadedTimeline) :=
        match jsonFiles with
        | file :: _ => loadJsonFile file
        | [] => ([], false)
        end in
      (jsonEvents ++
       if negb loadedTimeline && (0 <? length imageFiles)%nat
       then processImages 0 imageFiles
       else [])%list
  end.

(** A file that would load as a timeline: it parses and passes the checks. *)
Definition isValidTimeline (file : File) : bool :=
  match readTimeline (parseJson file.(content)) with
  | inr _ => true
  | inl _ => false
  end.

End FileSelect.

(* ================================================================== *)
(** ** Sharing by link ([handleShare], lines 279-300; [loadTimeline],
    lines 62-95) *)

(** [({ localDataUrl, ...rest }) => rest] *)
Definition withoutLocalDataUrl (p : Photo) : Photo :=
  mkPhoto p.(id) p.(imageUrl) p.(date) p.(message) p.(status)
          p.(generatedUrl) p.(error) None.

(** The functions of the browser and of pako the codec is made of, with
    the contracts it relies on. Strings hold 8-bit characters, so [btoa]
    cannot meet a character it refuses. *)
Class Platform : Type := {
  (** [JSON.stringify] on a list of entries *)
  JSON_stringify : list Photo -> string;
  (** [JSON.parse], its result read as [Photo[]] *)
  JSON_parse : string -> Thrown + list Photo;
  (** [pako.deflate(string)] *)
  deflate : string -> list Byte.byte;
  (** [pako.inflate(bytes, { to: 'string' })] *)
  inflate : list Byte.byte -> Thrown + string;
  btoa : string -> string;
  atob : string -> Thrown + string;
  parse_stringify : forall photos, JSON_parse (JSON_stringify photos) = inr photos;
  inflate_deflate : forall s, inflate (deflate s) = inr s;
  deflate_not_empty : forall s, deflate s <> [];
  atob_btoa : forall s, atob (btoa s) = inr s;
  btoa_not_empty : forall s, s <> "" -> btoa s <> ""
}.

(** The query of a URL: names and values, as [URLSearchParams] holds them. *)
Definition SearchParams : Type := list (string * string).

(** [urlParams.get(name)]; [None] is [null]. *)
Fixpoint getParam (param : string) (search : SearchParams) : option string :=
  match search with
  | [] => None
  | (k, v) :: rest => if k =? param then Some v else getParam param rest
  end.

(** A parameter that passes [if (v)]: present and not empty. *)
Definition whenTruthy (v : option string) : option string :=
  match v with
  | Some s => if truthy s then Some s else None
  | None => None
  end.

Section Sharing.

Context {platform : Platform}.

(** Lines 285-288: the value of the [data] parameter. *)
Definition encodeShare (photos : list Photo) : string :=
  let photosForSharing := map withoutLocalDataUrl photos in
  let jsonString := JSON_stringify photosForSharing in
  let compressed := deflate jsonString in
  btoa (string_of_list_byte compressed).

(** Lines 85-88: what [setPhotos] is given, or what was thrown. *)
Definition decodeShare (data : string) : Thrown + list Photo :=
  andThen (atob data) (fun decodedBinaryString =>
  let uint8array := list_byte_of_string decodedBinaryString in
  andThen (inflate uint8array) (fun decompressed =>
  JSON_parse decompressed)).

(** [handleShare]: the query of the link put on the clipboard; [None] when
    the list is empty and only an alert is shown. *)
Definition handleShare (photos : list Photo) : option SearchParams :=
  if (length photos =? 0)%nat then None
  else Some [("data", encodeShare photos)].

(** [loadTimeline], on the query of the page: the call of [setPhotos] it
    makes, or [None] when it makes none. *)
Definition loadTimeline (w : World) (search : SearchParams) : option PhotosUpdate :=
  let loadFromUrl := getParam "load_from_url" search in
  let data := getParam "data" search in
  match whenTruthy loadFromUrl, whenTruthy data with
  | Some loadFromUrl, _ =>
      match andThen (w.(fetchTimeline) loadFromUrl) (fun parsedPhotos =>
              if (length parsedPhotos =? 0)%nat
                 || forallb (fun p => truthy p.(id) && truthy p.(imageUrl)) parsedPhotos
              then inr parsedPhotos
              else inl (ErrorObject "Invalid timeline data format from cloud URL."))
      with
      | inr parsedPhotos => Some (ReplaceWith parsedPhotos)
      | inl _ => None
      end
  | None, Some data =>
      match decodeShare data with
      | inr parsedPhotos => Some (ReplaceWith parsedPhotos)
      | inl _ => None
      end
  | None, None => None
  end.

End Sharing.

(* ================================================================== *)
(** * The vocabulary of the properties *)

(** ** The operations of the timeline state machine

    Every change of the list that is not a load: an accepted image file
    appends a new entry, a merge patches by id, a deletion filters. *)

Inductive Operation : Type :=
| Create (tempId dataUrl : string)
| Complete (target : string) (m : Merge)
| Delete (target : string).

Definition perform (op : Operation) (photos : list Photo) : list Photo :=
  match op with
  | Create tempId dataUrl => applyUpdate (Append (newPhoto tempId dataUrl)) photos
  | Complete target m => applyUpdate (MergeById target m) photos
  | Delete target => applyUpdate (handleDeletePhoto photos target) photos
  end.

Definition run (ops : list Operation) (photos : list Photo) : list Photo :=
  fold_left (fun l op => perform op l) ops photos.

(** [status == 'done'] implies [generatedUrl] is set. *)
Definition doneHasGenerated (p : Photo) : bool :=
  match p.(status), p.(generatedUrl) with
  | Status.done, None => false
  | _, _ => true
  end.

(** The invariant as the specification words it:
    [status == 'done'] exactly when [generatedUrl] is set and [error] is not. *)
Definition doneIffGeneratedNoError (p : Photo) : bool :=
  Bool.eqb (Status.eqb p.(status) Status.done)
           (match p.(generatedUrl), p.(error) with
            | Some _, None => true
            | _, _ => false
            end).

(** The operation adds an entry with the id [target]. *)
Definition creates (target : string) (op : Operation) : bool :=
  match op with
  | Create tempId _ => tempId =? target
  | Complete _ _ | Delete _ => false
  end.

(** Every [setPhotos] of a log merges into the one entry [target]. *)
Definition mergesOnly (target : string) (log : list Event) : Prop :=
  Forall (fun ev => match ev with
                    | SetPhotos (MergeById t _) => t = target
                    | SetPhotos _ => False
                    | _ => True
                    end) log.

(** The logs of the service functions call [setPhotos] nowhere. *)
Definition silent (log : list Event) : Prop :=
  Forall (fun ev => match ev with SetPhotos _ => False | _ => True end) log.

(** The log of a call that stopped at attempt [k]: each attempt before it
    is followed by its wait. *)
Definition attemptsLog (k : nat) : list Event :=
  (flat_map (fun n => [ModelCalled n; Slept (initialDelay * 2 ^ (Z.of_nat n - 1))%Z]) (seq 1 (k - 1))
   ++ [ModelCalled k])%list.

(** Lines 302-303 on a thrown value. *)
Definition internal (e : Thrown) : bool := isInternalError (messageOr stringifyThrown e).

(** Some part of the first candidate carries [inlineData]. *)
Definition hasImagePart (response : GenerateContentResponse) : bool :=
  match response.(parts) with
  | Some ps => existsb (fun part => match part.(inlineData) with Some _ => true | None => false end) ps
  | None => false
  end.

(** The message of line 280, and the one line 363 wraps it in. *)
Definition textOnlyMessage (t : string) : string :=
  "The AI model responded with text instead of an image: " ++ dquote ++ t ++ dquote.

Definition failureDetail (t : string) : string :=
  "The AI model failed to generate an image. Details: " ++ textOnlyMessage t.

(** The two shapes of a timeline file. *)
Definition timelineShape (parsedJson : value) (items : list value) : Prop :=
  parsedJson = JArray items
  \/ exists fields, parsedJson = JObject fields /\ lookup "photos" fields = Some (JArray items).

(** An element that carries an id and one of the two URLs. *)
Definition validEntry (p : value) : Prop :=
  exists fields,
    p = JObject fields
    /\ toBoolean (lookup "id" fields) = true
    /\ (toBoolean (lookup "imageUrl" fields) = true
        \/ toBoolean (lookup "dataUrl" fields) = true).

(** [q] is [p] with [imageUrl] set to its own [imageUrl], or else to its
    [dataUrl]. *)
Definition migrates (p q : value) : Prop :=
  exists fields v,
    p = JObject fields
    /\ q = JObject (setProp "imageUrl" v fields)
    /\ Some v = (if toBoolean (lookup "imageUrl" fields)
                 then lookup "imageUrl" fields
                 else lookup "dataUrl" fields).

(** [log] holds a call [setPhotos(migratedPhotos)]. *)
Definition loadsTimeline (log : list FileEvent) : bool :=
  existsb (fun ev => match ev with TimelineLoaded _ => true | _ => false end) log.

(** An entry being uploaded has no [imageUrl] yet and shows its preview;
    an entry in error says why. *)
Definition wellFormed (p : Photo) : bool :=
  match p.(status) with
  | Status.uploading =>
      negb (truthy p.(imageUrl))
      && match p.(localDataUrl) with Some _ => true | None => false end
  | Status.error => match p.(error) with Some _ => true | None => false end
  | _ => true
  end.

(* ================================================================== *)
(** ** A timeline, a world and files to run on *)

Module Sample.

Definition imageAnswer : GenerateContentResponse :=
  mkResponse
    (Some [mkPart None (Some "Here is your image.");
           mkPart (Some (mkInlineData (Some "image/png") (Some "QUJD"))) None])
    (Some "Here is your image.").

Definition textAnswer : GenerateContentResponse :=
  mkResponse (Some [mkPart None (Some "I cannot help with that.")])
             (Some "I cannot help with that.").

Definition internalError : Thrown :=
  ErrorObject ("{" ++ dquote ++ "error" ++ dquote ++ ":{" ++ dquote ++ "code" ++ dquote
               ++ ":500," ++ dquote ++ "status" ++ dquote ++ ":" ++ dquote ++ "INTERNAL"
               ++ dquote ++ "}}").

Definition badRequest : Thrown := ErrorObject "400 Bad Request: unsupported image".

(** Fails twice with an internal error, then answers with an image. *)
Definition flaky : Client :=
  fun _ attempt => if (attempt <? 3)%nat then inl internalError else inr imageAnswer.

Definition obliging : Client := fun _ _ => inr imageAnswer.
Definition wordy : Client := fun _ _ => inr textAnswer.
Definition refusing : Client := fun _ _ => inl badRequest.

(** A world where the network and the blob store work, around a model. *)
Definition world (client : Client) : World :=
  mkWorld
    (fun _ => inr (mkImageResponse true "OK" (inr "data:image/jpeg;base64,AAAA")))
    (inr client)
    (fun _ => inr (mkUploadResponse true "" (inr "https://blob.example/generated.png")))
    (fun _ => inl (ErrorObject "Failed to fetch")).

Definition request : ModelRequest :=
  mkRequest "image/jpeg" "AAAA" (prompt "A day at the beach").

Definition beach (s : PhotoStatus) (generated failure : option string) : Photo :=
  mkPhoto "1700000000000-0.5" "https://blob.example/beach.jpg" "2019-07-01"
          "A day at the beach" s generated failure None.

Definition hills : Photo :=
  mkPhoto "1700000000001-0.25" "https://blob.example/hills.jpg" "2020-01-05"
          "" Status.idle None None None.

(** An entry whose upload has not finished. *)
Definition arriving : Photo := newPhoto "1700000000002-0.75" "data:image/jpeg;base64,BBBB".

End Sample.

(** Files to select. *)
Module SampleFiles.

Definition legacyJson : value :=
  JObject [("photos", JArray [JObject [("id", JString "a");
                                       ("dataUrl", JString "http://x/y.png")]])].

(** The text of the legacy file: an object with a [photos] array of one
    element with an [id] and a [dataUrl]. *)
Definition legacyText : string :=
  "{" ++ dquote ++ "photos" ++ dquote ++ ":[{" ++ dquote ++ "id" ++ dquote ++ ":"
  ++ dquote ++ "a" ++ dquote ++ "," ++ dquote ++ "dataUrl" ++ dquote ++ ":"
  ++ dquote ++ "http://x/y.png" ++ dquote ++ "}]}".

(** An array whose second element has no id. *)
Definition partialJson : value :=
  JArray [JObject [("id", JString "a"); ("imageUrl", JString "http://x/a.png")];
          JObject [("imageUrl", JString "http://x/b.png")]].

Definition partialText : string :=
  "[{" ++ dquote ++ "id" ++ dquote ++ ":" ++ dquote ++ "a" ++ dquote ++ ","
  ++ dquote ++ "imageUrl" ++ dquote ++ ":" ++ dquote ++ "http://x/a.png" ++ dquote
  ++ "},{" ++ dquote ++ "imageUrl" ++ dquote ++ ":" ++ dquote ++ "http://x/b.png"
  ++ dquote ++ "}]".

(** [JSON.parse] on the texts above; anything else is taken as malformed. *)
Definition parse (text : string) : Thrown + value :=
  if text =? legacyText then inr legacyJson
  else if text =? partialText then inr partialJson
  else inl (ErrorObject "Unexpected token").

Definition resize (file : File) (maxDimension : nat) : Thrown + string :=
  inr ("data:image/jpeg;base64," ++ file.(content)).

Definition tempId (i : nat) : string := "1700000000000-0." ++ indexKey i.

Definition legacy : File := mkFile "legacy.json" "application/json" legacyText.
Definition partial : File := mkFile "partial.json" "application/json" partialText.
Definition broken : File := mkFile "broken.json" "application/json" "{".
Definition holiday : File := mkFile "holiday.png" "image/png" "iVBORw0KGgo=".

End SampleFiles.

(** The card of the sample entry, clicked through one failed and one
    successful generation. *)
Definition idleBeach : list Photo :=
  run [Create "1700000000000-0.5" "data:image/jpeg;base64,AAAA";
       Complete "1700000000000-0.5" (UploadSucceeded "https://blob.example/beach.jpg");
       Complete "1700000000000-0.5" (Edited (editDate "2019-07-01"));
       Complete "1700000000000-0.5" (Edited (editMessage "A day at the beach"))] [].

Definition afterFailure : list Photo :=
  replay (click (Sample.world Sample.refusing) idleBeach
                (Sample.beach Status.idle None None) GenerateImage) idleBeach.

Definition afterRetry : list Photo :=
  replay (click (Sample.world Sample.obliging) afterFailure
                (Sample.beach Status.error None
                   (Some "The AI model failed to generate an image. Details: 400 Bad Request: unsupported image"))
                TryAgain) afterFailure.

(** An entry whose upload failed keeps the preview it was created with. *)
Definition failedUpload : Photo := patch UploadFailed Sample.arriving.

(* ================================================================== *)
(** ** A platform to run the codec on

    [Platform] is met by the base64 of RFC 4648, which is what [btoa] and
    [atob] compute on 8-bit characters, and by two small stand-ins: a
    self-delimiting text for a list of entries in place of [JSON], a framed
    copy in place of pako. They serve where a property is evaluated on a
    concrete list; no property is about the stand-ins. *)

(** Binary to text: three characters become four digits of six bits. *)
Module Base64.

Local Open Scope char_scope.

(** Six bits, the high one first. *)
Definition sextet : Set := (bool * bool * bool * bool * bool * bool)%type.

Definition alphabet : string :=
  "ABCDEFGHIJKLMNOPQRSTUVWXYZabcdefghijklmnopqrstuvwxyz0123456789+/"%string.

Definition bit (b : bool) (weight : nat) : nat := if b then weight else 0.

Definition index (s : sextet) : nat :=
  let '(b5, b4, b3, b2, b1, b0) := s in
  bit b5 32 + bit b4 16 + bit b3 8 + bit b2 4 + bit b1 2 + bit b0 1.

Definition digit (s : sextet) : ascii :=
  match String.get (index s) alphabet with
  | Some c => c
  | None => "="
  end.

Definition bools : list bool := [false; true].

Definition sextets : list sextet :=
  flat_map (fun b5 => flat_map (fun b4 => flat_map (fun b3 =>
  flat_map (fun b2 => flat_map (fun b1 => map (fun b0 =>
    (b5, b4, b3, b2, b1, b0)) bools) bools) bools) bools) bools) bools.

Definition value (c : ascii) : option sextet :=
  find (fun s => Ascii.eqb (digit s) c) sextets.

Definition invalid : Thrown :=
  ErrorObject "The string to be decoded is not correctly encoded."%string.

Fixpoint btoa (s : string) : string :=
  match s with
  | EmptyString => EmptyString
  | String (Ascii a0 a1 a2 a3 a4 a5 a6 a7) EmptyString =>
      String (digit (a7, a6, a5, a4, a3, a2))
     (String (digit (a1, a0, false, false, false, false))
     (String "=" (String "=" EmptyString)))
  | String (Ascii a0 a1 a2 a3 a4 a5 a6 a7)
     (String (Ascii b0 b1 b2 b3 b4 b5 b6 b7) EmptyString) =>
      String (digit (a7, a6, a5, a4, a3, a2))
     (String (digit (a1, a0, b7, b6, b5, b4))
     (String (digit (b3, b2, b1, b0, false, false))
     (String "=" EmptyString)))
  | String (Ascii a0 a1 a2 a3 a4 a5 a6 a7)
     (String (Ascii b0 b1 b2 b3 b4 b5 b6 b7)
     (String (Ascii c0 c1 c2 c3 c4 c5 c6 c7) rest)) =>
      String (digit (a7, a6, a5, a4, a3, a2))
     (String (digit (a1, a0, b7, b6, b5, b4))
     (String (digit (b3, b2, b1, b0, c7, c6))
     (String (digit (c5, c4, c3, c2, c1, c0)) (btoa rest))))
  end.

Fixpoint atob (s : string) : Thrown + string :=
  match s with
  | EmptyString => inr EmptyString
  | String d1 (String d2 (String d3 (String d4 rest))) =>
      match value d1, value d2 with
      | Some (a7, a6, a5, a4, a3, a2), Some (a1, a0, b7, b6, b5, b4) =>
          let first := Ascii a0 a1 a2 a3 a4 a5 a6 a7 in
          if Ascii.eqb d3 "=" then
            if Ascii.eqb d4 "=" then
              match rest with
              | EmptyString => inr (String first EmptyString)
              | String _ _ => inl invalid
              end
            else inl invalid
          else
            match value d3 with
            | Some (b3, b2, b1, b0, c7, c6) =>
                let second := Ascii b0 b1 b2 b3 b4 b5 b6 b7 in
                if Ascii.eqb d4 "=" then
                  match rest with
                  | EmptyString => inr (String first (String second EmptyString))
                  | String _ _ => inl invalid
                  end
                else
                  match value d4, atob rest with
                  | Some (c5, c4, c3, c2, c1, c0), inr decoded =>
                      inr (String first (String second
                             (String (Ascii c0 c1 c2 c3 c4 c5 c6 c7) decoded)))
                  | _, _ => inl invalid
                  end
            | None => inl invalid
            end
      | _, _ => inl invalid
      end
  | _ => inl invalid
  end.

Lemma value_digit (s : sextet) : value (digit s) = Some s.
Proof. destruct s as [[[[[[] []] []] []] []] []]; reflexivity. Qed.

Lemma digit_not_pad (s : sextet) : Ascii.eqb (digit s) "=" = false.
Proof. destruct s as [[[[[[] []] []] []] []] []]; reflexivity. Qed.

Lemma atob_btoa : forall s, atob (btoa s) = inr s.
Proof.
  fix IH 1.
  intros [|[a0 a1 a2 a3 a4 a5 a6 a7]
           [|[b0 b1 b2 b3 b4 b5 b6 b7]
              [|[c0 c1 c2 c3 c4 c5 c6 c7] rest]]].
  - reflexivity.
  - cbn [btoa atob]. rewrite !value_digit. reflexivity.
  - cbn [btoa atob]. rewrite !value_digit, digit_not_pad. reflexivity.
  - cbn [btoa atob]. rewrite !value_digit, !digit_not_pad, IH. reflexivity.
Qed.

Lemma btoa_not_empty (s : string) : s <> EmptyString -> btoa s <> EmptyString.
Proof.
  destruct s as [|[a0 a1 a2 a3 a4 a5 a6 a7]
                   [|[b0 b1 b2 b3 b4 b5 b6 b7]
                      [|[c0 c1 c2 c3 c4 c5 c6 c7] rest]]];
    [congruence | discriminate ..].
Qed.

Example btoa_pads :
  btoa "Man" = "TWFu"%string /\ btoa "Ma" = "TWE="%string /\ btoa "M" = "TQ=="%string.
Proof. repeat split. Qed.

End Base64.

Module Reference.

Local Open Scope char_scope.

(** A string: each character behind a dot, then a semicolon. *)
Fixpoint putString (s : string) (rest : string) : string :=
  match s with
  | EmptyString => String ";" rest
  | String c s' => String "." (String c (putString s' rest))
  end.

Fixpoint getString (input : string) : option (string * string) :=
  match input with
  | EmptyString => None
  | String tag rest =>
      if Ascii.eqb tag ";" then Some (EmptyString, rest)
      else if Ascii.eqb tag "." then
        match rest with
        | EmptyString => None
        | String c rest' =>
            match getString rest' with
            | Some (s, k) => Some (String c s, k)
            | None => None
            end
        end
      else None
  end.

Definition putOption (v : option string) (rest : string) : string :=
  match v with
  | None => String "N" rest
  | Some s => String "S" (putString s rest)
  end.

Definition getOption (input : string) : option (option string * string) :=
  match input with
  | EmptyString => None
  | String tag rest =>
      if Ascii.eqb tag "N" then Some (None, rest)
      else if Ascii.eqb tag "S" then
        match getString rest with
        | Some (s, k) => Some (Some s, k)
        | None => None
        end
      else None
  end.

Definition putStatus (s : PhotoStatus) (rest : string) : string :=
  String (match s with
          | Status.idle => "i"
          | Status.pending => "p"
          | Status.done => "d"
          | Status.error => "e"
          | Status.uploading => "u"
          end) rest.

Definition getStatus (input : string) : option (PhotoStatus * string) :=
  match input with
  | EmptyString => None
  | String tag rest =>
      if Ascii.eqb tag "i" then Some (Status.idle, rest)
      else if Ascii.eqb tag "p" then Some (Status.pending, rest)
      else if Ascii.eqb tag "d" then Some (Status.done, rest)
      else if Ascii.eqb tag "e" then Some (Status.error, rest)
      else if Ascii.eqb tag "u" then Some (Status.uploading, rest)
      else None
  end.

Definition putPhoto (p : Photo) (rest : string) : string :=
  putString p.(id) (putString p.(imageUrl) (putString p.(date) (putString p.(message)
    (putStatus p.(status) (putOption p.(generatedUrl) (putOption p.(error)
      (putOption p.(localDataUrl) rest))))))).

Definition next {A B} (r : option (A * string)) (k : A -> string -> option B) : option B :=
  match r with
  | Some (a, rest) => k a rest
  | None => None
  end.

Definition getPhoto (input : string) : option (Photo * string) :=
  next (getString input) (fun pId rest =>
  next (getString rest) (fun pImageUrl rest =>
  next (getString rest) (fun pDate rest =>
  next (getString rest) (fun pMessage rest =>
  next (getStatus rest) (fun pStatus rest =>
  next (getOption rest) (fun pGenerated rest =>
  next (getOption rest) (fun pError rest =>
  next (getOption rest) (fun pLocal rest =>
  Some (mkPhoto pId pImageUrl pDate pMessage pStatus pGenerated pError pLocal, rest))))))))).

(** A list: one plus sign per entry, a hash sign, the entries. *)
Fixpoint putCount (n : nat) (rest : string) : string :=
  match n with
  | O => String "#" rest
  | S n' => String "+" (putCount n' rest)
  end.

Fixpoint getCount (input : string) : option (nat * string) :=
  match input with
  | EmptyString => None
  | String tag rest =>
      if Ascii.eqb tag "#" then Some (O, rest)
      else if Ascii.eqb tag "+" then
        match getCount rest with
        | Some (n, k) => Some (S n, k)
        | None => None
        end
      else None
  end.

Fixpoint putAll (photos : list Photo) (rest : string) : string :=
  match photos with
  | [] => rest
  | p :: photos' => putPhoto p (putAll photos' rest)
  end.

Fixpoint getAll (n : nat) (input : string) : option (list Photo * string) :=
  match n with
  | O => Some ([], input)
  | S n' =>
      next (getPhoto input) (fun p rest =>
      next (getAll n' rest) (fun photos rest' => Some (p :: photos, rest')))
  end.

Definition stringify (photos : list Photo) : string :=
  putCount (length photos) (putAll photos EmptyString).

Definition parse (input : string) : Thrown + list Photo :=
  match next (getCount input) getAll with
  | Some (photos, EmptyString) => inr photos
  | _ => inl (ErrorObject "Unexpected token"%string)
  end.

(** Compression: two header bytes, then the characters. *)
Definition deflate (s : string) : list Byte.byte :=
  Byte.x78 :: Byte.x9c :: list_byte_of_string s.

Definition inflate (bytes : list Byte.byte) : Thrown + string :=
  match bytes with
  | Byte.x78 :: Byte.x9c :: body => inr (string_of_list_byte body)
  | _ => inl (ErrorObject "incorrect header check"%string)
  end.

Lemma getString_putString (s rest : string) : getString (putString s rest) = Some (s, rest).
Proof. induction s as [|c s IH]; cbn; [reflexivity | now rewrite IH]. Qed.

Lemma getOption_putOption (v : option string) (rest : string) :
  getOption (putOption v rest) = Some (v, rest).
Proof. destruct v as [s|]; cbn; [now rewrite getString_putString | reflexivity]. Qed.

Lemma getStatus_putStatus (s : PhotoStatus) (rest : string) :
  getStatus (putStatus s rest) = Some (s, rest).
Proof. destruct s; reflexivity. Qed.

Lemma getPhoto_putPhoto (p : Photo) (rest : string) : getPhoto (putPhoto p rest) = Some (p, rest).
Proof.
  unfold getPhoto, putPhoto.
  rewrite !getString_putString; cbn [next].
  rewrite !getString_putString; cbn [next].
  rewrite !getString_putString; cbn [next].
  rewrite !getString_putString; cbn [next].
  rewrite getStatus_putStatus; cbn [next].
  rewrite getOption_putOption; cbn [next].
  rewrite getOption_putOption; cbn [next].
  rewrite getOption_putOption; cbn [next].
  now destruct p.
Qed.

Lemma getCount_putCount (n : nat) (rest : string) : getCount (putCount n rest) = Some (n, rest).
Proof. induction n as [|n IH]; cbn; [reflexivity | now rewrite IH]. Qed.

Lemma getAll_putAll (photos : list Photo) (rest : string) :
  getAll (length photos) (putAll photos rest) = Some (photos, rest).
Proof.
  induction photos as [|p photos IH]; cbn [length putAll getAll]; [reflexivity|].
  rewrite getPhoto_putPhoto. cbn [next]. now rewrite IH.
Qed.

Lemma parse_stringify (photos : list Photo) : parse (stringify photos) = inr photos.
Proof.
  unfold parse, stringify. rewrite getCount_putCount. cbn [next].
  now rewrite getAll_putAll.
Qed.

Lemma inflate_deflate (s : string) : inflate (deflate s) = inr s.
Proof. unfold inflate, deflate. now rewrite string_of_list_byte_of_string. Qed.

Lemma deflate_not_empty (s : string) : deflate s <> [].
Proof. discriminate. Qed.

Definition platform : Platform :=
  Build_Platform stringify parse deflate inflate Base64.btoa Base64.atob
                 parse_stringify inflate_deflate deflate_not_empty
                 Base64.atob_btoa Base64.btoa_not_empty.

End Reference.

(* ================================================================== *)
(** * Further vocabulary *)

(** ** What a log holds *)

Definition fetches (log : list Event) : nat :=
  length (filter (fun ev => match ev with Fetched _ => true | _ => false end) log).

Definition uploads (log : list Event) : nat :=
  length (filter (fun ev => match ev with Uploaded _ => true | _ => false end) log).

Definition photoUpdates (log : list Event) : nat :=
  length (filter (fun ev => match ev with SetPhotos _ => true | _ => false end) log).

(** The time spent in [setTimeout], in milliseconds. *)
Definition totalWait (log : list Event) : Z := fold_right Z.add 0%Z (sleeps log).

(** The cost of a log stays within bounds: model calls, waiting time,
    fetches, uploads and calls of [setPhotos]. *)
Definition within (log : list Event) (calls : nat) (wait : Z) (f u s : nat) : Prop :=
  modelCalls log <= calls /\ (totalWait log <= wait)%Z
  /\ fetches log <= f /\ uploads log <= u /\ photoUpdates log <= s.

(** Only word characters, as the class of the regular expression has them. *)
Fixpoint allWordChars (s : string) : bool :=
  match s with
  | EmptyString => true
  | String c rest => isWordChar c && allWordChars rest
  end.

(** ** What [handleFileSelect] did *)

Definition added (log : list FileEvent) : list Photo :=
  flat_map (fun ev => match ev with PhotoAdded photo => [photo] | _ => [] end) log.

Definition uploadsStarted (log : list FileEvent) : list (string * string) :=
  flat_map (fun ev => match ev with UploadStarted tempId dataUrl => [(tempId, dataUrl)] | _ => [] end) log.

Definition alerts (log : list FileEvent) : list string :=
  flat_map (fun ev => match ev with Alerted text => [text] | _ => [] end) log.

(** The two kinds of file [handleFileSelect] looks at (lines 106-107). *)
Definition isImageFile (file : File) : bool := startsWith file.(type) "image/".
Definition isJsonFile (file : File) : bool := file.(type) =? "application/json".

(** The data URLs of the files [resizeImage] accepts, in order. *)
Definition resized (resizeImage : File -> nat -> Thrown + string) (files : list File)
  : list string :=
  flat_map (fun file => match resizeImage file 1024 with
                        | inr dataUrl => [dataUrl]
                        | inl _ => []
                        end) files.

(** The names of the files it refuses, in order. *)
Definition refused (resizeImage : File -> nat -> Thrown + string) (files : list File)
  : list string :=
  flat_map (fun file => match resizeImage file 1024 with
                        | inr _ => []
                        | inl _ => [file.(name)]
                        end) files.

(** A batch to select: an image that cannot be read between two that
    can, and a text file. *)
Module SampleBatch.

Definition resize (file : File) (maxDimension : nat) : Thrown + string :=
  if file.(content) =? "" then inl (ErrorObject "Failed to load image")
  else inr ("data:image/jpeg;base64," ++ file.(content)).

Definition empty : File := mkFile "empty.png" "image/png" "".
Definition garden : File := mkFile "garden.webp" "image/webp" "UklGRg==".
Definition notes : File := mkFile "notes.txt" "text/plain" "remember the garden".

Definition files : list File := [SampleFiles.holiday; notes; empty; garden].

End SampleBatch.

(* ================================================================== *)
(** * The endpoints of the blob store

    [api/upload-image.ts] and [app/api/upload/route.ts] store what the
    application posts, an image or a timeline, in the blob store and
    answer with its public URL. *)

(** ** More of JavaScript's strings *)

Module Str.

(** The backslash, by its code. *)
Definition backslash : string := String (ascii_of_nat 92) "".

(** [s.split(sep)] for a separator of one character: the pieces between
    the separators, one more than there are separators. *)
Fixpoint split (sep : ascii) (s : string) : list string :=
  match s with
  | EmptyString => [""]
  | String c rest =>
      if Ascii.eqb c sep then "" :: split sep rest
      else match split sep rest with
           | piece :: pieces => String c piece :: pieces
           | [] => [String c ""]
           end
  end.

(** [s] holds the character. *)
Fixpoint has (c : ascii) (s : string) : bool :=
  match s with
  | EmptyString => false
  | String c' rest => Ascii.eqb c' c || has c rest
  end.

(** The decimal spelling of a number, as a template literal prints it. *)
Definition decimal (n : N) : string := NilEmpty.string_of_uint (N.to_uint n).

Definition hexDigit (n : nat) : string :=
  String.substring n 1 "0123456789abcdef".

(** [JSON.stringify] on a string: the quote and the backslash are
    escaped, the control characters take their short escape or the
    four-digit one, every other character stands for itself. *)
Definition quoteChar (c : ascii) : string :=
  let n := nat_of_ascii c in
  if (n =? 8)%nat then backslash ++ "b"
  else if (n =? 9)%nat then backslash ++ "t"
  else if (n =? 10)%nat then backslash ++ "n"
  else if (n =? 12)%nat then backslash ++ "f"
  else if (n =? 13)%nat then backslash ++ "r"
  else if (n =? 34)%nat then backslash ++ dquote
  else if (n =? 92)%nat then backslash ++ backslash
  else if (n <? 32)%nat then backslash ++ "u00" ++ hexDigit (n / 16) ++ hexDigit (n mod 16)
  else String c "".

Fixpoint quoteChars (s : string) : string :=
  match s with
  | EmptyString => ""
  | String c rest => quoteChar c ++ quoteChars rest
  end.

Definition quote (s : string) : string := dquote ++ quoteChars s ++ dquote.

(** [JSON.stringify({ key: value })] for a string [value]. *)
Definition stringifyProperty (key value : string) : string :=
  "{" ++ quote key ++ ":" ++ quote value ++ "}".

End Str.

(** ** Requests, responses and the store *)

(** What a handler reads of a request. *)
Record HttpRequest : Type := mkHttpRequest {
  (** [request.method] *)
  httpMethod : string;
  (** [request.headers.get('content-type')]; [None] is [null] *)
  contentTypeHeader : option string;
  (** [request.body]; [None] is [null] *)
  requestBody : option string
}.

(** The options and the data of one call of [put] of [@vercel/blob]
    (its [access] is always [public]). *)
Record PutCall : Type := mkPutCall {
  filename : string;
  stored : string;
  putContentType : string;
  putToken : string
}.

(** The blob store: the URL of the blob, or what [put] threw. *)
Definition BlobStore : Type := PutCall -> Thrown + string.

(** The body of [new Response(body, ...)] in the edge functions: a text,
    or [JSON.stringify({ url })]. *)
Inductive EdgeBody : Type :=
| PlainText (body : string)
| UrlJson (blobUrl : string).

Record EdgeResponse : Type := mkEdgeResponse {
  edgeStatus : nat;
  edgeBody : EdgeBody
}.

(** [NextResponse.json({ key: value }, { status })] of the route
    handlers. *)
Record RouteResponse : Type := mkRouteResponse {
  routeStatus : nat;
  routeKey : string;
  routeValue : string
}.

(** [response.ok] *)
Definition okStatus (code : nat) : bool := ((200 <=? code) && (code <=? 299))%nat.

(** [await response.text()] *)
Definition edgeText (body : EdgeBody) : string :=
  match body with
  | PlainText s => s
  | UrlJson u => Str.stringifyProperty "url" u
  end.

(** [(await response.json()).url]; the texts the edge functions send are
    no JSON. *)
Definition edgeUrl (body : EdgeBody) : Thrown + string :=
  match body with
  | PlainText _ => inl (ErrorObject "Unexpected token")
  | UrlJson u => inr u
  end.

(** [error instanceof Error ? error.message : 'An unknown error occurred.'] *)
Definition messageOrUnknown (error : Thrown) : string :=
  messageOr (fun _ => "An unknown error occurred.") error.

(** ** [api/upload-image.ts] *)

Module UploadImage.

(** Line 31. *)
Definition contentTypeOf (request : HttpRequest) : string :=
  match whenTruthy request.(contentTypeHeader) with
  | Some h => h
  | None => "application/octet-stream"
  end.

(** Line 32: [contentType.split('/')[1] || 'jpeg']. *)
Definition fileExtension (contentType : string) : string :=
  match whenTruthy (nth_error (Str.split "/"%char contentType) 1) with
  | Some extension => extension
  | None => "jpeg"
  end.

(** [handler] (lines 15-52), run at the time [now] with the value of
    [BLOB_READ_WRITE_TOKEN]: the calls of [put] it made, and its
    response. *)
Definition handler (token : option string) (now : N) (put : BlobStore)
  (request : HttpRequest) : list PutCall * EdgeResponse :=
  match whenTruthy token with
  | None => ([], mkEdgeResponse 500 (PlainText "Storage secret is not configured."))
  | Some token =>
      if negb (request.(httpMethod) =? "POST")
      then ([], mkEdgeResponse 405 (PlainText "Method Not Allowed"))
      else
        match request.(requestBody) with
        | None => ([], mkEdgeResponse 400 (PlainText "Bad Request: No body provided."))
        | Some body =>
            let contentType := contentTypeOf request in
            let fileExtension := fileExtension contentType in
            let filename := "images/photo-" ++ Str.decimal now ++ "." ++ fileExtension in
            let call := mkPutCall filename body contentType token in
            match put call with
            | inr url => ([call], mkEdgeResponse 200 (UrlJson url))
            | inl error =>
                let errorMessage := messageOrUnknown error in
                ([call], mkEdgeResponse 500
                           (PlainText ("Internal Server Error: " ++ errorMessage)))
            end
        end
  end.

End UploadImage.

(** ** [app/api/upload/route.ts] *)

Module UploadTimeline.

(** [await request.arrayBuffer()]: a request without a body reads as an
    empty buffer. *)
Definition arrayBuffer (request : HttpRequest) : string :=
  match request.(requestBody) with
  | Some body => body
  | None => ""
  end.

(** [POST] (lines 6-33). *)
Definition POST (token : option string) (now : N) (put : BlobStore)
  (request : HttpRequest) : list PutCall * RouteResponse :=
  match whenTruthy token with
  | None =>
      let errorMsg := "Storage secret is not configured. Please set the BLOB_READ_WRITE_TOKEN environment variable in your project settings." in
      ([], mkRouteResponse 500 "error" errorMsg)
  | Some token =>
      let body := arrayBuffer request in
      let filename := "timelines/past-forward-" ++ Str.decimal now ++ ".json" in
      let call := mkPutCall filename body "application/json" token in
      match put call with
      | inr url => ([call], mkRouteResponse 200 "url" url)
      | inl error =>
          let errorMessage := messageOrUnknown error in
          ([call], mkRouteResponse 500 "error" ("Internal Server Error: " ++ errorMessage))
      end
  end.

End UploadTimeline.

(** ** The same two endpoints, written the other way

    The sources hold each endpoint twice: the edge function for
    timelines and the route handler for images follow. *)

Module UploadTimelineEdge.

(** [handler] of the edge function for timelines. *)
Definition handler (token : option string) (now : N) (put : BlobStore)
  (request : HttpRequest) : list PutCall * EdgeResponse :=
  match whenTruthy token with
  | None =>
      let errorMsg := "Storage secret is not configured. Please set the BLOB_READ_WRITE_TOKEN environment variable in your project settings." in
      ([], mkEdgeResponse 500 (PlainText errorMsg))
  | Some token =>
      if negb (request.(httpMethod) =? "POST")
      then ([], mkEdgeResponse 405 (PlainText "Method Not Allowed"))
      else
        match request.(requestBody) with
        | None => ([], mkEdgeResponse 400 (PlainText "Bad Request: No body provided."))
        | Some body =>
            let filename := "timelines/past-forward-" ++ Str.decimal now ++ ".json" in
            let call := mkPutCall filename body "application/json" token in
            match put call with
            | inr url => ([call], mkEdgeResponse 200 (UrlJson url))
            | inl error =>
                let errorMessage := messageOrUnknown error in
                ([call], mkEdgeResponse 500
                           (PlainText ("Internal Server Error: " ++ errorMessage)))
            end
        end
  end.

End UploadTimelineEdge.

Module UploadImageRoute.

(** [POST] of the route handler for images. *)
Definition POST (token : option string) (now : N) (put : BlobStore)
  (request : HttpRequest) : list PutCall * RouteResponse :=
  match whenTruthy token with
  | None => ([], mkRouteResponse 500 "error" "Storage secret is not configured.")
  | Some token =>
      let body := UploadTimeline.arrayBuffer request in
      let contentType := UploadImage.contentTypeOf request in
      let fileExtension := UploadImage.fileExtension contentType in
      let filename := "images/photo-" ++ Str.decimal now ++ "." ++ fileExtension in
      let call := mkPutCall filename body contentType token in
      match put call with
      | inr url => ([call], mkRouteResponse 200 "url" url)
      | inl error =>
          let errorMessage := messageOrUnknown error in
          ([call], mkRouteResponse 500 "error" ("Internal Server Error: " ++ errorMessage))
      end
  end.

End UploadImageRoute.

(** ** The endpoint that hands out the API key *)

Module GeminiConfig.

(** [GET], on the value of [GEMINI_API_KEY] in the environment of the
    server. It reads nothing of the request. *)
Definition GET (apiKey : option string) : RouteResponse :=
  match whenTruthy apiKey with
  | None => mkRouteResponse 500 "error" "GEMINI_API_KEY not configured"
  | Some apiKey => mkRouteResponse 200 "apiKey" apiKey
  end.

End GeminiConfig.

(* ================================================================== *)
(** * Saving, exporting and the album ([App.tsx], lines 204-346) *)

(** [type CloudSaveStatus = 'idle' | 'saving' | 'success' | 'error'] *)
Module CloudSaveStatus.
Inductive t : Set := idle | saving | success | error.
End CloudSaveStatus.

(** The state [cloudSaveState] (line 56). *)
Record CloudSaveState : Type := mkCloudSaveState {
  saveStatus : CloudSaveStatus.t;
  saveUrl : option string;
  saveError : option string
}.

(** The answer of [/api/upload], as [handleSaveToCloud] reads it. *)
Record SaveResponse : Type := mkSaveResponse {
  saveOk : bool;
  (** [response.status] *)
  saveCode : nat;
  (** [await response.text()] *)
  saveText : string;
  (** [(await response.json()).url]; [inr None] is an answer without it *)
  resultUrl : Thrown + option string
}.

(** What the handlers of the toolbar do, in program order. *)
Inductive ToolbarEvent : Type :=
| ToolbarAlerted (text : string)                       (* alert(text) *)
| SetCloudSaveState (state : CloudSaveState)           (* setCloudSaveState(state) *)
| PostedTimeline (jsonString : string)                 (* fetch('/api/upload', POST) *)
| SetIsDownloading (value : bool)                      (* setIsDownloading(value) *)
| AlbumRequested (imageData : list (string * option string))   (* createAlbumPage(imageData) *)
| Downloaded (download contents : string).             (* link.download and what link.href holds; link.click() *)

(** [photos.length === 0] *)
Definition noPhotos (photos : list Photo) : bool := (length photos =? 0)%nat.

Section Saving.

Context {platform : Platform}.

(** [appUrl.toString()], for the URL of the page once its query is made
    of these parameters alone. *)
Variable toString : SearchParams -> string.

(** [fetch('/api/upload', ...)] on a JSON text. *)
Variable postTimeline : string -> Thrown + SaveResponse.

(** Lines 247-268: the link, or what was thrown. *)
Definition saveTimeline (jsonString : string) : Thrown + string :=
  andThen (postTimeline jsonString) (fun response =>
  if negb response.(saveOk) then
    let errorText := response.(saveText) in
    inl (ErrorObject ("Failed to save: " ++ indexKey response.(saveCode) ++ " " ++ errorText))
  else
    andThen response.(resultUrl) (fun resultUrl =>
    let finalShareableUrl := toString [("load_from_url", interpolate resultUrl)] in
    inr finalShareableUrl)).

(** [handleSaveToCloud] (lines 237-277). *)
Definition handleSaveToCloud (photos : list Photo) : list ToolbarEvent :=
  if noPhotos photos
  then [ToolbarAlerted "There's nothing to save. Add some photos first!"]
  else
    let photosForSaving := map withoutLocalDataUrl photos in
    let jsonString := JSON_stringify photosForSaving in
    [SetCloudSaveState (mkCloudSaveState CloudSaveStatus.saving None None);
     PostedTimeline jsonString;
     match saveTimeline jsonString with
     | inr finalShareableUrl =>
         SetCloudSaveState (mkCloudSaveState CloudSaveStatus.success (Some finalShareableUrl) None)
     | inl error =>
         let errorMessage := messageOrUnknown error in
         SetCloudSaveState (mkCloudSaveState CloudSaveStatus.error None (Some errorMessage))
     end].

End Saving.

(** The value of [cloudSaveState] after a log, from the one before. *)
Fixpoint cloudSaveStateAfter (log : list ToolbarEvent) (state : CloudSaveState)
  : CloudSaveState :=
  match log with
  | [] => state
  | SetCloudSaveState s :: rest => cloudSaveStateAfter rest s
  | _ :: rest => cloudSaveStateAfter rest state
  end.

(** ** Exporting to a file (lines 204-235) *)

(** The spelling of a status. *)
Definition statusName (s : PhotoStatus) : string :=
  match s with
  | Status.idle => "idle"
  | Status.pending => "pending"
  | Status.done => "done"
  | Status.error => "error"
  | Status.uploading => "uploading"
  end.

(** A property that is set. *)
Definition property (key : string) (v : option string) : list (string * value) :=
  match v with
  | Some s => [(key, JString s)]
  | None => []
  end.

(** An entry as a JSON value: what [JSON.parse] reads back from what
    [JSON.stringify] wrote of it. A property that is [undefined] is not
    written. The properties are told apart by their names; they are
    listed in the order of the interface. *)
Definition toJson (p : Photo) : value :=
  JObject ([("id", JString p.(id));
            ("imageUrl", JString p.(imageUrl));
            ("date", JString p.(date));
            ("message", JString p.(message));
            ("status", JString (statusName p.(status)))]
           ++ property "generatedUrl" p.(generatedUrl)
           ++ property "error" p.(error)
           ++ property "localDataUrl" p.(localDataUrl)).

(** Lines 211-219: [exportData]. *)
Definition exportData (photos : list Photo) (cloudSaveState : CloudSaveState) : value :=
  let photosForExport := map withoutLocalDataUrl photos in
  JObject (("photos", JArray (map toJson photosForExport))
           :: match cloudSaveState.(saveStatus), whenTruthy cloudSaveState.(saveUrl) with
              | CloudSaveStatus.success, Some url => [("shareableUrl", JString url)]
              | _, _ => []
              end).

Section Exporting.

(** [JSON.stringify(exportData, null, 2)] *)
Variable stringifyPretty : value -> string.

(** [handleExportJson]: the file handed to the browser for download. *)
Definition handleExportJson (photos : list Photo) (cloudSaveState : CloudSaveState)
  : list ToolbarEvent :=
  if noPhotos photos
  then [ToolbarAlerted "There's nothing to export. Add some photos first!"]
  else
    let jsonString := stringifyPretty (exportData photos cloudSaveState) in
    [Downloaded "past-forward-timeline.json" jsonString].

(** The downloaded file, selected again: the browser types it by its
    extension. *)
Definition exportedFile (photos : list Photo) (cloudSaveState : CloudSaveState) : File :=
  mkFile "past-forward-timeline.json" "application/json"
         (stringifyPretty (exportData photos cloudSaveState)).

End Exporting.

(** ** The album (lines 302-329) *)

(** Line 303. *)
Definition generatedPhotos (photos : list Photo) : list Photo :=
  filter (fun p => Status.eqb p.(status) Status.done
                   && match p.(generatedUrl) with
                      | Some u => truthy u
                      | None => false
                      end) photos.

(** [photo.date || photo.id] *)
Definition albumKey (photo : Photo) : string :=
  if truthy photo.(date) then photo.(date) else photo.(id).

(** The entries that reach the album: those of line 303 whose key can
    be assigned. *)
Definition albumEntries (photos : list Photo) : list Photo :=
  filter (fun p => negb (albumKey p =? "__proto__")) (generatedPhotos photos).

(** [acc[key] = v] on an object that holds strings. A key that is there
    keeps its place and takes the new value; a new key is added. The
    one key an object literal inherits a setter for is [__proto__]:
    assigning a string to it leaves the object as it is. The order in
    which the engine would enumerate the keys is not modelled. *)
Fixpoint define (key : string) (v : option string) (acc : list (string * option string))
  : list (string * option string) :=
  match acc with
  | [] => [(key, v)]
  | (k, x) :: rest => if k =? key then (k, v) :: rest else (k, x) :: define key v rest
  end.

Definition assign (key : string) (v : option string) (acc : list (string * option string))
  : list (string * option string) :=
  if key =? "__proto__" then acc else define key v acc.

(** [acc[key]]; [None] is a key that is not there. *)
Fixpoint entry (key : string) (acc : list (string * option string)) : option (option string) :=
  match acc with
  | [] => None
  | (k, x) :: rest => if k =? key then Some x else entry key rest
  end.

(** Lines 311-314. *)
Definition imageData (photos : list Photo) : list (string * option string) :=
  fold_left (fun acc photo => assign (albumKey photo) photo.(generatedUrl) acc)
            (generatedPhotos photos) [].

Section Album.

(** [createAlbumPage] of [lib/albumUtils], which is not part of the
    sources at hand: the data URL of the page, or what it threw. *)
Variable createAlbumPage : list (string * option string) -> Thrown + string.

(** [handleDownloadAlbum] (lines 302-329). *)
Definition handleDownloadAlbum (photos : list Photo) : list ToolbarEvent :=
  if (length (generatedPhotos photos) =? 0)%nat
  then [ToolbarAlerted "You need at least one successfully generated image to create an album."]
  else
    ([SetIsDownloading true; AlbumRequested (imageData photos)]
     ++ match createAlbumPage (imageData photos) with
        | inr albumDataUrl => [Downloaded "past-forward-album.jpg" albumDataUrl]
        | inl _ => [ToolbarAlerted "Sorry, there was an error creating your album."]
        end
     ++ [SetIsDownloading false])%list.

End Album.

(** ** The toolbar (lines 344-346 and 425-441) *)

Definition hasGeneratedPhotos (photos : list Photo) : bool :=
  existsb (fun p => Status.eqb p.(status) Status.done) photos.

Definition hasPhotos (photos : list Photo) : bool := (0 <? length photos)%nat.

Definition isUploading (photos : list Photo) : bool :=
  existsb (fun p => Status.eqb p.(status) Status.uploading) photos.

Inductive ToolbarButton : Set := SaveToCloud | ExportFile | DownloadAlbum | ShareLink.

(** The [disabled] attribute of a button, in a render with these
    values of [cloudSaveState.status] and [isDownloading]. *)
Definition toolbarDisabled (photos : list Photo) (cloudStatus : CloudSaveStatus.t)
  (isDownloading : bool) (b : ToolbarButton) : bool :=
  match b with
  | SaveToCloud =>
      match cloudStatus with CloudSaveStatus.saving => true | _ => false end
      || isUploading photos
  | ExportFile => isUploading photos
  | DownloadAlbum => isDownloading || negb (hasGeneratedPhotos photos) || isUploading photos
  | ShareLink => negb (hasPhotos photos) || isUploading photos
  end.

(** A click reaches the handler: the toolbar is rendered for a list
    that has entries, and the button is not disabled. *)
Definition clickable (photos : list Photo) (cloudStatus : CloudSaveStatus.t)
  (isDownloading : bool) (b : ToolbarButton) : bool :=
  hasPhotos photos && negb (toolbarDisabled photos cloudStatus isDownloading b).

(* ================================================================== *)
(** * The image of a card ([components/PolaroidCard.tsx], lines 43-100) *)

(** The state [view]. *)
Inductive CardView : Set := viewGenerated | viewOriginal.

(** [if (v) sources.push(v)] *)
Definition pushIf (v : string) : list string := if truthy v then [v] else [].

Definition pushIfSet (v : option string) : list string :=
  match v with
  | Some s => pushIf s
  | None => []
  end.

(** [getImageSources] (lines 51-63). *)
Definition getImageSources (isSharedView : bool) (view : CardView)
  (generatedUrl : option string) (imageUrl dataUrl : string) : list string :=
  let sources :=
    if isSharedView then
      (pushIfSet generatedUrl ++ pushIf imageUrl ++ pushIf dataUrl)%list
    else
      ((match view with viewGenerated => pushIfSet generatedUrl | viewOriginal => [] end)
       ++ (match view with viewOriginal => pushIf imageUrl | viewGenerated => [] end)
       ++ pushIf dataUrl)%list in
  filter truthy sources.

(** The states the effect writes. *)
Record ImageState : Type := mkImageState {
  currentImageSrc : string;
  isImageLoaded : bool;
  imageError : bool
}.

(** [tryLoadImage] (lines 70-93) from the source at [currentIndex] on;
    [loads src] tells whether the browser fires [onload] or [onerror]
    for it. *)
Fixpoint tryLoadImage (loads : string -> bool) (sources : list string) (state : ImageState)
  : ImageState :=
  match sources with
  | [] => mkImageState state.(currentImageSrc) false true
  | src :: rest =>
      if loads src then mkImageState src true false
      else tryLoadImage loads rest state
  end.

(** The effect of lines 66-100, run to the end. *)
Definition loadImage (loads : string -> bool) (sources : list string) (state : ImageState)
  : ImageState :=
  if (0 <? length sources)%nat
  then tryLoadImage loads sources (mkImageState state.(currentImageSrc) false false)
  else state.

(** The [dataUrl] the application hands to the card of an entry
    ([App.tsx], line 377). *)
Definition cardDataUrl (photo : Photo) : string :=
  match whenTruthy photo.(localDataUrl) with
  | Some localDataUrl => localDataUrl
  | None => photo.(imageUrl)
  end.

(** The sources of the card of an entry in the editor. *)
Definition cardSources (photo : Photo) (view : CardView) : list string :=
  getImageSources false view photo.(generatedUrl) photo.(imageUrl) (cardDataUrl photo).

(* ================================================================== *)
(** * The API key of the client ([services/geminiService.ts], lines 233-265) *)

Module GeminiService.

(** The environment of the code: the two variables it reads, and
    whether it runs on the server ([typeof window === 'undefined']). *)
Record Env : Type := mkEnv {
  NEXT_PUBLIC_GEMINI_API_KEY : option string;
  GEMINI_API_KEY : option string;
  onServer : bool
}.

(** The answer of [/api/gemini-config]. *)
Record ConfigResponse : Type := mkConfigResponse {
  configOk : bool;
  (** [(await response.json()).apiKey] *)
  configApiKey : Thrown + option string
}.

(** [v] when it passes [if (v)]. *)
Definition isSet (v : option string) : bool :=
  match whenTruthy v with Some _ => true | None => false end.

(** Lines 238-257: the key, and whether [/api/gemini-config] was
    fetched. What the fetch or the reading of its answer throws is
    caught and logged. *)
Definition resolveApiKey (env : Env) (fetchConfig : Thrown + ConfigResponse)
  : bool * option string :=
  let apiKey := env.(NEXT_PUBLIC_GEMINI_API_KEY) in
  let apiKey := if negb (isSet apiKey) && env.(onServer) then env.(GEMINI_API_KEY) else apiKey in
  if negb (isSet apiKey) then
    (true,
     match fetchConfig with
     | inr response =>
         if response.(configOk) then
           match response.(configApiKey) with
           | inr key => key
           | inl _ => apiKey
           end
         else apiKey
     | inl _ => apiKey
     end)
  else (false, apiKey).

(** [getGeminiClient] (lines 235-265) on the module variable [ai]: a
    client is known by the key it was made with. It returns whether the
    configuration was fetched, the client or what was thrown, and the
    new value of [ai]. *)
Definition getGeminiClient (env : Env) (fetchConfig : Thrown + ConfigResponse)
  (ai : option string) : bool * (Thrown + string) * option string :=
  match ai with
  | Some client => (false, inr client, ai)
  | None =>
      let (fetched, apiKey) := resolveApiKey env fetchConfig in
      match whenTruthy apiKey with
      | None =>
          (fetched,
           inl (ErrorObject "GEMINI_API_KEY is not configured. Please set it in .env.local"),
           None)
      | Some apiKey => (fetched, inr apiKey, Some apiKey)
      end
  end.

(** [fetch('/api/gemini-config')] answered by the route handler. *)
Definition configFrom (response : RouteResponse) : ConfigResponse :=
  mkConfigResponse (okStatus response.(routeStatus))
                   (inr (if response.(routeKey) =? "apiKey"
                         then Some response.(routeValue) else None)).

End GeminiService.

(* ================================================================== *)
(** * The application against its endpoints *)

(** A blob: its type and its bytes. *)
Record Blob : Type := mkBlob {
  blobType : string;
  blobBytes : string
}.

Section AgainstTheEndpoints.

(** [dataURLtoBlob] of [lib/albumUtils], which is not part of the
    sources at hand: the blob, or what it threw. *)
Variable dataURLtoBlob : string -> Thrown + Blob.

(** The server: its token, its clock and the blob store. *)
Variable token : option string.
Variable now : N.
Variable put : BlobStore.

(** The request of [uploadImageToCloud] ([App.tsx], lines 36-42). A
    blob that is sent gives the handler a body. *)
Definition imageRequest (blob : Blob) : HttpRequest :=
  mkHttpRequest "POST" (Some blob.(blobType)) (Some blob.(blobBytes)).

(** [/api/upload-image] answered by [api/upload-image.ts]. *)
Definition postImageToHandler (dataUrl : string) : Thrown + UploadResponse :=
  andThen (dataURLtoBlob dataUrl) (fun blob =>
  let response := snd (UploadImage.handler token now put (imageRequest blob)) in
  inr (mkUploadResponse (okStatus response.(edgeStatus))
                        (edgeText response.(edgeBody))
                        (edgeUrl response.(edgeBody)))).

(** A world whose image endpoint is that handler. *)
Definition withImageEndpoint (w : World) : World :=
  mkWorld w.(fetchImage) w.(getGeminiClient) postImageToHandler w.(fetchTimeline).

(** The request of [handleSaveToCloud] (lines 250-256). *)
Definition timelineRequest (jsonString : string) : HttpRequest :=
  mkHttpRequest "POST" (Some "application/json") (Some jsonString).

(** [/api/upload] answered by [app/api/upload/route.ts]. *)
Definition postTimelineToRoute (jsonString : string) : Thrown + SaveResponse :=
  let response := snd (UploadTimeline.POST token now put (timelineRequest jsonString)) in
  inr (mkSaveResponse (okStatus response.(routeStatus))
                      response.(routeStatus)
                      (Str.stringifyProperty response.(routeKey) response.(routeValue))
                      (inr (if response.(routeKey) =? "url"
                            then Some response.(routeValue) else None))).

End AgainstTheEndpoints.

(** The call of [put] the image handler makes for a blob, and the one
    the timeline handler makes for a text. *)
Definition imageCall (now : N) (blob : Blob) (secret : string) : PutCall :=
  let contentType := UploadImage.contentTypeOf (imageRequest blob) in
  mkPutCall ("images/photo-" ++ Str.decimal now ++ "." ++ UploadImage.fileExtension contentType)
            blob.(blobBytes) contentType secret.

Definition timelineCall (now : N) (jsonString secret : string) : PutCall :=
  mkPutCall ("timelines/past-forward-" ++ Str.decimal now ++ ".json")
            jsonString "application/json" secret.

(** Every entry has an id and an [imageUrl] (line 74). *)
Definition loadable (photos : list Photo) : bool :=
  forallb (fun p => truthy p.(id) && truthy p.(imageUrl)) photos.

(** A page, a server and a store to run on. *)
Module SamplePage.

Definition toString (search : SearchParams) : string :=
  match search with
  | [(k, v)] => "https://past-forward.example/?" ++ k ++ "=" ++ v
  | _ => "https://past-forward.example/"
  end.

(** The query of a link of the page with the one parameter
    [load_from_url]. *)
Definition searchOf (href : string) : SearchParams :=
  match stripPrefix "https://past-forward.example/?load_from_url=" href with
  | Some v => [("load_from_url", v)]
  | None => []
  end.

Definition token : option string := Some "vercel_blob_rw_0123".

Definition now : N := 1700000000000%N.

(** A store that names the blob after the file. *)
Definition put : BlobStore :=
  fun call => inr ("https://blob.example/" ++ call.(filename)).

(** A store that is down. *)
Definition down : BlobStore := fun _ => inl (ErrorObject "fetch failed").

Definition dataURLtoBlob (dataUrl : string) : Thrown + Blob :=
  match matchDataUrl dataUrl with
  | Some (mime, base64Data) => inr (mkBlob mime base64Data)
  | None => inl (ErrorObject "Invalid data URL")
  end.

(** A world that serves the timeline stored by the sample server. *)
Definition serving (jsonString : string) : World :=
  mkWorld (fun _ => inl (ErrorObject "offline")) (inl (ErrorObject "no key"))
          (fun _ => inl (ErrorObject "offline"))
          (fun u => if u =? "https://blob.example/timelines/past-forward-1700000000000.json"
                    then JSON_parse (Platform := Reference.platform) jsonString
                    else inl (ErrorObject "Failed to fetch")).

End SamplePage.

(** ** A printer for JSON values

    [JSON.stringify(value, null, 2)] on the values of [Json]: two spaces
    per level, one property or element per line, [[]] and [{}] for the
    empty ones. It serves where an export is evaluated. *)

Module Printer.

Definition printNumber (n : number) : string :=
  match n with
  | Zero => "0"
  | NonZero negative digits => (if negative then "-" else "") ++ digits
  end.

Fixpoint print (indent : string) (v : value) : string :=
  let inner := indent ++ "  " in
  match v with
  | JNull => "null"
  | JBool b => if b then "true" else "false"
  | JNumber n => printNumber n
  | JString s => Str.quote s
  | JArray [] => "[]"
  | JArray (first :: others) =>
      "[" ++ newline ++ inner ++ print inner first
      ++ (fix rest (items : list value) : string :=
            match items with
            | [] => ""
            | item :: items => "," ++ newline ++ inner ++ print inner item ++ rest items
            end) others
      ++ newline ++ indent ++ "]"
  | JObject [] => "{}"
  | JObject ((key, first) :: others) =>
      "{" ++ newline ++ inner ++ Str.quote key ++ ": " ++ print inner first
      ++ (fix rest (fields : list (string * value)) : string :=
            match fields with
            | [] => ""
            | (k, x) :: fields =>
                "," ++ newline ++ inner ++ Str.quote k ++ ": " ++ print inner x ++ rest fields
            end) others
      ++ newline ++ indent ++ "}"
  end.

Definition stringifyPretty (v : value) : string := print "" v.

End Printer.

(** An export to run on: the sample entry, finished, saved to the cloud. *)
Module SampleExport.

Definition photos : list Photo :=
  [Sample.beach Status.done (Some "https://blob.example/generated.png") None].

Definition saved : CloudSaveState :=
  mkCloudSaveState CloudSaveStatus.success
    (Some "https://past-forward.example/?load_from_url=https://blob.example/t.json") None.

(** [JSON.parse] on the text of that export; anything else is taken as
    malformed. *)
Definition parse (text : string) : Thrown + value :=
  if text =? Printer.stringifyPretty (exportData photos saved)
  then inr (exportData photos saved)
  else inl (ErrorObject "Unexpected token").

End SampleExport.

(* ================================================================== *)
(** * More of the card's controls ([components/PolaroidCard.tsx]) *)

(** The delete button is rendered (lines 134-142). *)
Definition deleteOffered (isSharedView : bool) (p : Photo) : bool :=
  negb isSharedView
  && negb (Status.eqb p.(status) Status.pending)
  && negb (Status.eqb p.(status) Status.uploading).

(** [isEditable] (line 123): the two inputs are read-only without it. *)
Definition isEditable (p : Photo) : bool := Status.eqb p.(status) Status.idle.

(* ================================================================== *)
(** * More of the response of the model *)

(** The first part of the first candidate that carries [inlineData]. *)
Definition firstImage (response : GenerateContentResponse) : option InlineData :=
  match response.(parts) with
  | Some ps =>
      match find (fun part => match part.(inlineData) with Some _ => true | None => false end) ps with
      | Some part => part.(inlineData)
      | None => None
      end
  | None => None
  end.

(* ================================================================== *)
(** * Properties *)

(** ** Merging by id *)

Lemma patch_id (m : Merge) (p : Photo) : (patch m p).(id) = p.(id).
Proof. destruct m; reflexivity. Qed.

Lemma hasId_false_iff (target : string) (photos : list Photo) :
  hasId target photos = false <-> Forall (fun p => p.(id) <> target) photos.
Proof.
  unfold hasId. induction photos as [|p rest IH]; simpl.
  - split; [constructor | reflexivity].
  - rewrite orb_false_iff, IH, String.eqb_neq. split.
    + intros [Hp Hrest]. now constructor.
    + intros H. inversion H; subst. now split.
Qed.

Lemma mergeById_absent (target : string) (m : Merge) (photos : list Photo) :
  hasId target photos = false -> mergeById target m photos = photos.
Proof.
  unfold mergeById, hasId. induction photos as [|p rest IH]; simpl; intros H.
  - reflexivity.
  - apply orb_false_iff in H as [Hp Hrest].
    rewrite Hp, (IH Hrest). reflexivity.
Qed.

Lemma hasId_mergeById (x target : string) (m : Merge) (photos : list Photo) :
  hasId x (mergeById target m photos) = hasId x photos.
Proof.
  unfold hasId, mergeById. induction photos as [|p rest IH]; simpl.
  - reflexivity.
  - rewrite IH. destruct (p.(id) =? target); [now rewrite patch_id | reflexivity].
Qed.

Lemma hasId_filter_out (target : string) (photos : list Photo) :
  hasId target (filter (fun p => negb (p.(id) =? target)) photos) = false.
Proof.
  unfold hasId. induction photos as [|p rest IH]; simpl.
  - reflexivity.
  - destruct (p.(id) =? target) eqn:E; simpl; [exact IH | now rewrite E].
Qed.

Lemma find_absent (target : string) (photos : list Photo) :
  hasId target photos = false -> find (fun p => p.(id) =? target) photos = None.
Proof.
  unfold hasId. induction photos as [|p rest IH]; simpl; intros H.
  - reflexivity.
  - apply orb_false_iff in H as [Hp Hrest]. rewrite Hp. auto.
Qed.

Lemma replay_app (log1 log2 : list Event) (photos : list Photo) :
  replay (log1 ++ log2) photos = replay log2 (replay log1 photos).
Proof.
  revert photos. induction log1 as [|ev rest IH]; simpl; intros photos.
  - reflexivity.
  - destruct ev; apply IH.
Qed.

Lemma replay_mergesOnly_absent (target : string) (log : list Event) (photos : list Photo) :
  mergesOnly target log -> hasId target photos = false -> replay log photos = photos.
Proof.
  intros Hlog Habs. induction Hlog as [|ev rest Hev _ IH]; simpl.
  - reflexivity.
  - destruct ev as [| | | |[ | |t m]]; try exact IH; try contradiction.
    subst t. simpl. now rewrite mergeById_absent.
Qed.

Lemma mergesOnly_app (target : string) (log1 log2 : list Event) :
  mergesOnly target log1 -> mergesOnly target log2 -> mergesOnly target (log1 ++ log2).
Proof. unfold mergesOnly. intros. apply Forall_app. now split. Qed.

Lemma silent_mergesOnly (target : string) (log : list Event) :
  silent log -> mergesOnly target log.
Proof.
  unfold silent, mergesOnly. apply Forall_impl.
  intros [| | | |u]; simpl; tauto.
Qed.

Lemma silent_bind {A B} (m : Async A) (k : A -> Async B) :
  silent (fst m) -> (forall a, silent (fst (k a))) -> silent (fst (bind m k)).
Proof.
  destruct m as [log [e|a]]; simpl; intros Hm Hk.
  - exact Hm.
  - specialize (Hk a). destruct (k a) as [log' r]. simpl in *.
    apply Forall_app. now split.
Qed.

Lemma silent_catch {A} (m : Async A) (h : Thrown -> Async A) :
  silent (fst m) -> (forall e, silent (fst (h e))) -> silent (fst (catch m h)).
Proof.
  destruct m as [log [e|a]]; simpl; intros Hm Hh.
  - specialize (Hh e). destruct (h e) as [log' r]. simpl in *.
    apply Forall_app. now split.
  - exact Hm.
Qed.

Lemma silent_nil : silent [].
Proof. constructor. Qed.

Lemma silent_retryLoop (client : Client) (request : ModelRequest) (attempts : list nat) :
  silent (fst (retryLoop client request attempts)).
Proof.
  induction attempts as [|attempt rest IH]; cbn [retryLoop].
  - apply silent_nil.
  - apply silent_bind; [repeat constructor|]. intros _.
    destruct (client request attempt) as [error|response]; [|apply silent_nil].
    destruct (isInternalError _ && _); [|apply silent_nil].
    apply silent_bind; [repeat constructor|]. intros _. exact IH.
Qed.

Lemma silent_callGeminiWithRetry (w : World) (request : ModelRequest) :
  silent (fst (callGeminiWithRetry w request)).
Proof.
  unfold callGeminiWithRetry. apply silent_bind; [apply silent_nil|].
  intros client. apply silent_retryLoop.
Qed.

Lemma silent_generateTimelineImage (w : World) (imageUrl message : string) :
  silent (fst (generateTimelineImage w imageUrl message)).
Proof.
  unfold generateTimelineImage, imageUrlToDataUrl.
  apply silent_bind.
  - apply silent_bind; [repeat constructor|]. intros _.
    apply silent_bind; [apply silent_nil|]. intros response.
    destruct (negb _); apply silent_nil.
  - intros imageDataUrl. destruct (matchDataUrl imageDataUrl) as [[mime b64]|];
      [|apply silent_nil].
    apply silent_catch.
    + apply silent_bind; [apply silent_callGeminiWithRetry|].
      intros response. apply silent_nil.
    + intros e. apply silent_nil.
Qed.

Lemma silent_uploadImageToCloud (w : World) (dataUrl : string) :
  silent (fst (uploadImageToCloud w dataUrl)).
Proof.
  unfold uploadImageToCloud.
  apply silent_bind; [repeat constructor|]. intros _.
  apply silent_bind; [apply silent_nil|]. intros response.
  destruct (negb _); apply silent_nil.
Qed.

Lemma handleGenerateImage_mergesOnly (w : World) (photos : list Photo) (target : string) :
  mergesOnly target (handleGenerateImage w photos target).
Proof.
  unfold handleGenerateImage.
  destruct (find _ photos) as [photo|]; [|constructor].
  destruct (negb (truthy photo.(imageUrl))); [constructor|].
  pose proof (@silent_bind _ _
                (generateTimelineImage w photo.(imageUrl) photo.(message))
                (uploadImageToCloud w)
                (silent_generateTimelineImage w _ _)
                (silent_uploadImageToCloud w)) as Hs.
  unfold bind at 1. simpl.
  destruct (bind (generateTimelineImage w photo.(imageUrl) photo.(message))
                 (uploadImageToCloud w)) as [log [e|generatedCloudUrl]]; simpl in *.
  - constructor; [reflexivity|].
    apply mergesOnly_app; [now apply silent_mergesOnly|].
    repeat constructor.
  - constructor; [reflexivity|].
    apply mergesOnly_app; [now apply silent_mergesOnly|].
    repeat constructor.
Qed.

Lemma uploadCompletion_mergesOnly (w : World) (tempId dataUrl : string) :
  mergesOnly tempId (uploadCompletion w tempId dataUrl).
Proof.
  unfold uploadCompletion.
  pose proof (silent_uploadImageToCloud w dataUrl) as Hs.
  destruct (uploadImageToCloud w dataUrl) as [log [e|cloudUrl]]; simpl in *;
    (apply mergesOnly_app; [now apply silent_mergesOnly | repeat constructor]).
Qed.

(* ================================================================== *)
(** ** Deletion during flight *)

Lemma mergesOnly_suffix (target : string) (pre post : list Event) :
  mergesOnly target (pre ++ post) -> mergesOnly target post.
Proof. unfold mergesOnly. intros H. now apply Forall_app in H. Qed.

Lemma hasId_app (x : string) (l1 l2 : list Photo) :
  hasId x (l1 ++ l2) = hasId x l1 || hasId x l2.
Proof. unfold hasId. apply existsb_app. Qed.

Lemma hasId_filter_absent (x : string) (f : Photo -> bool) (photos : list Photo) :
  hasId x photos = false -> hasId x (filter f photos) = false.
Proof.
  unfold hasId. induction photos as [|p rest IH]; cbn; intros H.
  - reflexivity.
  - apply orb_false_iff in H as [Hp Hrest].
    destruct (f p); cbn; [rewrite Hp|]; auto.
Qed.

Lemma hasId_perform_absent (x : string) (op : Operation) (photos : list Photo) :
  creates x op = false -> hasId x photos = false -> hasId x (perform op photos) = false.
Proof.
  destruct op as [tempId dataUrl | target m | target];
    cbn [perform applyUpdate handleDeletePhoto creates]; intros Hop Habs.
  - rewrite hasId_app, Habs. cbn. now rewrite Hop.
  - now rewrite hasId_mergeById.
  - now apply hasId_filter_absent.
Qed.

Lemma hasId_run_absent (x : string) (ops : list Operation) (photos : list Photo) :
  forallb (fun op => negb (creates x op)) ops = true ->
  hasId x photos = false -> hasId x (run ops photos) = false.
Proof.
  unfold run. revert photos. induction ops as [|op rest IH]; cbn; intros photos Hops Habs.
  - exact Habs.
  - apply andb_true_iff in Hops as [Hop Hrest]. apply negb_true_iff in Hop.
    apply IH; [exact Hrest | now apply hasId_perform_absent].
Qed.

(** C4. Deleting entry X removes it whatever its status, and every later
    completion keyed by X (the end of its upload, the rest of its
    generation from any point on, with any outcome) leaves a list without
    X as it is. Whatever merges and deletions follow, and whatever entries
    are added under other ids, the list has no entry X. *)
Theorem delete_then_completion_is_noop
  (w : World) (photos startedOn : list Photo) (X dataUrl : string) :
  let afterDelete := applyUpdate (handleDeletePhoto photos X) photos in
  hasId X afterDelete = false
  /\ (forall m, applyUpdate (MergeById X m) afterDelete = afterDelete)
  /\ replay (uploadCompletion w X dataUrl) afterDelete = afterDelete
  /\ (forall before after,
        handleGenerateImage w startedOn X = (before ++ after)%list ->
        replay after afterDelete = afterDelete)
  /\ (forall ops,
        forallb (fun op => negb (creates X op)) ops = true ->
        Forall (fun p => p.(id) <> X) (run ops afterDelete))
  /\ (forall l m, hasId X l = false -> mergeById X m l = l).
Proof.
  cbn zeta. unfold handleDeletePhoto. cbn [applyUpdate].
  pose proof (hasId_filter_out X photos) as Habsent.
  split; [|split; [|split; [|split; [|split]]]].
  - exact Habsent.
  - intros m. now apply mergeById_absent.
  - apply replay_mergesOnly_absent with (target := X);
      [apply uploadCompletion_mergesOnly | exact Habsent].
  - intros before after Hlog.
    apply replay_mergesOnly_absent with (target := X); [|exact Habsent].
    apply mergesOnly_suffix with (pre := before). rewrite <- Hlog.
    apply handleGenerateImage_mergesOnly.
  - intros ops Hops. apply hasId_false_iff. now apply hasId_run_absent.
  - intros l m. apply mergeById_absent.
Qed.

(* ================================================================== *)
(** ** Commuting merges *)

Lemma mergeById_nth_error (target : string) (m : Merge) (photos : list Photo) (i : nat) :
  nth_error (mergeById target m photos) i
  = option_map (fun p => if p.(id) =? target then patch m p else p) (nth_error photos i).
Proof. unfold mergeById. apply nth_error_map. Qed.

(** C8. Two merges keyed by different ids commute; a merge replaces the
    entries whose id matches and leaves every other entry as it is, in
    its place. *)
Theorem merges_of_different_ids_commute
  (photos : list Photo) (id1 id2 : string) (m1 m2 : Merge) :
  id1 <> id2 ->
  mergeById id1 m1 (mergeById id2 m2 photos) = mergeById id2 m2 (mergeById id1 m1 photos)
  /\ (forall i p, nth_error photos i = Some p ->
        nth_error (mergeById id1 m1 photos) i
        = Some (if p.(id) =? id1 then patch m1 p else p))
  /\ (forall i p, nth_error photos i = Some p -> p.(id) <> id1 ->
        nth_error (mergeById id1 m1 photos) i = Some p).
Proof.
  intros Hdiff. split; [|split].
  - unfold mergeById. rewrite !map_map. apply map_ext. intros p.
    destruct (p.(id) =? id1) eqn:E1, (p.(id) =? id2) eqn:E2;
      rewrite ?patch_id, ?E1, ?E2; try reflexivity.
    apply String.eqb_eq in E1, E2. congruence.
  - intros i p Hp. now rewrite mergeById_nth_error, Hp.
  - intros i p Hp Hid. rewrite mergeById_nth_error, Hp. simpl.
    apply String.eqb_neq in Hid. now rewrite Hid.
Qed.

(** The theorem at work: a generation that ends and an edit of another
    entry, in both orders. *)
Lemma merges_of_different_ids_commute_witness :
  Sample.hills.(id) <> "1700000000000-0.5"
  /\ mergeById "1700000000000-0.5" (GenerationSucceeded "https://blob.example/generated.png")
       (mergeById Sample.hills.(id) (Edited (editMessage "Hills in winter"))
          [Sample.beach Status.pending None None; Sample.hills])
     = mergeById Sample.hills.(id) (Edited (editMessage "Hills in winter"))
         (mergeById "1700000000000-0.5" (GenerationSucceeded "https://blob.example/generated.png")
            [Sample.beach Status.pending None None; Sample.hills]).
Proof.
  split; [discriminate|].
  apply (merges_of_different_ids_commute
           [Sample.beach Status.pending None None; Sample.hills]
           (id1 := "1700000000000-0.5") (id2 := Sample.hills.(id))
           (GenerationSucceeded "https://blob.example/generated.png")
           (Edited (editMessage "Hills in winter"))).
  discriminate.
Defined.

(* ================================================================== *)
(** ** The guard of [handleGenerateImage] *)

(** C10. When no entry has the id, or the entry found has an empty
    [imageUrl], [handleGenerateImage] returns at once: it calls
    [setPhotos] not at all, and does nothing else either. *)
Theorem generate_without_precondition_does_nothing
  (w : World) (photos : list Photo) (X : string) :
  hasId X photos = false
  \/ (exists photo, find (fun p => p.(id) =? X) photos = Some photo
                    /\ photo.(imageUrl) = "") ->
  handleGenerateImage w photos X = []
  /\ touchesPhotos (handleGenerateImage w photos X) = false
  /\ replay (handleGenerateImage w photos X) photos = photos.
Proof.
  intros H.
  assert (Hnil : handleGenerateImage w photos X = []).
  { unfold handleGenerateImage. destruct H as [Habsent | (photo & Hfind & Hurl)].
    - now rewrite (find_absent _ _ Habsent).
    - rewrite Hfind, Hurl. reflexivity. }
  rewrite Hnil. repeat split.
Qed.

(** The theorem at work: an entry still uploading, and an id that no
    entry has. *)
Lemma generate_without_precondition_witness :
  handleGenerateImage (Sample.world Sample.obliging) [Sample.arriving] Sample.arriving.(id) = []
  /\ handleGenerateImage (Sample.world Sample.obliging) [Sample.hills] "no-such-id" = [].
Proof.
  split.
  - apply (generate_without_precondition_does_nothing
             (Sample.world Sample.obliging) [Sample.arriving] Sample.arriving.(id)).
    right. exists Sample.arriving. split; reflexivity.
  - apply (generate_without_precondition_does_nothing
             (Sample.world Sample.obliging) [Sample.hills] "no-such-id").
    left. reflexivity.
Defined.

(* ================================================================== *)
(** ** The retry policy of [callGeminiWithRetry] *)

Lemma bind_lift_inr {A B} (a : A) (k : A -> Async B) : bind (lift (inr a)) k = k a.
Proof. unfold bind, lift. destruct (k a). reflexivity. Qed.

(** The loop stopped at attempt [k]: the first [k - 1] attempts are known
    to have failed with an internal error. *)
Ltac stopped_at k :=
  split; [|split];
  [ exists k; split; [lia|]; split; [repeat match goal with H : _ = inl _ |- _ => rewrite H | H : _ = inr _ |- _ => rewrite H end; reflexivity|]; split;
    [ intros n Hn;
      let rec pick j :=
        first [ lia
              | assert (n = j \/ j < n) as [->|?] by lia; [eauto | pick (S j)] ] in
      pick 1
    | intros e He; first [congruence | left; congruence | right; reflexivity] ]
  | cbn; lia
  | intros;
    first [ congruence
          | match goal with H : inr _ = inr _ |- _ => injection H as <- end; reflexivity ] ].

(** C2. The model is called at most 3 times. The call stops at an attempt
    [k]: every attempt before [k] failed with an internal-error message
    and was followed by a wait of [1000 * 2^(n-1)] ms and the next attempt;
    attempt [k] either succeeded, or failed with another kind of error, or
    was the third, and its outcome is the outcome of the call. So two
    internal errors followed by a success return that success. *)
Theorem callGeminiWithRetry_policy (w : World) (client : Client) (request : ModelRequest) :
  w.(getGeminiClient) = inr client ->
  (exists k, 1 <= k <= 3
     /\ callGeminiWithRetry w request = (attemptsLog k, client request k)
     /\ (forall n, 1 <= n < k ->
           exists e, client request n = inl e /\ internal e = true)
     /\ (forall e, client request k = inl e -> internal e = false \/ k = 3))
  /\ modelCalls (fst (callGeminiWithRetry w request)) <= 3
  /\ (forall e1 e2 response,
        client request 1 = inl e1 -> internal e1 = true ->
        client request 2 = inl e2 -> internal e2 = true ->
        client request 3 = inr response ->
        callGeminiWithRetry w request
        = ([ModelCalled 1; Slept 1000%Z; ModelCalled 2; Slept 2000%Z; ModelCalled 3],
           inr response)).
Proof.
  intros Hclient. unfold callGeminiWithRetry. rewrite Hclient, bind_lift_inr.
  unfold internal.
  change (seq 1 maxRetries) with [1; 2; 3].
  cbn [retryLoop].
  change (1 <? maxRetries)%nat with true.
  change (2 <? maxRetries)%nat with true.
  change (3 <? maxRetries)%nat with false.
  destruct (client request 1) as [e1|r1] eqn:E1; [|stopped_at 1].
  rewrite andb_true_r.
  destruct (isInternalError (messageOr stringifyThrown e1)) eqn:I1; [|stopped_at 1].
  destruct (client request 2) as [e2|r2] eqn:E2; [|stopped_at 2].
  rewrite andb_true_r.
  destruct (isInternalError (messageOr stringifyThrown e2)) eqn:I2; [|stopped_at 2].
  destruct (client request 3) as [e3|r3] eqn:E3; [|stopped_at 3].
  rewrite andb_false_r.
  stopped_at 3.
Qed.

(** The theorem at work: two internal errors, then an image. *)
Lemma callGeminiWithRetry_policy_witness :
  callGeminiWithRetry (Sample.world Sample.flaky) Sample.request
  = ([ModelCalled 1; Slept 1000%Z; ModelCalled 2; Slept 2000%Z; ModelCalled 3],
     inr Sample.imageAnswer).
Proof.
  apply (callGeminiWithRetry_policy (Sample.world Sample.flaky) Sample.request
           (client := Sample.flaky) eq_refl)
    with (e1 := Sample.internalError) (e2 := Sample.internalError); reflexivity.
Defined.

(* ================================================================== *)
(** ** A response without an image *)

Lemma find_none_of_existsb {A} (f : A -> bool) (l : list A) :
  existsb f l = false -> find f l = None.
Proof.
  induction l as [|a l IH]; simpl; [reflexivity|].
  intros H. apply orb_false_iff in H as [Ha Hl]. rewrite Ha. auto.
Qed.

Lemma processGeminiResponse_text_only (response : GenerateContentResponse) (t : string) :
  hasImagePart response = false ->
  response.(responseText) = Some t -> t <> "" ->
  processGeminiResponse response = inl (ErrorObject (textOnlyMessage t)).
Proof.
  unfold hasImagePart, processGeminiResponse, textOnlyMessage.
  intros Hparts Htext Ht.
  assert (Htruthy : truthy t = true).
  { unfold truthy. apply negb_true_iff. now apply String.eqb_neq. }
  rewrite Htext, Htruthy.
  destruct (parts response) as [ps|]; [|reflexivity].
  now rewrite (find_none_of_existsb _ _ Hparts).
Qed.

Lemma prefix_append (t rest : string) : String.prefix t (t ++ rest) = true.
Proof.
  induction t as [|c t IH]; simpl.
  - now destruct rest.
  - destruct (ascii_dec c c); [exact IH | congruence].
Qed.

Lemma includes_unfold (s sub : string) :
  includes s sub
  = if String.prefix sub s then true
    else match s with
         | EmptyString => false
         | String _ rest => includes rest sub
         end.
Proof. destruct s; reflexivity. Qed.

Lemma includes_append (pre t post : string) : includes (pre ++ t ++ post) t = true.
Proof.
  induction pre as [|c pre IH].
  - cbn [append]. now rewrite includes_unfold, prefix_append.
  - cbn [append]. rewrite includes_unfold.
    destruct (String.prefix t (String c (pre ++ t ++ post))); [reflexivity | exact IH].
Qed.

Lemma replay_silent (log : list Event) (photos : list Photo) :
  silent log -> replay log photos = photos.
Proof.
  intros H. induction H as [|ev rest Hev _ IH]; simpl; [reflexivity|].
  destruct ev; try exact IH. contradiction.
Qed.

Lemma imageUrlToDataUrl_ok (w : World) (imageUrl dataUrl : string) (r : ImageResponse) :
  w.(fetchImage) imageUrl = inr r -> r.(imageOk) = true -> r.(readAsDataURL) = inr dataUrl ->
  imageUrlToDataUrl w imageUrl = ([Fetched imageUrl], inr dataUrl).
Proof.
  intros Hfetch Hok Hread. unfold imageUrlToDataUrl.
  rewrite Hfetch. unfold bind, emit, lift. rewrite Hok. cbn [negb]. now rewrite Hread.
Qed.

Lemma generateTimelineImage_text_only
  (w : World) (imageUrl message dataUrl mime base64Data t : string)
  (r : ImageResponse) (modelLog : list Event) (response : GenerateContentResponse) :
  w.(fetchImage) imageUrl = inr r -> r.(imageOk) = true -> r.(readAsDataURL) = inr dataUrl ->
  matchDataUrl dataUrl = Some (mime, base64Data) ->
  callGeminiWithRetry w (mkRequest mime base64Data (prompt message)) = (modelLog, inr response) ->
  hasImagePart response = false ->
  response.(responseText) = Some t -> t <> "" ->
  generateTimelineImage w imageUrl message
  = (Fetched imageUrl :: modelLog, inl (ErrorObject (failureDetail t))).
Proof.
  intros Hfetch Hok Hread Hmatch Hcall Himg Htext Ht.
  unfold generateTimelineImage.
  rewrite (imageUrlToDataUrl_ok _ _ Hfetch Hok Hread).
  unfold bind at 1. rewrite Hmatch, Hcall.
  unfold bind, catch, lift, throw.
  rewrite (processGeminiResponse_text_only _ Himg Htext Ht).
  cbn [messageOr app].
  now rewrite !app_nil_r.
Qed.

(** C7. When the model's response has no image part and carries text [t],
    generation fails at once: after the call that returned the response
    nothing is called again, and the entry is merged to [error] with a
    detail that contains [t]. When the first call returned it, the model
    was called once and nothing waited. *)
Theorem text_only_response_is_a_hard_failure
  (w : World) (photos : list Photo) (X : string) (photo : Photo)
  (imageResponse : ImageResponse) (dataUrl mime base64Data t : string)
  (modelLog : list Event) (response : GenerateContentResponse) :
  find (fun p => p.(id) =? X) photos = Some photo ->
  photo.(imageUrl) <> "" ->
  w.(fetchImage) photo.(imageUrl) = inr imageResponse ->
  imageResponse.(imageOk) = true ->
  imageResponse.(readAsDataURL) = inr dataUrl ->
  matchDataUrl dataUrl = Some (mime, base64Data) ->
  callGeminiWithRetry w (mkRequest mime base64Data (prompt photo.(message)))
  = (modelLog, inr response) ->
  hasImagePart response = false ->
  response.(responseText) = Some t ->
  t <> "" ->
  let log := handleGenerateImage w photos X in
  log = (SetPhotos (MergeById X GenerationStarted) :: Fetched photo.(imageUrl) :: modelLog
         ++ [SetPhotos (MergeById X (GenerationFailed (failureDetail t)))])%list
  /\ modelCalls log = modelCalls modelLog
  /\ includes (failureDetail t) t = true
  /\ (forall current,
        Forall (fun p => p.(id) = X ->
                         p.(status) = Status.error /\ p.(error) = Some (failureDetail t))
               (replay log current))
  /\ (forall client,
        w.(getGeminiClient) = inr client ->
        client (mkRequest mime base64Data (prompt photo.(message))) 1 = inr response ->
        modelLog = [ModelCalled 1] /\ modelCalls log = 1 /\ sleeps log = []).
Proof.
  intros Hfind Hurl Hfetch Hok Hread Hmatch Hcall Himg Htext Ht. cbn zeta.
  assert (Hlog :
    handleGenerateImage w photos X
    = (SetPhotos (MergeById X GenerationStarted) :: Fetched photo.(imageUrl) :: modelLog
       ++ [SetPhotos (MergeById X (GenerationFailed (failureDetail t)))])%list).
  { unfold handleGenerateImage. rewrite Hfind.
    assert (Htruthy : truthy photo.(imageUrl) = true).
    { unfold truthy. apply negb_true_iff. now apply String.eqb_neq. }
    rewrite Htruthy. cbn [negb].
    erewrite generateTimelineImage_text_only by eassumption.
    reflexivity. }
  rewrite Hlog.
  assert (Hsilent : silent modelLog).
  { pose proof (silent_callGeminiWithRetry w
                  (mkRequest mime base64Data (prompt photo.(message)))) as Hs.
    now rewrite Hcall in Hs. }
  split; [reflexivity|]. split.
  { unfold modelCalls. cbn [filter]. rewrite filter_app. cbn [filter].
    now rewrite app_nil_r. }
  split.
  { change (failureDetail t)
      with (("The AI model failed to generate an image. Details: "
             ++ "The AI model responded with text instead of an image: " ++ dquote)
            ++ t ++ dquote).
    apply includes_append. }
  split.
  { intros current. cbn [replay applyUpdate].
    rewrite replay_app, (replay_silent _ Hsilent). cbn [replay applyUpdate].
    unfold mergeById. rewrite map_map. apply Forall_forall.
    intros q Hq. apply in_map_iff in Hq as (p & <- & _).
    destruct (p.(id) =? X) eqn:E.
    - cbn [patch id]. rewrite E. cbn [patch]. intros _. now split.
    - rewrite E. intros Hid. apply String.eqb_neq in E. contradiction. }
  intros client Hclient Hfirst.
  assert (HmodelLog : modelLog = [ModelCalled 1]).
  { unfold callGeminiWithRetry in Hcall. rewrite Hclient in Hcall.
    change (seq 1 maxRetries) with [1; 2; 3] in Hcall.
    unfold bind at 1 in Hcall. unfold lift in Hcall. cbn [retryLoop] in Hcall.
    rewrite Hfirst in Hcall. unfold bind, emit, ret in Hcall. cbn [app] in Hcall.
    congruence. }
  subst modelLog. repeat split.
Qed.

(** The theorem at work: the model answers the first call with words. *)
Lemma text_only_response_witness :
  handleGenerateImage (Sample.world Sample.wordy) [Sample.beach Status.idle None None]
                      "1700000000000-0.5"
  = [SetPhotos (MergeById "1700000000000-0.5" GenerationStarted);
     Fetched "https://blob.example/beach.jpg";
     ModelCalled 1;
     SetPhotos (MergeById "1700000000000-0.5"
                  (GenerationFailed (failureDetail "I cannot help with that.")))]
  /\ map (fun p => (p.(status), p.(error)))
         (replay (handleGenerateImage (Sample.world Sample.wordy)
                    [Sample.beach Status.idle None None] "1700000000000-0.5")
                 [Sample.beach Status.idle None None])
     = [(Status.error, Some (failureDetail "I cannot help with that."))].
Proof.
  pose proof (@text_only_response_is_a_hard_failure
                (Sample.world Sample.wordy) [Sample.beach Status.idle None None]
                "1700000000000-0.5" (Sample.beach Status.idle None None)
                (mkImageResponse true "OK" (inr "data:image/jpeg;base64,AAAA"))
                "data:image/jpeg;base64,AAAA" "image/jpeg" "AAAA"
                "I cannot help with that." [ModelCalled 1] Sample.textAnswer
                eq_refl) as H.
  destruct H as (Hlog & _); try reflexivity; try discriminate.
  split.
  - exact Hlog.
  - rewrite Hlog. reflexivity.
Defined.

(* ================================================================== *)
(** ** The message and the Generate button *)

(** C9 (amended). For an entry whose message is empty the Generate Image
    button of its card is disabled: a click on it does not reach
    [handleGenerateImage], so nothing is generated and no entry becomes
    pending. The check is the button's; [handleGenerateImage] has none. *)
Theorem empty_message_disables_generate_button
  (w : World) (photos : list Photo) (p : Photo) :
  p.(message) = "" ->
  disabled p GenerateImage = true
  /\ click w photos p GenerateImage = []
  /\ replay (click w photos p GenerateImage) photos = photos.
Proof.
  intros Hmessage.
  assert (Hdisabled : disabled p GenerateImage = true).
  { unfold disabled. rewrite Hmessage. apply orb_true_r. }
  assert (Hclick : click w photos p GenerateImage = []).
  { unfold click. rewrite Hdisabled. now rewrite andb_false_r. }
  rewrite Hclick. repeat split. exact Hdisabled.
Qed.

(** The theorem at work: an idle entry with a date and no message. *)
Lemma empty_message_disables_generate_button_witness :
  disabled Sample.hills GenerateImage = true
  /\ click (Sample.world Sample.obliging) [Sample.hills] Sample.hills GenerateImage = []
  /\ replay (click (Sample.world Sample.obliging) [Sample.hills] Sample.hills GenerateImage)
            [Sample.hills]
     = [Sample.hills].
Proof.
  apply (empty_message_disables_generate_button
           (Sample.world Sample.obliging) [Sample.hills] Sample.hills).
  reflexivity.
Defined.

(** C9, as stated, fails: called on the id of an entry whose message is
    empty, [handleGenerateImage] marks it pending and runs the whole
    generation. The Try Again button of an entry in error reaches it
    without any check of the message. *)
Lemma generate_ignores_empty_message :
  Sample.hills.(message) = ""
  /\ handleGenerateImage (Sample.world Sample.obliging) [Sample.hills] Sample.hills.(id)
     = [SetPhotos (MergeById Sample.hills.(id) GenerationStarted);
        Fetched "https://blob.example/hills.jpg";
        ModelCalled 1;
        Uploaded "data:image/png;base64,QUJD";
        SetPhotos (MergeById Sample.hills.(id)
                     (GenerationSucceeded "https://blob.example/generated.png"))]
  /\ map status (applyUpdate (MergeById Sample.hills.(id) GenerationStarted) [Sample.hills])
     = [Status.pending]
  /\ (let failed := patch (GenerationFailed "Upload failed.") Sample.hills in
      click (Sample.world Sample.obliging) [failed] failed TryAgain
      = handleGenerateImage (Sample.world Sample.obliging) [failed] Sample.hills.(id)).
Proof. repeat split. Qed.

(* ================================================================== *)
(** ** Done entries and their generated image *)

Lemma doneHasGenerated_spec (p : Photo) :
  doneHasGenerated p = true
  <-> (p.(status) = Status.done -> exists u, p.(generatedUrl) = Some u).
Proof.
  unfold doneHasGenerated.
  destruct (status p), (generatedUrl p) as [u|]; split; intros H;
    try reflexivity; try discriminate; try (intros _; now exists u);
    try (intros E; discriminate E).
  destruct (H eq_refl) as [u Hu]. discriminate.
Qed.

Lemma doneHasGenerated_patch (m : Merge) (p : Photo) :
  doneHasGenerated p = true -> doneHasGenerated (patch m p) = true.
Proof. destruct m, p as [? ? ? ? [] [] ? ?]; intros H; try reflexivity; exact H. Qed.

Lemma doneHasGenerated_perform (op : Operation) (photos : list Photo) :
  forallb doneHasGenerated photos = true ->
  forallb doneHasGenerated (perform op photos) = true.
Proof.
  intros H. destruct op as [tempId dataUrl | target m | target]; cbn.
  - rewrite forallb_app, H. reflexivity.
  - unfold mergeById. rewrite forallb_forall in *. intros q Hq.
    apply in_map_iff in Hq as (p & <- & Hp).
    destruct (p.(id) =? target); [apply doneHasGenerated_patch|]; now apply H.
  - rewrite forallb_forall in *. intros q Hq.
    apply filter_In in Hq as [Hq _]. now apply H.
Qed.

Lemma doneHasGenerated_run (ops : list Operation) (photos : list Photo) :
  forallb doneHasGenerated photos = true ->
  forallb doneHasGenerated (run ops photos) = true.
Proof.
  unfold run. revert photos. induction ops as [|op rest IH]; simpl; intros photos H.
  - exact H.
  - apply IH. now apply doneHasGenerated_perform.
Qed.

Lemma doneHasGenerated_replay (target : string) (log : list Event) (photos : list Photo) :
  mergesOnly target log ->
  forallb doneHasGenerated photos = true ->
  forallb doneHasGenerated (replay log photos) = true.
Proof.
  intros Hlog. revert photos.
  induction Hlog as [|ev rest Hev _ IH]; cbn [replay]; intros photos H.
  - exact H.
  - destruct ev as [| | | |[ | |t m]]; try (now apply IH); try contradiction.
    apply IH. exact (doneHasGenerated_perform (Complete t m) photos H).
Qed.

(** C1 (amended). The merge of a successful generation makes the entry
    [done] and sets its [generatedUrl], leaving [error] as it was; every
    operation of the state machine, and every [setPhotos] of a generation
    or of an upload, keeps each [done] entry with a [generatedUrl]; so in
    every list built from the empty one an entry that is [done] has its
    [generatedUrl] set. *)
Theorem done_entries_have_generated_image :
  (forall target generatedCloudUrl photos,
     Forall (fun p => p.(id) = target ->
                      p.(status) = Status.done /\ p.(generatedUrl) = Some generatedCloudUrl)
            (mergeById target (GenerationSucceeded generatedCloudUrl) photos))
  /\ (forall generatedCloudUrl p,
        (patch (GenerationSucceeded generatedCloudUrl) p).(error) = p.(error))
  /\ (forall op photos,
        forallb doneHasGenerated photos = true ->
        forallb doneHasGenerated (perform op photos) = true)
  /\ (forall w startedOn target tempId dataUrl photos,
        forallb doneHasGenerated photos = true ->
        forallb doneHasGenerated (replay (handleGenerateImage w startedOn target) photos) = true
        /\ forallb doneHasGenerated (replay (uploadCompletion w tempId dataUrl) photos) = true)
  /\ (forall ops,
        Forall (fun p => p.(status) = Status.done -> exists u, p.(generatedUrl) = Some u)
               (run ops [])).
Proof.
  split; [|split; [|split; [|split]]].
  - intros target u photos. unfold mergeById. apply Forall_forall.
    intros q Hq. apply in_map_iff in Hq as (p & <- & _).
    destruct (p.(id) =? target) eqn:E.
    + intros _. now split.
    + intros Hid. apply String.eqb_neq in E. contradiction.
  - reflexivity.
  - exact doneHasGenerated_perform.
  - intros w startedOn target tempId dataUrl photos H. split.
    + apply doneHasGenerated_replay with (target := target);
        [apply handleGenerateImage_mergesOnly | exact H].
    + apply doneHasGenerated_replay with (target := tempId);
        [apply uploadCompletion_mergesOnly | exact H].
  - intros ops. apply Forall_forall. intros p Hp.
    apply doneHasGenerated_spec.
    pose proof (doneHasGenerated_run ops [] eq_refl) as H.
    rewrite forallb_forall in H. now apply H.
Qed.

(** C1, as stated, fails in both directions. A generation that fails and
    is retried with success ends [done] with [error] still set. And
    [handleGenerateImage] called on a [done] entry makes it [pending]
    while [generatedUrl] is set and [error] is not. *)
Lemma done_with_stale_error :
  idleBeach = [Sample.beach Status.idle None None]
  /\ afterRetry
     = [Sample.beach Status.done (Some "https://blob.example/generated.png")
          (Some "The AI model failed to generate an image. Details: 400 Bad Request: unsupported image")]
  /\ forallb doneIffGeneratedNoError afterRetry = false
  /\ (let finished := [Sample.beach Status.done (Some "https://blob.example/generated.png") None] in
      hd_error (handleGenerateImage (Sample.world Sample.obliging) finished "1700000000000-0.5")
      = Some (SetPhotos (MergeById "1700000000000-0.5" GenerationStarted))
      /\ applyUpdate (MergeById "1700000000000-0.5" GenerationStarted) finished
         = [Sample.beach Status.pending (Some "https://blob.example/generated.png") None]
      /\ forallb doneIffGeneratedNoError
           (applyUpdate (MergeById "1700000000000-0.5" GenerationStarted) finished) = false).
Proof. repeat split. Qed.

(* ================================================================== *)
(** ** Importing a file *)

Lemma photosToLoad_shape (parsedJson : value) (items : list value) :
  photosToLoad parsedJson = inr items <-> timelineShape parsedJson items.
Proof.
  unfold photosToLoad, timelineShape. destruct parsedJson as [| b | n | s | l | fields]; cbn.
  - split; [discriminate | intros [H | (f & H & _)]; discriminate].
  - split; [discriminate | intros [H | (f & H & _)]; discriminate].
  - split; [discriminate | intros [H | (f & H & _)]; discriminate].
  - split; [discriminate | intros [H | (f & H & _)]; discriminate].
  - split.
    + intros H. left. congruence.
    + intros [H | (f & H & _)]; [congruence | discriminate].
  - split.
    + intros H. right. exists fields. split; [reflexivity|].
      destruct (lookup "photos" fields) as [[| | | | l |]|]; try discriminate. congruence.
    + intros [H | (f & H & Hl)]; [discriminate|].
      injection H as <-. now rewrite Hl.
Qed.

Lemma hasIdAndUrl_valid (p : value) : hasIdAndUrl p = inr true <-> validEntry p.
Proof.
  unfold hasIdAndUrl, validEntry.
  destruct p as [| b | n | s | l | fields]; cbn;
    try (split; [discriminate | intros (f & H & _); discriminate]).
  split.
  - intros H. exists fields. split; [reflexivity|].
    destruct (toBoolean (lookup "id" fields)); [|discriminate]. split; [reflexivity|].
    destruct (toBoolean (lookup "imageUrl" fields)); [now left|].
    right. congruence.
  - intros (f & Hf & Hid & Hurl). injection Hf as <-. rewrite Hid.
    destruct (toBoolean (lookup "imageUrl" fields)); [reflexivity|].
    destruct Hurl as [H|H]; [discriminate | now rewrite H].
Qed.

Lemma every_valid (items : list value) :
  every hasIdAndUrl items = inr true <-> Forall validEntry items.
Proof.
  induction items as [|p rest IH]; cbn [every].
  - split; [constructor | reflexivity].
  - split.
    + intros H. destruct (hasIdAndUrl p) as [e|[|]] eqn:E; cbn in H; try discriminate.
      constructor; [now apply hasIdAndUrl_valid | now apply IH].
    + intros H. inversion H as [|? ? Hp Hrest]; subst.
      apply hasIdAndUrl_valid in Hp. rewrite Hp. cbn. now apply IH.
Qed.

Lemma migrate_valid (p : value) :
  validEntry p -> exists q, migrate p = inr q /\ migrates p q.
Proof.
  intros (fields & -> & _ & Hurl). unfold migrate, migrates, Json.or.
  cbn [getProp andThen ownProperties].
  destruct (toBoolean (lookup "imageUrl" fields)) eqn:Himg.
  - cbn [andThen]. rewrite Himg.
    destruct (lookup "imageUrl" fields) as [v|] eqn:Hl; [|discriminate].
    eexists. split; [reflexivity|]. exists fields, v. now rewrite Hl, Himg.
  - destruct Hurl as [H|Hdata]; [discriminate|].
    cbn [andThen]. rewrite Hdata.
    destruct (lookup "dataUrl" fields) as [v|] eqn:Hl; [|discriminate].
    eexists. split; [reflexivity|]. exists fields, v. now rewrite Himg.
Qed.

Lemma mapThrowing_migrate (items : list value) :
  Forall validEntry items ->
  exists migrated, mapThrowing migrate items = inr migrated /\ Forall2 migrates items migrated.
Proof.
  induction 1 as [|p rest Hp _ (migrated & Hm & IH)]; cbn [mapThrowing].
  - exists []. split; [reflexivity | constructor].
  - destruct (migrate_valid Hp) as (q & Hq & Hpq).
    exists (q :: migrated). rewrite Hq, Hm. split; [reflexivity | now constructor].
Qed.

Lemma lookup_setProp_same (key : string) (v : value) (fields : list (string * value)) :
  lookup key (setProp key v fields) = Some v.
Proof.
  induction fields as [|[k x] rest IH]; cbn.
  - now rewrite String.eqb_refl.
  - destruct (k =? key) eqn:E; cbn; now rewrite E.
Qed.

Lemma lookup_setProp_other (key other : string) (v : value) (fields : list (string * value)) :
  other <> key -> lookup other (setProp key v fields) = lookup other fields.
Proof.
  intros Hneq. induction fields as [|[k x] rest IH]; cbn.
  - apply String.eqb_neq in Hneq. now rewrite String.eqb_sym, Hneq.
  - destruct (k =? key) eqn:E; cbn.
    + apply String.eqb_eq in E. subst k.
      apply String.eqb_neq in Hneq. now rewrite String.eqb_sym, Hneq.
    + now rewrite IH.
Qed.

(** When the first JSON file of a batch does not load, the JSON branch
    only alerts. *)
Lemma loadJsonFile_rejected (parseJson : string -> Thrown + value) (file : File) (e : Thrown) :
  readTimeline (parseJson file.(content)) = inl e ->
  loadJsonFile parseJson file
  = ([Alerted ("Could not load the timeline from " ++ file.(name)
               ++ ". The file might be corrupted or in the wrong format.")], false).
Proof. unfold loadJsonFile. now intros ->. Qed.

(** C5. A file is accepted exactly when what it parses to is an array, or
    an object whose [photos] is an array, and every element of that array
    carries an id and an [imageUrl] or a [dataUrl]; what is loaded is each
    element with [imageUrl] set to its [imageUrl], or else to its
    [dataUrl], its other properties kept (so the legacy file loads with
    its [dataUrl] as [imageUrl]); and a file with an element that fails
    the check changes nothing: the JSON branch does not call [setPhotos]. *)
Theorem import_is_all_or_nothing
  (parseJson : string -> Thrown + value) (file : File) (parsedJson : value) :
  parseJson file.(content) = inr parsedJson ->
  (forall items, photosToLoad parsedJson = inr items <-> timelineShape parsedJson items)
  /\ ((exists migrated, readTimeline (inr parsedJson) = inr migrated)
      <-> (exists items, timelineShape parsedJson items /\ Forall validEntry items))
  /\ (forall migrated,
        readTimeline (inr parsedJson) = inr migrated ->
        (exists items, timelineShape parsedJson items /\ Forall2 migrates items migrated)
        /\ loadJsonFile parseJson file
           = ([TimelineLoaded migrated;
               Alerted ("Successfully loaded timeline from " ++ file.(name))], true))
  /\ (forall items,
        timelineShape parsedJson items -> Exists (fun p => ~ validEntry p) items ->
        existsb changesPhotos (fst (loadJsonFile parseJson file)) = false
        /\ snd (loadJsonFile parseJson file) = false)
  /\ (forall p q,
        migrates p q ->
        exists v, getProp q "imageUrl" = inr (Some v)
                  /\ (forall other, other <> "imageUrl" -> getProp q other = getProp p other))
  /\ readTimeline (inr SampleFiles.legacyJson)
     = inr [JObject [("id", JString "a");
                     ("dataUrl", JString "http://x/y.png");
                     ("imageUrl", JString "http://x/y.png")]].
Proof.
  intros Hparse.
  assert (Haccept : forall migrated,
             readTimeline (inr parsedJson) = inr migrated ->
             exists items, timelineShape parsedJson items /\ Forall validEntry items
                           /\ Forall2 migrates items migrated).
  { intros migrated H. unfold readTimeline in H. cbn [andThen] in H.
    destruct (photosToLoad parsedJson) as [e|items] eqn:Hitems; [discriminate|].
    cbn [andThen] in H.
    destruct (every hasIdAndUrl items) as [e|[|]] eqn:Hevery; cbn [andThen] in H;
      try discriminate.
    apply every_valid in Hevery.
    destruct (mapThrowing_migrate Hevery) as (migrated' & Hm & Hall).
    exists items. split; [now apply photosToLoad_shape|]. split; [exact Hevery|].
    congruence. }
  assert (Hreject : forall items,
             timelineShape parsedJson items -> Exists (fun p => ~ validEntry p) items ->
             exists e, readTimeline (inr parsedJson) = inl e).
  { intros items Hshape Hbad.
    destruct (readTimeline (inr parsedJson)) as [e|migrated] eqn:Hread; [now exists e|].
    destruct (Haccept migrated eq_refl) as (items' & Hshape' & Hvalid & _).
    apply photosToLoad_shape in Hshape, Hshape'.
    assert (items' = items) by congruence. subst items'.
    apply Exists_exists in Hbad as (p & Hin & Hp).
    rewrite Forall_forall in Hvalid. now elim Hp; apply Hvalid. }
  split; [intros items; apply photosToLoad_shape|].
  split; [split|split; [|split; [|split]]].
  - intros (migrated & H). destruct (Haccept migrated H) as (items & Hs & Hv & _). eauto.
  - intros (items & Hshape & Hvalid).
    apply photosToLoad_shape in Hshape. apply every_valid in Hvalid as Hevery.
    destruct (mapThrowing_migrate Hvalid) as (migrated & Hm & _).
    exists migrated. unfold readTimeline. cbn [andThen].
    rewrite Hshape. cbn [andThen]. rewrite Hevery. cbn [andThen]. exact Hm.
  - intros migrated H. split.
    + destruct (Haccept migrated H) as (items & Hs & _ & Hm). eauto.
    + unfold loadJsonFile. now rewrite Hparse, H.
  - intros items Hshape Hbad.
    destruct (Hreject items Hshape Hbad) as (e & He).
    rewrite <- Hparse in He. now rewrite (loadJsonFile_rejected _ _ He).
  - intros p q (fields & v & -> & -> & _). exists v. cbn [getProp]. split.
    + now rewrite lookup_setProp_same.
    + intros other Hother. now rewrite lookup_setProp_other.
  - reflexivity.
Qed.

(** The theorem at work: the legacy file loads with its [dataUrl] as
    [imageUrl]; a file whose second element has no id loads nothing. *)
Lemma import_is_all_or_nothing_witness :
  loadJsonFile SampleFiles.parse SampleFiles.legacy
  = ([TimelineLoaded [JObject [("id", JString "a");
                               ("dataUrl", JString "http://x/y.png");
                               ("imageUrl", JString "http://x/y.png")]];
      Alerted "Successfully loaded timeline from legacy.json"], true)
  /\ existsb changesPhotos (fst (loadJsonFile SampleFiles.parse SampleFiles.partial)) = false.
Proof.
  split.
  - apply (import_is_all_or_nothing SampleFiles.parse SampleFiles.legacy
             (parsedJson := SampleFiles.legacyJson) eq_refl).
    reflexivity.
  - apply (import_is_all_or_nothing SampleFiles.parse SampleFiles.partial
             (parsedJson := SampleFiles.partialJson) eq_refl)
      with (items := [JObject [("id", JString "a"); ("imageUrl", JString "http://x/a.png")];
                      JObject [("imageUrl", JString "http://x/b.png")]]).
    + left. reflexivity.
    + apply Exists_cons_tl. apply Exists_cons_hd.
      intros (fields & Hfields & Hid & _). injection Hfields as <-. discriminate.
Defined.

Lemma processImages_loads_nothing
  (resizeImage : File -> nat -> Thrown + string) (tempIdOf : nat -> string)
  (i : nat) (imageFiles : list File) :
  loadsTimeline (processImages resizeImage tempIdOf i imageFiles) = false.
Proof.
  unfold loadsTimeline. revert i. induction imageFiles as [|file rest IH]; intros i; cbn.
  - reflexivity.
  - rewrite existsb_app, IH. destruct (resizeImage file 1024); reflexivity.
Qed.

(** C6 (amended). When the first JSON file of a batch parses and passes
    the checks, its timeline is loaded and no image file of the batch is
    processed; the other JSON files are not read. Image files are
    processed when the batch has no JSON file or its first JSON file does
    not load, and only then. *)
Theorem first_json_file_wins
  (parseJson : string -> Thrown + value)
  (resizeImage : File -> nat -> Thrown + string) (tempIdOf : nat -> string)
  (files : list File) :
  let jsonFiles := filter (fun file => file.(type) =? "application/json") files in
  let imageFiles := filter (fun file => startsWith file.(type) "image/") files in
  let log := handleFileSelect parseJson resizeImage tempIdOf (Some files) in
  (forall first others migrated,
     jsonFiles = first :: others ->
     readTimeline (parseJson first.(content)) = inr migrated ->
     log = [TimelineLoaded migrated;
            Alerted ("Successfully loaded timeline from " ++ first.(name))]
     /\ existsb processesImage log = false)
  /\ (forall first others e,
        jsonFiles = first :: others ->
        readTimeline (parseJson first.(content)) = inl e ->
        log = Alerted ("Could not load the timeline from " ++ first.(name)
                       ++ ". The file might be corrupted or in the wrong format.")
              :: processImages resizeImage tempIdOf 0 imageFiles)
  /\ (jsonFiles = [] -> log = processImages resizeImage tempIdOf 0 imageFiles)
  /\ existsb processesImage log && loadsTimeline log = false.
Proof.
  cbn zeta. unfold handleFileSelect.
  set (jsonFiles := filter (fun file => file.(type) =? "application/json") files).
  set (imageFiles := filter (fun file => startsWith file.(type) "image/") files).
  assert (Himages :
            (if negb false && (0 <? length imageFiles)%nat
             then processImages resizeImage tempIdOf 0 imageFiles else [])
            = processImages resizeImage tempIdOf 0 imageFiles).
  { destruct imageFiles; reflexivity. }
  split; [|split; [|split]].
  - intros first others migrated Hjson Hread. rewrite Hjson.
    unfold loadJsonFile. rewrite Hread. cbn. split; reflexivity.
  - intros first others e Hjson Hread. rewrite Hjson.
    rewrite (loadJsonFile_rejected _ _ Hread). now rewrite Himages.
  - intros Hjson. rewrite Hjson. now rewrite Himages.
  - destruct jsonFiles as [|first others].
    + rewrite Himages. cbn [app].
      rewrite processImages_loads_nothing. apply andb_false_r.
    + unfold loadJsonFile.
      destruct (readTimeline (parseJson first.(content))) as [e|migrated].
      * rewrite Himages. cbn [app loadsTimeline existsb].
        fold (loadsTimeline (processImages resizeImage tempIdOf 0 imageFiles)).
        rewrite processImages_loads_nothing. cbn. apply andb_false_r.
      * reflexivity.
Qed.

(** C6, as stated, fails: a batch whose second JSON file is a valid
    timeline, behind a first one that is not, loads no timeline and
    processes its image. *)
Lemma second_json_file_is_not_read :
  isValidTimeline SampleFiles.parse SampleFiles.legacy = true
  /\ handleFileSelect SampleFiles.parse SampleFiles.resize SampleFiles.tempId
       (Some [SampleFiles.broken; SampleFiles.legacy; SampleFiles.holiday])
     = [Alerted "Could not load the timeline from broken.json. The file might be corrupted or in the wrong format.";
        PhotoAdded (newPhoto "1700000000000-0.0" "data:image/jpeg;base64,iVBORw0KGgo=");
        UploadStarted "1700000000000-0.0" "data:image/jpeg;base64,iVBORw0KGgo="]
  /\ handleFileSelect SampleFiles.parse SampleFiles.resize SampleFiles.tempId
       (Some [SampleFiles.holiday; SampleFiles.legacy])
     = [TimelineLoaded [JObject [("id", JString "a");
                                 ("dataUrl", JString "http://x/y.png");
                                 ("imageUrl", JString "http://x/y.png")]];
        Alerted "Successfully loaded timeline from legacy.json"].
Proof. repeat split. Qed.

(* ================================================================== *)
(** ** Sharing by link *)

Section ShareLink.

Context {platform : Platform}.

Lemma withoutLocalDataUrl_fixed (photos : list Photo) :
  map withoutLocalDataUrl photos = photos
  <-> Forall (fun p => p.(localDataUrl) = None) photos.
Proof.
  induction photos as [|p rest IH]; cbn.
  - split; [constructor | reflexivity].
  - split.
    + intros H. injection H as Hp Hrest. constructor; [|now apply IH].
      rewrite <- Hp. reflexivity.
    + intros H. inversion H as [|? ? Hp Hrest]; subst.
      apply IH in Hrest. rewrite Hrest. f_equal.
      destruct p. cbn in *. now subst.
Qed.

Lemma decodeShare_encodeShare (photos : list Photo) :
  decodeShare (encodeShare photos) = inr (map withoutLocalDataUrl photos).
Proof.
  unfold decodeShare, encodeShare.
  rewrite atob_btoa. cbn [andThen].
  rewrite list_byte_of_string_of_list_byte, inflate_deflate. cbn [andThen].
  apply parse_stringify.
Qed.

Lemma encodeShare_truthy (photos : list Photo) : truthy (encodeShare photos) = true.
Proof.
  unfold truthy, encodeShare. apply negb_true_iff, String.eqb_neq.
  apply btoa_not_empty. intros H.
  apply (f_equal list_byte_of_string) in H.
  rewrite list_byte_of_string_of_list_byte in H.
  now apply deflate_not_empty in H.
Qed.

(** C3 (amended). Decoding what was encoded gives the list back with the
    [localDataUrl] of every entry removed: the very list exactly when no
    entry has one. This holds for the empty list too, for which
    [handleShare] makes no link; for any other list the link it makes
    loads, on the page it opens, the list without its [localDataUrl]s. *)
Theorem share_link_roundtrip (w : World) (photos : list Photo) :
  decodeShare (encodeShare photos) = inr (map withoutLocalDataUrl photos)
  /\ (decodeShare (encodeShare photos) = inr photos
      <-> Forall (fun p => p.(localDataUrl) = None) photos)
  /\ decodeShare (encodeShare []) = inr []
  /\ handleShare [] = None
  /\ (forall p rest,
        photos = p :: rest ->
        exists search,
          handleShare photos = Some search
          /\ loadTimeline w search = Some (ReplaceWith (map withoutLocalDataUrl photos))).
Proof.
  split; [apply decodeShare_encodeShare|].
  split; [|split; [apply decodeShare_encodeShare|split; [reflexivity|]]].
  - rewrite decodeShare_encodeShare, <- withoutLocalDataUrl_fixed.
    split; [intros H; now injection H | now intros ->].
  - intros p rest ->. eexists. split; [reflexivity|].
    unfold loadTimeline. cbn [getParam].
    change ("data" =? "load_from_url") with false.
    change ("data" =? "data") with true.
    cbn [whenTruthy]. rewrite encodeShare_truthy.
    now rewrite decodeShare_encodeShare.
Qed.

End ShareLink.

(** C3, as stated, fails: the link of a list with an entry that holds a
    local preview decodes to a list whose entry holds none. *)
Lemma share_link_drops_local_preview :
  failedUpload.(localDataUrl) = Some "data:image/jpeg;base64,BBBB"
  /\ handleShare (platform := Reference.platform) [failedUpload]
     = Some [("data", encodeShare (platform := Reference.platform) [failedUpload])]
  /\ decodeShare (platform := Reference.platform)
       (encodeShare (platform := Reference.platform) [failedUpload])
     = inr [withoutLocalDataUrl failedUpload]
  /\ decodeShare (platform := Reference.platform)
       (encodeShare (platform := Reference.platform) [failedUpload])
     <> inr [failedUpload]
  /\ handleShare (platform := Reference.platform) [] = None.
Proof. repeat split. discriminate. Qed.

(* ================================================================== *)
(** ** Further properties of the state machine *)

Lemma retryLoop_third_attempt (w : World) (client : Client) (request : ModelRequest)
  (e1 e2 : Thrown) (response : GenerateContentResponse) :
  w.(getGeminiClient) = inr client ->
  client request 1 = inl e1 -> internal e1 = true ->
  client request 2 = inl e2 -> internal e2 = true ->
  client request 3 = inr response ->
  callGeminiWithRetry w request
  = ([ModelCalled 1; Slept 1000%Z; ModelCalled 2; Slept 2000%Z; ModelCalled 3], inr response).
Proof.
  unfold internal. intros Hclient E1 I1 E2 I2 E3.
  unfold callGeminiWithRetry. rewrite Hclient, bind_lift_inr.
  change (seq 1 maxRetries) with [1; 2; 3]. cbn [retryLoop].
  rewrite E1, I1, E2, I2, E3. reflexivity.
Qed.

(** X1. A generation whose model call fails twice with an internal error
    and then returns an image, and whose upload succeeds, ends with the
    entry [done] and its [generatedUrl] set to the uploaded URL. *)
Theorem retried_generation_ends_done
  (w : World) (client : Client) (photos : list Photo) (X : string) (photo : Photo)
  (imageResponse : ImageResponse) (dataUrl mime base64Data : string)
  (e1 e2 : Thrown) (response : GenerateContentResponse)
  (generatedDataUrl generatedCloudUrl : string) (uploaded : UploadResponse) :
  find (fun p => p.(id) =? X) photos = Some photo ->
  photo.(imageUrl) <> "" ->
  w.(fetchImage) photo.(imageUrl) = inr imageResponse ->
  imageResponse.(imageOk) = true ->
  imageResponse.(readAsDataURL) = inr dataUrl ->
  matchDataUrl dataUrl = Some (mime, base64Data) ->
  w.(getGeminiClient) = inr client ->
  client (mkRequest mime base64Data (prompt photo.(message))) 1 = inl e1 ->
  internal e1 = true ->
  client (mkRequest mime base64Data (prompt photo.(message))) 2 = inl e2 ->
  internal e2 = true ->
  client (mkRequest mime base64Data (prompt photo.(message))) 3 = inr response ->
  processGeminiResponse response = inr generatedDataUrl ->
  w.(postImage) generatedDataUrl = inr uploaded ->
  uploaded.(uploadOk) = true ->
  uploaded.(url) = inr generatedCloudUrl ->
  handleGenerateImage w photos X
  = [SetPhotos (MergeById X GenerationStarted);
     Fetched photo.(imageUrl);
     ModelCalled 1; Slept 1000%Z; ModelCalled 2; Slept 2000%Z; ModelCalled 3;
     Uploaded generatedDataUrl;
     SetPhotos (MergeById X (GenerationSucceeded generatedCloudUrl))]
  /\ (forall current,
        Forall (fun p => p.(id) = X ->
                         p.(status) = Status.done
                         /\ p.(generatedUrl) = Some generatedCloudUrl)
               (replay (handleGenerateImage w photos X) current)).
Proof.
  intros Hfind Hurl Hfetch Hok Hread Hmatch Hclient E1 I1 E2 I2 E3 Hprocess
         Hpost Hupok Hupurl.
  assert (Hlog :
    handleGenerateImage w photos X
    = [SetPhotos (MergeById X GenerationStarted);
       Fetched photo.(imageUrl);
       ModelCalled 1; Slept 1000%Z; ModelCalled 2; Slept 2000%Z; ModelCalled 3;
       Uploaded generatedDataUrl;
       SetPhotos (MergeById X (GenerationSucceeded generatedCloudUrl))]).
  { unfold handleGenerateImage. rewrite Hfind.
    assert (Htruthy : truthy photo.(imageUrl) = true).
    { unfold truthy. apply negb_true_iff. now apply String.eqb_neq. }
    rewrite Htruthy. cbn [negb].
    unfold generateTimelineImage.
    rewrite (imageUrlToDataUrl_ok _ _ Hfetch Hok Hread).
    unfold bind at 3. rewrite Hmatch.
    rewrite (retryLoop_third_attempt _ _ Hclient E1 I1 E2 I2 E3).
    unfold bind, catch, lift, emit. rewrite Hprocess.
    unfold uploadImageToCloud, bind, lift, emit.
    rewrite Hpost, Hupok. cbn [negb]. rewrite Hupurl. reflexivity. }
  split; [exact Hlog|].
  intros current. rewrite Hlog. cbn [replay applyUpdate].
  unfold mergeById. rewrite map_map. apply Forall_forall.
  intros q Hq. apply in_map_iff in Hq as (p & <- & _).
  destruct (p.(id) =? X) eqn:E.
  - cbn [patch id]. rewrite E. cbn [patch]. intros _. now split.
  - rewrite E. intros Hid. apply String.eqb_neq in E. contradiction.
Qed.

(** The theorem at work: the flaky model of the samples. *)
Lemma retried_generation_ends_done_witness :
  handleGenerateImage (Sample.world Sample.flaky)
                      [Sample.beach Status.idle None None] "1700000000000-0.5"
  = [SetPhotos (MergeById "1700000000000-0.5" GenerationStarted);
     Fetched "https://blob.example/beach.jpg";
     ModelCalled 1; Slept 1000%Z; ModelCalled 2; Slept 2000%Z; ModelCalled 3;
     Uploaded "data:image/png;base64,QUJD";
     SetPhotos (MergeById "1700000000000-0.5"
                  (GenerationSucceeded "https://blob.example/generated.png"))]
  /\ (forall current,
        Forall (fun p => p.(id) = "1700000000000-0.5" ->
                         p.(status) = Status.done
                         /\ p.(generatedUrl) = Some "https://blob.example/generated.png")
               (replay (handleGenerateImage (Sample.world Sample.flaky)
                          [Sample.beach Status.idle None None] "1700000000000-0.5")
                       current)).
Proof.
  apply (@retried_generation_ends_done
           (Sample.world Sample.flaky) Sample.flaky
           [Sample.beach Status.idle None None] "1700000000000-0.5"
           (Sample.beach Status.idle None None)
           (mkImageResponse true "OK" (inr "data:image/jpeg;base64,AAAA"))
           "data:image/jpeg;base64,AAAA" "image/jpeg" "AAAA"
           Sample.internalError Sample.internalError Sample.imageAnswer
           "data:image/png;base64,QUJD" "https://blob.example/generated.png"
           (mkUploadResponse true "" (inr "https://blob.example/generated.png")));
    try reflexivity; discriminate.
Defined.

Lemma wellFormed_patch (m : Merge) (p : Photo) :
  wellFormed p = true -> wellFormed (patch m p) = true.
Proof.
  destruct m as [cloudUrl| |[newDate newMessage]| |generatedCloudUrl|errorMessage];
    try reflexivity.
  destruct p as [pid pimg pdate pmsg pstatus pgen perr plocal].
  destruct pstatus; intros H; exact H.
Qed.

Lemma wellFormed_perform (op : Operation) (photos : list Photo) :
  forallb wellFormed photos = true -> forallb wellFormed (perform op photos) = true.
Proof.
  intros H. destruct op as [tempId dataUrl | target m | target];
    cbn [perform applyUpdate handleDeletePhoto].
  - rewrite forallb_app, H. reflexivity.
  - unfold mergeById. rewrite forallb_forall in *. intros q Hq.
    apply in_map_iff in Hq as (p & <- & Hp).
    destruct (p.(id) =? target); [apply wellFormed_patch|]; now apply H.
  - rewrite forallb_forall in *. intros q Hq.
    apply filter_In in Hq as [Hq _]. now apply H.
Qed.

(** X2. In every list the operations of the state machine build from the
    empty one, an entry that is [uploading] has an empty [imageUrl] and a
    [localDataUrl], and an entry in [error] has its [error] set. *)
Theorem uploading_and_error_entries_are_well_formed (ops : list Operation) :
  Forall (fun p =>
            (p.(status) = Status.uploading ->
             p.(imageUrl) = "" /\ exists preview, p.(localDataUrl) = Some preview)
            /\ (p.(status) = Status.error -> exists detail, p.(error) = Some detail))
         (run ops []).
Proof.
  assert (H : forallb wellFormed (run ops []) = true).
  { unfold run. generalize (@nil Photo) (eq_refl : forallb wellFormed [] = true).
    induction ops as [|op rest IH]; cbn [fold_left]; intros photos Hphotos.
    - exact Hphotos.
    - apply IH. now apply wellFormed_perform. }
  rewrite forallb_forall in H. apply Forall_forall. intros p Hp.
  specialize (H p Hp). unfold wellFormed, truthy in H.
  destruct p as [pid pimg pdate pmsg pstatus pgen perr plocal]. cbn in *.
  split; intros ->.
  - apply andb_true_iff in H as [Himg Hlocal].
    rewrite negb_involutive in Himg. apply String.eqb_eq in Himg.
    destruct plocal as [preview|]; [|discriminate]. split; [exact Himg | now exists preview].
  - destruct perr as [detail|]; [now exists detail | discriminate].
Qed.

(** X3. An edit changes the date or the message of the entry it targets
    and nothing else: not its status, its URLs or its error; entries with
    another id are untouched. *)
Theorem edit_keeps_status (target : string) (updates : PhotoEdits) (photos : list Photo) :
  Forall2 (fun p q =>
             q.(id) = p.(id) /\ q.(status) = p.(status) /\ q.(imageUrl) = p.(imageUrl)
             /\ q.(generatedUrl) = p.(generatedUrl) /\ q.(error) = p.(error)
             /\ q.(localDataUrl) = p.(localDataUrl)
             /\ (if p.(id) =? target
                 then q.(date) = match updates.(newDate) with Some d => d | None => p.(date) end
                      /\ q.(message)
                         = match updates.(newMessage) with Some m => m | None => p.(message) end
                 else q = p))
          photos (applyUpdate (handleUpdatePhoto target updates) photos).
Proof.
  cbn [applyUpdate handleUpdatePhoto]. unfold mergeById.
  induction photos as [|p rest IH]; cbn [map]; constructor; [|exact IH].
  destruct (p.(id) =? target); cbn; repeat split.
Qed.

(** X4. A generation that passes the guard first marks the entry
    [pending], then works without touching the list, and ends with one
    merge into the same entry: [done] with a URL, or [error] with a
    message. Whatever the list has become meanwhile, the entry ends
    [done] or in [error]. *)
Theorem generation_lifecycle
  (w : World) (photos : list Photo) (X : string) (photo : Photo) :
  find (fun p => p.(id) =? X) photos = Some photo ->
  photo.(imageUrl) <> "" ->
  exists work last,
    handleGenerateImage w photos X
    = (SetPhotos (MergeById X GenerationStarted) :: work ++ [SetPhotos (MergeById X last)])%list
    /\ silent work
    /\ ((exists generatedCloudUrl, last = GenerationSucceeded generatedCloudUrl)
        \/ (exists errorMessage, last = GenerationFailed errorMessage))
    /\ (forall current,
          Forall (fun p => p.(id) = X ->
                           p.(status) = Status.done \/ p.(status) = Status.error)
                 (replay (handleGenerateImage w photos X) current)).
Proof.
  intros Hfind Hurl.
  assert (Htruthy : truthy photo.(imageUrl) = true).
  { unfold truthy. apply negb_true_iff. now apply String.eqb_neq. }
  pose proof (@silent_bind _ _
                (generateTimelineImage w photo.(imageUrl) photo.(message))
                (uploadImageToCloud w)
                (silent_generateTimelineImage w _ _)
                (silent_uploadImageToCloud w)) as Hsilent.
  assert (Hends : forall work last current,
             silent work ->
             (exists u, last = GenerationSucceeded u) \/ (exists msg, last = GenerationFailed msg) ->
             Forall (fun p => p.(id) = X ->
                              p.(status) = Status.done \/ p.(status) = Status.error)
                    (replay (SetPhotos (MergeById X GenerationStarted)
                             :: work ++ [SetPhotos (MergeById X last)]) current)).
  { intros work last current Hwork Hlast. cbn [replay applyUpdate].
    rewrite replay_app, (replay_silent _ Hwork). cbn [replay applyUpdate].
    unfold mergeById. rewrite map_map. apply Forall_forall.
    intros q Hq. apply in_map_iff in Hq as (p & <- & _).
    destruct (p.(id) =? X) eqn:E.
    - cbn [patch id]. rewrite E. intros _.
      destruct Hlast as [[u ->] | [msg ->]]; [now left | now right].
    - rewrite E. intros Hid. apply String.eqb_neq in E. contradiction. }
  unfold handleGenerateImage. rewrite Hfind, Htruthy. cbn [negb].
  unfold bind at 1. cbn [emit].
  destruct (bind (generateTimelineImage w photo.(imageUrl) photo.(message))
                 (uploadImageToCloud w)) as [work [e|generatedCloudUrl]];
    cbn [fst] in Hsilent; cbn [app].
  - exists work, (GenerationFailed (messageOr (fun _ => "An unknown error occurred.") e)).
    split; [reflexivity|]. split; [exact Hsilent|]. split; [right; eauto|].
    intros current. apply Hends; [exact Hsilent | right; eauto].
  - exists work, (GenerationSucceeded generatedCloudUrl).
    split; [reflexivity|]. split; [exact Hsilent|]. split; [left; eauto|].
    intros current. apply Hends; [exact Hsilent | left; eauto].
Qed.

(** The theorem at work: a model that refuses the request. *)
Lemma generation_lifecycle_witness :
  exists work last,
    handleGenerateImage (Sample.world Sample.refusing)
                        [Sample.beach Status.idle None None] "1700000000000-0.5"
    = (SetPhotos (MergeById "1700000000000-0.5" GenerationStarted)
       :: work ++ [SetPhotos (MergeById "1700000000000-0.5" last)])%list
    /\ silent work
    /\ ((exists generatedCloudUrl, last = GenerationSucceeded generatedCloudUrl)
        \/ (exists errorMessage, last = GenerationFailed errorMessage))
    /\ (forall current,
          Forall (fun p => p.(id) = "1700000000000-0.5" ->
                           p.(status) = Status.done \/ p.(status) = Status.error)
                 (replay (handleGenerateImage (Sample.world Sample.refusing)
                            [Sample.beach Status.idle None None] "1700000000000-0.5")
                         current)).
Proof.
  apply (@generation_lifecycle (Sample.world Sample.refusing)
           [Sample.beach Status.idle None None] "1700000000000-0.5"
           (Sample.beach Status.idle None None));
    [reflexivity | discriminate].
Defined.

Section CloudLink.

Context {platform : Platform}.

(** X5. When the page's query names a timeline to fetch, that timeline
    is what is loaded, whether or not the query also carries inline
    data: it replaces the list when every entry has an id and an
    [imageUrl], and nothing is loaded when the fetch fails or an entry
    lacks one of them. *)
Theorem cloud_link_takes_precedence (w : World) (search : SearchParams) (loadFromUrl : string) :
  getParam "load_from_url" search = Some loadFromUrl ->
  loadFromUrl <> "" ->
  loadTimeline w search
  = match w.(fetchTimeline) loadFromUrl with
    | inr parsedPhotos =>
        if forallb (fun p => truthy p.(id) && truthy p.(imageUrl)) parsedPhotos
        then Some (ReplaceWith parsedPhotos)
        else None
    | inl _ => None
    end.
Proof.
  intros Hparam Hurl. unfold loadTimeline. rewrite Hparam. cbn [whenTruthy].
  assert (Htruthy : truthy loadFromUrl = true).
  { unfold truthy. apply negb_true_iff. now apply String.eqb_neq. }
  rewrite Htruthy.
  destruct (w.(fetchTimeline) loadFromUrl) as [e|parsedPhotos]; cbn [andThen]; [reflexivity|].
  destruct parsedPhotos as [|p rest]; [reflexivity|].
  cbn [length Nat.eqb orb].
  now destruct (forallb _ (p :: rest)).
Qed.

End CloudLink.

(** The theorem at work: a query with both parameters, and a host that
    serves one finished entry. *)
Lemma cloud_link_takes_precedence_witness :
  loadTimeline (platform := Reference.platform)
    (mkWorld (fun _ => inl (ErrorObject "offline")) (inl (ErrorObject "no key"))
             (fun _ => inl (ErrorObject "offline"))
             (fun _ => inr [Sample.beach Status.done (Some "https://blob.example/generated.png") None]))
    [("data", "eJw="); ("load_from_url", "https://blob.example/timeline.json")]
  = Some (ReplaceWith [Sample.beach Status.done (Some "https://blob.example/generated.png") None]).
Proof.
  rewrite (@cloud_link_takes_precedence Reference.platform _
             [("data", "eJw="); ("load_from_url", "https://blob.example/timeline.json")]
             "https://blob.example/timeline.json");
    [reflexivity | reflexivity | discriminate].
Defined.

(* ================================================================== *)
(** ** An entry whose upload failed *)

Lemma find_app_absent (target : string) (photos : list Photo) (p : Photo) :
  hasId target photos = false -> p.(id) = target ->
  find (fun q => q.(id) =? target) (photos ++ [p]) = Some p.
Proof.
  intros Habsent Hid. induction photos as [|q photos IH]; cbn [app find].
  - rewrite Hid, String.eqb_refl. reflexivity.
  - cbn [hasId existsb] in Habsent. apply orb_false_iff in Habsent as [Hq Hrest].
    rewrite Hq. apply IH. exact Hrest.
Qed.

Lemma mergeById_last (target : string) (m : Merge) (photos : list Photo) (p : Photo) :
  hasId target photos = false -> p.(id) = target ->
  mergeById target m (photos ++ [p]) = (photos ++ [patch m p])%list.
Proof.
  intros Habsent Hid. unfold mergeById at 1. rewrite map_app.
  fold (mergeById target m photos). rewrite mergeById_absent by exact Habsent.
  cbn [map]. rewrite Hid, String.eqb_refl. reflexivity.
Qed.

Lemma edits_keep_failed_upload (target : string) (edits : list PhotoEdits)
  (photos : list Photo) (p : Photo) :
  hasId target photos = false -> p.(id) = target ->
  exists q,
    run (map (fun updates => Complete target (Edited updates)) edits) (photos ++ [p])
    = (photos ++ [q])%list
    /\ q.(id) = target /\ q.(status) = p.(status) /\ q.(error) = p.(error)
    /\ q.(imageUrl) = p.(imageUrl).
Proof.
  intros Habsent. revert p. induction edits as [|updates edits IH]; intros p Hid.
  - exists p. repeat split; auto.
  - cbn [map]. unfold run. cbn [fold_left perform applyUpdate].
    rewrite mergeById_last by assumption.
    destruct (IH (patch (Edited updates) p)) as (q & Hrun & Hq).
    { rewrite patch_id. exact Hid. }
    exists q. split; [exact Hrun|]. exact Hq.
Qed.

(** X6. An entry whose upload failed is in [error] without an
    [imageUrl], and no edit changes that. Its card offers Try Again and
    not Generate Image, and a click on Try Again does nothing at all:
    [handleGenerateImage] returns at its guard. *)
Theorem failed_upload_cannot_be_retried
  (w : World) (photos : list Photo) (tempId dataUrl : string) (edits : list PhotoEdits) :
  hasId tempId photos = false ->
  exists p,
    find (fun q => q.(id) =? tempId)
         (run (Create tempId dataUrl :: Complete tempId UploadFailed
               :: map (fun updates => Complete tempId (Edited updates)) edits) photos)
    = Some p
    /\ p.(status) = Status.error
    /\ p.(error) = Some "Upload failed."
    /\ p.(imageUrl) = ""
    /\ rendered p GenerateImage = false
    /\ rendered p TryAgain && negb (disabled p TryAgain) = true
    /\ click w (run (Create tempId dataUrl :: Complete tempId UploadFailed
                     :: map (fun updates => Complete tempId (Edited updates)) edits) photos)
             p TryAgain = [].
Proof.
  intros Habsent.
  unfold run. cbn [fold_left perform applyUpdate].
  rewrite mergeById_last by (exact Habsent || reflexivity).
  destruct (@edits_keep_failed_upload tempId edits photos
              (patch UploadFailed (newPhoto tempId dataUrl)) Habsent eq_refl)
    as (q & Hrun & Hid & Hstatus & Herror & Hurl).
  unfold run in Hrun. rewrite Hrun.
  cbn in Hstatus, Herror, Hurl.
  exists q. rewrite find_app_absent by assumption.
  split; [reflexivity|]. split; [exact Hstatus|]. split; [exact Herror|].
  split; [exact Hurl|].
  unfold click, rendered, disabled. rewrite Hstatus. cbn.
  split; [reflexivity|]. split; [reflexivity|].
  unfold handleGenerateImage. rewrite Hid. rewrite find_app_absent by assumption. rewrite Hurl.
  reflexivity.
Qed.

(** The theorem at work: the second image of a timeline, captioned after
    its upload failed. *)
Lemma failed_upload_cannot_be_retried_witness :
  exists p,
    find (fun q => q.(id) =? "1700000000002-0.75")
         (run [Create "1700000000002-0.75" "data:image/jpeg;base64,BBBB";
               Complete "1700000000002-0.75" UploadFailed;
               Complete "1700000000002-0.75" (Edited (editDate "2021-03-04"));
               Complete "1700000000002-0.75" (Edited (editMessage "First snow"))]
              [Sample.hills])
    = Some p
    /\ p.(status) = Status.error
    /\ p.(error) = Some "Upload failed."
    /\ p.(imageUrl) = ""
    /\ rendered p GenerateImage = false
    /\ rendered p TryAgain && negb (disabled p TryAgain) = true
    /\ click (Sample.world Sample.obliging)
             (run [Create "1700000000002-0.75" "data:image/jpeg;base64,BBBB";
                   Complete "1700000000002-0.75" UploadFailed;
                   Complete "1700000000002-0.75" (Edited (editDate "2021-03-04"));
                   Complete "1700000000002-0.75" (Edited (editMessage "First snow"))]
                  [Sample.hills])
             p TryAgain = [].
Proof.
  apply (@failed_upload_cannot_be_retried (Sample.world Sample.obliging) [Sample.hills]
           "1700000000002-0.75" "data:image/jpeg;base64,BBBB"
           [editDate "2021-03-04"; editMessage "First snow"]).
  reflexivity.
Defined.

(* ================================================================== *)
(** ** What one generation costs *)

Lemma within_app (l1 l2 : list Event) c1 w1 f1 u1 s1 c2 w2 f2 u2 s2 :
  within l1 c1 w1 f1 u1 s1 -> within l2 c2 w2 f2 u2 s2 ->
  within (l1 ++ l2) (c1 + c2) (w1 + w2)%Z (f1 + f2) (u1 + u2) (s1 + s2).
Proof.
  unfold within, modelCalls, totalWait, sleeps, fetches, uploads, photoUpdates.
  intros (A1 & B1 & C1 & D1 & E1) (A2 & B2 & C2 & D2 & E2).
  rewrite !filter_app, !length_app, flat_map_app.
  assert (Hsum : forall a b : list Z,
             fold_right Z.add 0%Z (a ++ b)
             = (fold_right Z.add 0 a + fold_right Z.add 0 b)%Z).
  { intros a b. induction a as [|x a IH]; cbn [app fold_right]; [reflexivity|]. rewrite IH. lia. }
  rewrite Hsum. repeat split; lia.
Qed.

Lemma within_weaken (l : list Event) c w f u s c' w' f' u' s' :
  within l c w f u s -> c <= c' -> (w <= w')%Z -> f <= f' -> u <= u' -> s <= s' ->
  within l c' w' f' u' s'.
Proof. unfold within. intros (A & B & C & D & E) ? ? ? ? ?. repeat split; lia. Qed.

Lemma within_retryLoop (client : Client) (request : ModelRequest) :
  within (fst (retryLoop client request (seq 1 maxRetries))) 3 3000 0 0 0.
Proof.
  change (seq 1 maxRetries) with [1; 2; 3].
  cbn [retryLoop].
  change (1 <? maxRetries)%nat with true.
  change (2 <? maxRetries)%nat with true.
  change (3 <? maxRetries)%nat with false.
  destruct (client request 1) as [e1|r1]; [|cbv; repeat split; (lia || discriminate)].
  destruct (isInternalError (messageOr stringifyThrown e1));
    [|cbv; repeat split; (lia || discriminate)].
  destruct (client request 2) as [e2|r2]; [|cbv; repeat split; (lia || discriminate)].
  destruct (isInternalError (messageOr stringifyThrown e2));
    [|cbv; repeat split; (lia || discriminate)].
  destruct (client request 3) as [e3|r3]; [|cbv; repeat split; (lia || discriminate)].
  rewrite andb_false_r. cbv; repeat split; (lia || discriminate).
Qed.

Lemma within_callGeminiWithRetry (w : World) (request : ModelRequest) :
  within (fst (callGeminiWithRetry w request)) 3 3000 0 0 0.
Proof.
  unfold callGeminiWithRetry.
  destruct w.(getGeminiClient) as [e|client].
  - cbv; repeat split; (lia || discriminate).
  - rewrite bind_lift_inr. apply within_retryLoop.
Qed.

Lemma within_imageUrlToDataUrl (w : World) (imageUrl : string) :
  within (fst (imageUrlToDataUrl w imageUrl)) 0 0 1 0 0.
Proof.
  unfold imageUrlToDataUrl.
  destruct (w.(fetchImage) imageUrl) as [e|[ok st [e|d]]];
    try destruct ok; cbv; repeat split; (lia || discriminate).
Qed.

Lemma within_uploadImageToCloud (w : World) (dataUrl : string) :
  within (fst (uploadImageToCloud w dataUrl)) 0 0 0 1 0.
Proof.
  unfold uploadImageToCloud.
  destruct (w.(postImage) dataUrl) as [e|[ok t [e|u]]];
    try destruct ok; cbv; repeat split; (lia || discriminate).
Qed.

Lemma within_bind {A B} (m : Async A) (k : A -> Async B) c1 w1 f1 u1 s1 c2 w2 f2 u2 s2 :
  within (fst m) c1 w1 f1 u1 s1 ->
  (forall a, within (fst (k a)) c2 w2 f2 u2 s2) ->
  (0 <= w2)%Z ->
  within (fst (bind m k)) (c1 + c2) (w1 + w2)%Z (f1 + f2) (u1 + u2) (s1 + s2).
Proof.
  intros Hm Hk Hw. destruct m as [log [e|a]]; cbn [bind fst] in *.
  - apply (within_weaken Hm); lia.
  - specialize (Hk a). destruct (k a) as [log' r]. cbn [fst] in *.
    now apply within_app.
Qed.

Lemma within_generateTimelineImage (w : World) (imageUrl message : string) :
  within (fst (generateTimelineImage w imageUrl message)) 3 3000 1 0 0.
Proof.
  unfold generateTimelineImage.
  apply (@within_bind _ _ (imageUrlToDataUrl w imageUrl) _ 0 0%Z 1 0 0 3 3000%Z 0 0 0);
    [apply within_imageUrlToDataUrl | | lia].
  intros imageDataUrl.
  destruct (matchDataUrl imageDataUrl) as [[mime base64Data]|];
    [|cbv; repeat split; (lia || discriminate)].
  pose proof (within_callGeminiWithRetry w (mkRequest mime base64Data (prompt message))) as H.
  destruct (callGeminiWithRetry w (mkRequest mime base64Data (prompt message)))
    as [log [e|response]]; cbn [fst] in H.
  - unfold bind, catch, throw. cbn [fst]. rewrite app_nil_r. exact H.
  - unfold bind, catch, lift, throw.
    destruct (processGeminiResponse response); cbn [fst]; rewrite ?app_nil_r; exact H.
Qed.

(** X7. Whatever the network, the model and the blob store do, one call
    of [handleGenerateImage] calls the model at most three times, waits at
    most 3000 ms between attempts, fetches at most one image, uploads at
    most one, and calls [setPhotos] at most twice. *)
Theorem generation_cost_is_bounded (w : World) (photos : list Photo) (target : string) :
  modelCalls (handleGenerateImage w photos target) <= 3
  /\ (totalWait (handleGenerateImage w photos target) <= 3000)%Z
  /\ fetches (handleGenerateImage w photos target) <= 1
  /\ uploads (handleGenerateImage w photos target) <= 1
  /\ photoUpdates (handleGenerateImage w photos target) <= 2.
Proof.
  change (within (handleGenerateImage w photos target) 3 3000 1 1 2).
  unfold handleGenerateImage.
  destruct (find (fun p => p.(id) =? target) photos) as [photo|];
    [|cbv; repeat split; (lia || discriminate)].
  destruct (negb (truthy photo.(imageUrl))); [cbv; repeat split; (lia || discriminate)|].
  assert (H : within
                (fst (emit (SetPhotos (MergeById target GenerationStarted)) ;;
                      generatedDataUrl <- generateTimelineImage w photo.(imageUrl) photo.(message) ;;
                      uploadImageToCloud w generatedDataUrl))
                (0 + (3 + 0)) (0 + (3000 + 0))%Z (0 + (1 + 0)) (0 + (0 + 1)) (1 + (0 + 0))).
  { apply within_bind; [cbv; repeat split; (lia || discriminate) | | lia].
    intros _. apply within_bind; [apply within_generateTimelineImage | | lia].
    intros generatedDataUrl. apply within_uploadImageToCloud. }
  destruct (emit (SetPhotos (MergeById target GenerationStarted)) ;;
            generatedDataUrl <- generateTimelineImage w photo.(imageUrl) photo.(message) ;;
            uploadImageToCloud w generatedDataUrl) as [log [e|generatedCloudUrl]];
    cbn [fst] in H;
    (eapply within_weaken;
     [apply (within_app H (l2 := [SetPhotos _]) (c2 := 0) (w2 := 0%Z) (f2 := 0) (u2 := 0) (s2 := 1));
      cbv; repeat split; (lia || discriminate)
     | lia ..]).
Qed.

(* ================================================================== *)
(** ** The data URL pattern of [generateTimelineImage] *)

Lemma stripPrefix_spec (pre s rest : string) :
  stripPrefix pre s = Some rest <-> s = pre ++ rest.
Proof.
  revert s. induction pre as [|a pre IH]; intros s; cbn [stripPrefix append].
  - split; [intros [= ->] | intros ->]; reflexivity.
  - destruct s as [|b s].
    + split; discriminate.
    + destruct (Ascii.eqb a b) eqn:E.
      * apply Ascii.eqb_eq in E as ->. rewrite IH. split; [intros ->|intros [= ->]]; reflexivity.
      * apply Ascii.eqb_neq in E. split; [discriminate|]. intros [= <- _]. contradiction.
Qed.

Lemma spanWord_spec (s word rest : string) :
  spanWord s = (word, rest)
  <-> s = word ++ rest /\ allWordChars word = true
      /\ match rest with
         | EmptyString => True
         | String c _ => isWordChar c = false
         end.
Proof.
  revert word. induction s as [|c s IH]; intros word; cbn [spanWord].
  - split.
    + intros [= <- <-]. repeat split.
    + intros (Hs & _ & _). destruct word; [|discriminate]. destruct rest; [|discriminate].
      reflexivity.
  - destruct (isWordChar c) eqn:Ec.
    + destruct (spanWord s) as [w tl] eqn:Es. split.
      * intros [= <- <-]. destruct (proj1 (IH w) eq_refl) as (-> & Hw & Htl).
        cbn [append allWordChars]. rewrite Ec, Hw. repeat split. exact Htl.
      * intros (Hs & Hw & Hrest). destruct word as [|c' word].
        -- cbn [append] in Hs. subst rest. rewrite Ec in Hrest. discriminate.
        -- cbn [append allWordChars] in Hs, Hw. injection Hs as <- ->.
           apply andb_true_iff in Hw as [_ Hw].
           assert (E : (w, tl) = (word, rest)) by (apply IH; auto).
           injection E as -> ->. reflexivity.
    + split.
      * intros [= <- <-]. cbn [append allWordChars]. rewrite Ec. repeat split.
      * intros (Hs & Hw & Hrest). destruct word as [|c' word].
        -- cbn [append] in Hs. subst rest. reflexivity.
        -- cbn [append allWordChars] in Hs, Hw. injection Hs as <- _.
           rewrite Ec in Hw. discriminate.
Qed.

(** X8. The pattern of [generateTimelineImage] accepts exactly the texts
    [data:image/WORD;base64,DATA] where WORD is a non-empty run of
    letters, digits and underscores and DATA holds no line break, and it
    then yields [image/WORD] and DATA; so a type such as [image/svg+xml]
    is refused, and what is accepted is put together again from the two
    parts. When the image that was fetched is refused,
    [generateTimelineImage] throws without calling the model. *)
Theorem matchDataUrl_accepts_exactly (s : string) :
  (forall mime base64Data,
     matchDataUrl s = Some (mime, base64Data)
     <-> exists word,
           mime = "image/" ++ word
           /\ word <> ""
           /\ allWordChars word = true
           /\ noLineTerminator base64Data = true
           /\ s = "data:" ++ mime ++ ";base64," ++ base64Data)
  /\ (forall w imageUrl message imageResponse,
        w.(fetchImage) imageUrl = inr imageResponse ->
        imageResponse.(imageOk) = true ->
        imageResponse.(readAsDataURL) = inr s ->
        matchDataUrl s = None ->
        generateTimelineImage w imageUrl message
        = ([Fetched imageUrl],
           inl (ErrorObject "Failed to convert image URL to a valid data URL format."))).
Proof.
  split.
  - intros mime base64Data. unfold matchDataUrl. split.
    + destruct (stripPrefix "data:image/" s) as [afterSlash|] eqn:E1; [|discriminate].
      apply stripPrefix_spec in E1.
      destruct (spanWord afterSlash) as [word afterWord] eqn:E2.
      apply spanWord_spec in E2 as (Hafter & Hword & _).
      destruct (word =? "") eqn:E3; [discriminate|]. apply String.eqb_neq in E3.
      destruct (stripPrefix ";base64," afterWord) as [rest|] eqn:E4; [|discriminate].
      apply stripPrefix_spec in E4.
      destruct (noLineTerminator rest) eqn:E5; [|discriminate].
      intros [= <- <-]. exists word. repeat split; auto.
      subst s afterSlash afterWord. reflexivity.
    + intros (word & -> & Hne & Hword & Hdata & ->).
      assert (E1 : stripPrefix "data:image/"
                     ("data:" ++ ("image/" ++ word) ++ ";base64," ++ base64Data)
                   = Some (word ++ ";base64," ++ base64Data)).
      { apply stripPrefix_spec. reflexivity. }
      rewrite E1.
      assert (E2 : spanWord (word ++ ";base64," ++ base64Data)
                   = (word, ";base64," ++ base64Data)).
      { apply spanWord_spec. repeat split; auto. }
      rewrite E2.
      apply String.eqb_neq in Hne. rewrite Hne.
      assert (E4 : stripPrefix ";base64," (";base64," ++ base64Data) = Some base64Data)
        by (now apply stripPrefix_spec).
      rewrite E4, Hdata. reflexivity.
  - intros w imageUrl message imageResponse Hfetch Hok Hread Hnone.
    unfold generateTimelineImage.
    rewrite (imageUrlToDataUrl_ok _ _ Hfetch Hok Hread).
    unfold bind. rewrite Hnone. reflexivity.
Qed.

(* ================================================================== *)
(** ** Selecting image files *)

Section SelectingImages.

Variable parseJson : string -> Thrown + value.
Variable resizeImage : File -> nat -> Thrown + string.
Variable tempIdOf : nat -> string.

Lemma processImages_events (i : nat) (imageFiles : list File) :
  map localDataUrl (added (processImages resizeImage tempIdOf i imageFiles))
  = map Some (resized resizeImage imageFiles)
  /\ uploadsStarted (processImages resizeImage tempIdOf i imageFiles)
     = combine (map id (added (processImages resizeImage tempIdOf i imageFiles)))
               (resized resizeImage imageFiles)
  /\ Forall (fun p => p.(status) = Status.uploading /\ p.(imageUrl) = ""
                      /\ p.(date) = "" /\ p.(message) = "")
            (added (processImages resizeImage tempIdOf i imageFiles))
  /\ alerts (processImages resizeImage tempIdOf i imageFiles)
     = map (fun n => "Could not process " ++ n ++ ".") (refused resizeImage imageFiles).
Proof.
  revert i. induction imageFiles as [|file rest IH]; intros i.
  - repeat split. constructor.
  - destruct (IH (S i)) as (H1 & H2 & H3 & H4).
    cbn [processImages]. unfold added, uploadsStarted, alerts, resized, refused in *.
    rewrite !flat_map_app. cbn [flat_map].
    destruct (resizeImage file 1024) as [e|dataUrl]; cbn [flat_map app map combine].
    + rewrite H1, H2, H4. repeat split. exact H3.
    + rewrite H1, H2, H4. repeat split. constructor; [|exact H3]. repeat split.
Qed.

(** X9. When a selection loads no timeline, every image file of it that
    [resizeImage] accepts becomes a new entry, in the order of the
    selection, whatever happens to the others: the entry is [uploading],
    shows the resized image as its preview, has neither URL nor caption,
    and its upload is started with its id and that image. Each image
    file that is refused gives one alert with its name and nothing else. *)
Theorem images_are_processed_independently (files : list File) :
  loadsTimeline (handleFileSelect parseJson resizeImage tempIdOf (Some files)) = false ->
  map localDataUrl (added (handleFileSelect parseJson resizeImage tempIdOf (Some files)))
  = map Some (resized resizeImage (filter isImageFile files))
  /\ uploadsStarted (handleFileSelect parseJson resizeImage tempIdOf (Some files))
     = combine (map id (added (handleFileSelect parseJson resizeImage tempIdOf (Some files))))
               (resized resizeImage (filter isImageFile files))
  /\ Forall (fun p => p.(status) = Status.uploading /\ p.(imageUrl) = ""
                      /\ p.(date) = "" /\ p.(message) = "")
            (added (handleFileSelect parseJson resizeImage tempIdOf (Some files)))
  /\ exists aboutJson,
       length aboutJson <= 1
       /\ alerts (handleFileSelect parseJson resizeImage tempIdOf (Some files))
          = (aboutJson
             ++ map (fun n => ("Could not process " ++ n ++ ".")%string)
                    (refused resizeImage (filter isImageFile files)))%list.
Proof.
  unfold handleFileSelect. fold isImageFile.
  set (imageFiles := filter isImageFile files).
  set (jsonFiles := filter (fun file => file.(type) =? "application/json") files).
  assert (Himages :
            (if negb false && (0 <? length imageFiles)%nat
             then processImages resizeImage tempIdOf 0 imageFiles else [])
            = processImages resizeImage tempIdOf 0 imageFiles).
  { destruct imageFiles; reflexivity. }
  destruct (processImages_events 0 imageFiles) as (H1 & H2 & H3 & H4).
  destruct jsonFiles as [|first others].
  - intros _. rewrite Himages. cbn [app].
    split; [exact H1|]. split; [exact H2|]. split; [exact H3|].
    exists []. split; [cbn; lia|]. exact H4.
  - unfold loadJsonFile.
    destruct (readTimeline (parseJson first.(content))) as [e|migrated].
    + intros _. rewrite Himages. cbn [app added uploadsStarted alerts flat_map].
      fold (added (processImages resizeImage tempIdOf 0 imageFiles)).
      fold (uploadsStarted (processImages resizeImage tempIdOf 0 imageFiles)).
      fold (alerts (processImages resizeImage tempIdOf 0 imageFiles)).
      split; [exact H1|]. split; [exact H2|]. split; [exact H3|].
      eexists [_]. split; [cbn; lia|]. rewrite H4. reflexivity.
    + cbn. discriminate.
Qed.

Lemma filter_filter_implied {A} (f g : A -> bool) (l : list A) :
  (forall x, f x = true -> g x = true) -> filter f (filter g l) = filter f l.
Proof.
  intros H. induction l as [|x l IH]; [reflexivity|]. cbn [filter].
  destruct (g x) eqn:Eg; cbn [filter].
  - now rewrite IH.
  - destruct (f x) eqn:Ef; [|exact IH]. rewrite (H x Ef) in Eg. discriminate.
Qed.

(** X10. Files that are neither images nor JSON take no part in a
    selection: it does what it would do without them. A selection made
    of such files only, an empty one, and an input without a file list
    do nothing, not even alert. *)
Theorem other_files_are_ignored (files : list File) :
  handleFileSelect parseJson resizeImage tempIdOf (Some files)
  = handleFileSelect parseJson resizeImage tempIdOf
      (Some (filter (fun file => isImageFile file || isJsonFile file) files))
  /\ (forallb (fun file => negb (isImageFile file || isJsonFile file)) files = true ->
      handleFileSelect parseJson resizeImage tempIdOf (Some files) = [])
  /\ handleFileSelect parseJson resizeImage tempIdOf None = [].
Proof.
  assert (Hsame : handleFileSelect parseJson resizeImage tempIdOf (Some files)
                  = handleFileSelect parseJson resizeImage tempIdOf
                      (Some (filter (fun file => isImageFile file || isJsonFile file) files))).
  { unfold handleFileSelect.
    change (fun file : File => startsWith file.(type) "image/") with isImageFile.
    change (fun file : File => file.(type) =? "application/json") with isJsonFile.
    rewrite !filter_filter_implied; [reflexivity | |].
    - intros x ->. reflexivity.
    - intros x ->. apply orb_true_r. }
  split; [exact Hsame|]. split; [|reflexivity].
  intros Hnone. rewrite Hsame.
  assert (Hempty : filter (fun file => isImageFile file || isJsonFile file) files = []).
  { clear Hsame. induction files as [|file rest IH]; [reflexivity|].
    cbn [forallb] in Hnone. apply andb_true_iff in Hnone as [Hfile Hrest].
    cbn [filter]. apply negb_true_iff in Hfile. rewrite Hfile. exact (IH Hrest). }
  rewrite Hempty. reflexivity.
Qed.

End SelectingImages.

(** The theorem at work: four files, one of them an image that cannot
    be read. *)
Lemma images_are_processed_independently_witness :
  map localDataUrl
      (added (handleFileSelect SampleFiles.parse SampleBatch.resize SampleFiles.tempId
                (Some SampleBatch.files)))
  = [Some "data:image/jpeg;base64,iVBORw0KGgo="; Some "data:image/jpeg;base64,UklGRg=="]
  /\ alerts (handleFileSelect SampleFiles.parse SampleBatch.resize SampleFiles.tempId
               (Some SampleBatch.files))
     = ["Could not process empty.png."].
Proof.
  destruct (@images_are_processed_independently SampleFiles.parse SampleBatch.resize
              SampleFiles.tempId SampleBatch.files eq_refl) as (H1 & _ & _ & _).
  split; [exact H1 | reflexivity].
Defined.

(** The theorem at work: a selection of text files. *)
Lemma other_files_are_ignored_witness :
  handleFileSelect SampleFiles.parse SampleBatch.resize SampleFiles.tempId
    (Some [SampleBatch.notes; SampleBatch.notes]) = [].
Proof.
  exact (proj1 (proj2 (@other_files_are_ignored SampleFiles.parse SampleBatch.resize
                         SampleFiles.tempId [SampleBatch.notes; SampleBatch.notes]))
               eq_refl).
Defined.

(* ================================================================== *)
(** ** The image endpoint *)

(** X11. The handler of [api/upload-image.ts] calls [put] at most once,
    and only for a POST request with a body when the token is set; the
    blob is then named [images/photo-NOW.EXT] and stored with the
    content type of the request. It answers 200 exactly when that call
    returned a URL, which is then its body; every other answer is 400,
    405 or 500, and without a token it is 500 whatever the request. *)
Theorem upload_handler_stores_only_posts_with_a_body
  (token : option string) (now : N) (put : BlobStore) (request : HttpRequest) :
  (fst (UploadImage.handler token now put request) = []
   \/ exists secret body,
        whenTruthy token = Some secret
        /\ request.(httpMethod) = "POST"
        /\ request.(requestBody) = Some body
        /\ fst (UploadImage.handler token now put request)
           = [mkPutCall ("images/photo-" ++ Str.decimal now ++ "."
                         ++ UploadImage.fileExtension (UploadImage.contentTypeOf request))
                        body (UploadImage.contentTypeOf request) secret])
  /\ ((snd (UploadImage.handler token now put request)).(edgeStatus) = 200
      <-> exists call url,
            fst (UploadImage.handler token now put request) = [call]
            /\ put call = inr url
            /\ (snd (UploadImage.handler token now put request)).(edgeBody) = UrlJson url)
  /\ In (snd (UploadImage.handler token now put request)).(edgeStatus) [200; 400; 405; 500]
  /\ (whenTruthy token = None ->
      (snd (UploadImage.handler token now put request)).(edgeStatus) = 500
      /\ fst (UploadImage.handler token now put request) = []).
Proof.
  unfold UploadImage.handler.
  assert (Hrefused : forall code text,
             In code [400; 405; 500] ->
             (fst (@nil PutCall, mkEdgeResponse code (PlainText text)) = []
              \/ exists secret body,
                   whenTruthy token = Some secret
                   /\ request.(httpMethod) = "POST"
                   /\ request.(requestBody) = Some body
                   /\ fst (@nil PutCall, mkEdgeResponse code (PlainText text))
                      = [mkPutCall ("images/photo-" ++ Str.decimal now ++ "."
                                    ++ UploadImage.fileExtension (UploadImage.contentTypeOf request))
                                   body (UploadImage.contentTypeOf request) secret])
             /\ ((snd (@nil PutCall, mkEdgeResponse code (PlainText text))).(edgeStatus) = 200
                 <-> exists call url,
                       fst (@nil PutCall, mkEdgeResponse code (PlainText text)) = [call]
                       /\ put call = inr url
                       /\ (snd (@nil PutCall, mkEdgeResponse code (PlainText text))).(edgeBody)
                          = UrlJson url)
             /\ In (snd (@nil PutCall, mkEdgeResponse code (PlainText text))).(edgeStatus)
                   [200; 400; 405; 500]).
  { intros code text Hcode. cbn [fst snd edgeStatus edgeBody].
    split; [left; reflexivity|]. split.
    - split.
      + intros ->. cbn in Hcode. repeat destruct Hcode as [Hcode|Hcode]; discriminate || contradiction.
      + intros (call & url & Hcall & _). discriminate.
    - right. exact Hcode. }
  destruct (whenTruthy token) as [secret|].
  2:{ destruct (Hrefused 500 "Storage secret is not configured.") as (H1 & H2 & H3);
        [cbn; auto|].
      split; [exact H1|]. split; [exact H2|]. split; [exact H3|].
      intros _. split; reflexivity. }
  destruct (request.(httpMethod) =? "POST") eqn:Emethod; cbn [negb].
  2:{ destruct (Hrefused 405 "Method Not Allowed") as (H1 & H2 & H3); [cbn; auto|].
      split; [exact H1|]. split; [exact H2|]. split; [exact H3|]. discriminate. }
  apply String.eqb_eq in Emethod.
  destruct request.(requestBody) as [body|] eqn:Ebody.
  2:{ destruct (Hrefused 400 "Bad Request: No body provided.") as (H1 & H2 & H3);
        [cbn; auto|].
      split; [exact H1|]. split; [exact H2|]. split; [exact H3|]. discriminate. }
  clear Hrefused. cbn zeta.
  destruct (put _) as [e|url] eqn:Eput; cbn [fst snd edgeStatus edgeBody].
  - split; [right; exists secret, body; auto|].
    split; [|split; [cbn; auto|discriminate]].
    split; [discriminate|]. intros (call & url & Hcall & Hput & _).
    injection Hcall as Hcall. subst call.
    discriminate (eq_trans (eq_sym Hput) Eput).
  - split; [right; exists secret, body; auto|].
    split; [|split; [cbn; auto|discriminate]].
    split; [|reflexivity]. intros _. eexists _, url. repeat split. exact Eput.
Qed.

Lemma split_no_separator (sep : ascii) (s : string) :
  Str.has sep s = false -> Str.split sep s = [s].
Proof.
  induction s as [|c s IH]; cbn [Str.has Str.split]; [reflexivity|].
  intros H. apply orb_false_iff in H as [Hc Hs]. rewrite Hc, IH by exact Hs. reflexivity.
Qed.

Lemma split_at_first (sep : ascii) (before after : string) :
  Str.has sep before = false ->
  Str.split sep (before ++ String sep after) = before :: Str.split sep after.
Proof.
  induction before as [|c before IH]; cbn [Str.has Str.split append].
  - intros _. rewrite Ascii.eqb_refl. reflexivity.
  - intros H. apply orb_false_iff in H as [Hc Hs]. rewrite Hc, IH by exact Hs. reflexivity.
Qed.

(** X12. The extension of the stored image is what follows the first
    slash of the content type, up to a second slash if there is one;
    it is [jpeg] when the content type has no slash or nothing after
    it. A request without a content type, or with an empty one, is
    stored as [application/octet-stream] under the extension
    [octet-stream]. *)
Theorem file_extension_follows_the_content_type :
  (forall major minor,
     Str.has "/" major = false -> Str.has "/" minor = false ->
     UploadImage.fileExtension (major ++ "/" ++ minor)
     = if truthy minor then minor else "jpeg")
  /\ (forall major minor rest,
        Str.has "/" major = false -> Str.has "/" minor = false ->
        UploadImage.fileExtension (major ++ "/" ++ minor ++ "/" ++ rest)
        = if truthy minor then minor else "jpeg")
  /\ (forall contentType,
        Str.has "/" contentType = false -> UploadImage.fileExtension contentType = "jpeg")
  /\ (forall request,
        whenTruthy request.(contentTypeHeader) = None ->
        UploadImage.contentTypeOf request = "application/octet-stream"
        /\ UploadImage.fileExtension (UploadImage.contentTypeOf request) = "octet-stream").
Proof.
  unfold UploadImage.fileExtension.
  split; [|split; [|split]].
  - intros major minor Hmajor Hminor.
    change (major ++ "/" ++ minor) with (major ++ String "/" minor).
    rewrite split_at_first by assumption. rewrite split_no_separator by assumption.
    cbn [nth_error whenTruthy]. now destruct (truthy minor).
  - intros major minor rest Hmajor Hminor.
    change (major ++ "/" ++ minor ++ "/" ++ rest)
      with (major ++ String "/" (minor ++ String "/" rest)).
    rewrite !split_at_first by assumption.
    cbn [nth_error whenTruthy]. now destruct (truthy minor).
  - intros contentType H. rewrite split_no_separator by assumption. reflexivity.
  - intros request H. unfold UploadImage.contentTypeOf. rewrite H. split; reflexivity.
Qed.

(* ================================================================== *)
(** ** The application against the image endpoint *)

Section ImageUploadEndToEnd.

Variable dataURLtoBlob : string -> Thrown + Blob.
Variable token : option string.
Variable now : N.
Variable put : BlobStore.

(** X13. Against the handler of [api/upload-image.ts],
    [uploadImageToCloud] returns the URL the blob store gave for
    [images/photo-NOW.EXT], where EXT comes from the type of the blob;
    it throws [Image upload failed: Storage secret is not configured.]
    when the server has no token and [Image upload failed: Internal
    Server Error: ] with the reason when the store fails. A new entry
    then ends [idle] with that URL, or in [error] with the fixed text
    [Upload failed.], which keeps nothing of the server's reason. *)
Theorem image_upload_end_to_end (w : World) (dataUrl : string) (blob : Blob) :
  dataURLtoBlob dataUrl = inr blob ->
  uploadImageToCloud (withImageEndpoint dataURLtoBlob token now put w) dataUrl
  = ([Uploaded dataUrl],
     match whenTruthy token with
     | None => inl (ErrorObject "Image upload failed: Storage secret is not configured.")
     | Some secret =>
         match put (imageCall now blob secret) with
         | inr url => inr url
         | inl error =>
             inl (ErrorObject ("Image upload failed: Internal Server Error: "
                               ++ messageOrUnknown error))
         end
     end)
  /\ forall tempId,
       replay (uploadCompletion (withImageEndpoint dataURLtoBlob token now put w) tempId dataUrl)
              [newPhoto tempId dataUrl]
       = [match whenTruthy token with
          | None => patch UploadFailed (newPhoto tempId dataUrl)
          | Some secret =>
              match put (imageCall now blob secret) with
              | inr url => patch (UploadSucceeded url) (newPhoto tempId dataUrl)
              | inl _ => patch UploadFailed (newPhoto tempId dataUrl)
              end
          end].
Proof.
  intros Hblob.
  assert (Hupload :
            uploadImageToCloud (withImageEndpoint dataURLtoBlob token now put w) dataUrl
            = ([Uploaded dataUrl],
               match whenTruthy token with
               | None => inl (ErrorObject "Image upload failed: Storage secret is not configured.")
               | Some secret =>
                   match put (imageCall now blob secret) with
                   | inr url => inr url
                   | inl error =>
                       inl (ErrorObject ("Image upload failed: Internal Server Error: "
                                         ++ messageOrUnknown error))
                   end
               end)).
  { unfold uploadImageToCloud, withImageEndpoint. cbn [postImage].
    unfold postImageToHandler. rewrite Hblob. cbn [andThen].
    unfold UploadImage.handler, imageCall.
    destruct (whenTruthy token) as [secret|]; [|reflexivity].
    cbn [imageRequest httpMethod requestBody String.eqb Ascii.eqb Bool.eqb negb].
    cbn zeta.
    destruct (put _) as [e|url]; reflexivity. }
  split; [exact Hupload|].
  intros tempId. unfold uploadCompletion. rewrite Hupload.
  destruct (whenTruthy token) as [secret|].
  - destruct (put (imageCall now blob secret)) as [e|url];
      cbn [app replay applyUpdate mergeById map newPhoto id]; rewrite String.eqb_refl; reflexivity.
  - cbn [app replay applyUpdate mergeById map newPhoto id]. rewrite String.eqb_refl. reflexivity.
Qed.

End ImageUploadEndToEnd.

(** The theorem at work: a JPEG, sent to a server whose store is down. *)
Lemma image_upload_end_to_end_witness :
  uploadImageToCloud
    (withImageEndpoint SamplePage.dataURLtoBlob SamplePage.token SamplePage.now SamplePage.down
                       (Sample.world Sample.obliging))
    "data:image/jpeg;base64,AAAA"
  = ([Uploaded "data:image/jpeg;base64,AAAA"],
     inl (ErrorObject "Image upload failed: Internal Server Error: fetch failed")).
Proof.
  apply (@image_upload_end_to_end SamplePage.dataURLtoBlob SamplePage.token SamplePage.now
           SamplePage.down (Sample.world Sample.obliging) "data:image/jpeg;base64,AAAA"
           (mkBlob "image/jpeg" "AAAA")).
  reflexivity.
Defined.

(* ================================================================== *)
(** ** Two writings of each endpoint *)

(** X14. On a POST request with a body, the edge function and the route
    handler of each endpoint do the same: they make the same call of
    [put], answer with the same status, and on success carry the same
    URL. (They word their failures differently: a text in one, a JSON
    object with [error] in the other.) *)
Theorem endpoints_agree_on_posts
  (token : option string) (now : N) (put : BlobStore) (request : HttpRequest) (body : string) :
  request.(httpMethod) = "POST" ->
  request.(requestBody) = Some body ->
  (fst (UploadImage.handler token now put request)
   = fst (UploadImageRoute.POST token now put request)
   /\ (snd (UploadImage.handler token now put request)).(edgeStatus)
      = (snd (UploadImageRoute.POST token now put request)).(routeStatus)
   /\ forall url,
        (snd (UploadImage.handler token now put request)).(edgeBody) = UrlJson url
        <-> okStatus (snd (UploadImageRoute.POST token now put request)).(routeStatus) = true
            /\ (snd (UploadImageRoute.POST token now put request)).(routeKey) = "url"
            /\ (snd (UploadImageRoute.POST token now put request)).(routeValue) = url)
  /\ (fst (UploadTimelineEdge.handler token now put request)
      = fst (UploadTimeline.POST token now put request)
      /\ (snd (UploadTimelineEdge.handler token now put request)).(edgeStatus)
         = (snd (UploadTimeline.POST token now put request)).(routeStatus)
      /\ forall url,
           (snd (UploadTimelineEdge.handler token now put request)).(edgeBody) = UrlJson url
           <-> okStatus (snd (UploadTimeline.POST token now put request)).(routeStatus) = true
               /\ (snd (UploadTimeline.POST token now put request)).(routeKey) = "url"
               /\ (snd (UploadTimeline.POST token now put request)).(routeValue) = url).
Proof.
  intros Hmethod Hbody.
  unfold UploadImage.handler, UploadImageRoute.POST, UploadTimelineEdge.handler,
    UploadTimeline.POST, UploadTimeline.arrayBuffer.
  rewrite Hmethod, Hbody. cbn [String.eqb Ascii.eqb Bool.eqb negb]. cbn zeta.
  destruct (whenTruthy token) as [secret|].
  - split.
    + destruct (put _) as [e|u]; cbn [fst snd edgeStatus edgeBody routeStatus routeKey routeValue].
      * repeat split; try discriminate. intros (H & _). discriminate.
      * repeat split; try congruence. intros (_ & _ & ->). reflexivity.
    + destruct (put _) as [e|u]; cbn [fst snd edgeStatus edgeBody routeStatus routeKey routeValue].
      * repeat split; try discriminate. intros (H & _). discriminate.
      * repeat split; try congruence. intros (_ & _ & ->). reflexivity.
  - cbn [fst snd edgeStatus edgeBody routeStatus routeKey routeValue].
    repeat split; try discriminate; intros (H & _); discriminate.
Qed.

(** The theorem at work: a PNG posted to both image endpoints. *)
Lemma endpoints_agree_on_posts_witness :
  fst (UploadImage.handler SamplePage.token SamplePage.now SamplePage.put
         (mkHttpRequest "POST" (Some "image/png") (Some "iVBORw0KGgo=")))
  = fst (UploadImageRoute.POST SamplePage.token SamplePage.now SamplePage.put
           (mkHttpRequest "POST" (Some "image/png") (Some "iVBORw0KGgo="))).
Proof.
  apply (@endpoints_agree_on_posts SamplePage.token SamplePage.now SamplePage.put
           (mkHttpRequest "POST" (Some "image/png") (Some "iVBORw0KGgo=")) "iVBORw0KGgo=");
    reflexivity.
Defined.

(* ================================================================== *)
(** ** Saving to the cloud *)

Lemma noPhotos_false (photos : list Photo) : photos <> [] -> noPhotos photos = false.
Proof. destruct photos; [contradiction|reflexivity]. Qed.

Lemma loadable_withoutLocalDataUrl (photos : list Photo) :
  loadable (map withoutLocalDataUrl photos) = loadable photos.
Proof.
  unfold loadable. induction photos as [|p photos IH]; [reflexivity|].
  cbn [map forallb]. now rewrite IH.
Qed.

Section SavingToTheCloud.

Context {platform : Platform}.
Variable toString : SearchParams -> string.
Variable token : option string.
Variable now : N.
Variable put : BlobStore.

(** X15. [handleSaveToCloud] on a list with entries, against the route
    handler of [app/api/upload/route.ts]: it sets the state to [saving],
    posts the entries without their previews, and ends in [success]
    with the link whose [load_from_url] is the URL the store gave for
    [timelines/past-forward-NOW.json], or in [error]. The error text is
    [Failed to save: 500 ] followed by the JSON body of the server,
    which names the missing token or the reason of the store. The state
    is never left at [saving]. *)
Theorem save_to_cloud_end_to_end (photos : list Photo) :
  photos <> [] ->
  handleSaveToCloud toString (postTimelineToRoute token now put) photos
  = [SetCloudSaveState (mkCloudSaveState CloudSaveStatus.saving None None);
     PostedTimeline (JSON_stringify (map withoutLocalDataUrl photos));
     SetCloudSaveState
       match whenTruthy token with
       | None =>
           mkCloudSaveState CloudSaveStatus.error None
             (Some ("Failed to save: 500 "
                    ++ Str.stringifyProperty "error"
                         "Storage secret is not configured. Please set the BLOB_READ_WRITE_TOKEN environment variable in your project settings."))
       | Some secret =>
           match put (timelineCall now (JSON_stringify (map withoutLocalDataUrl photos)) secret) with
           | inr url =>
               mkCloudSaveState CloudSaveStatus.success
                 (Some (toString [("load_from_url", url)])) None
           | inl error =>
               mkCloudSaveState CloudSaveStatus.error None
                 (Some ("Failed to save: 500 "
                        ++ Str.stringifyProperty "error"
                             ("Internal Server Error: " ++ messageOrUnknown error)))
           end
       end]
  /\ forall before,
       (cloudSaveStateAfter
          (handleSaveToCloud toString (postTimelineToRoute token now put) photos) before).(saveStatus)
       <> CloudSaveStatus.saving.
Proof.
  intros Hphotos.
  unfold handleSaveToCloud. rewrite (noPhotos_false Hphotos).
  unfold saveTimeline, postTimelineToRoute, UploadTimeline.POST, timelineCall,
    UploadTimeline.arrayBuffer.
  cbn [timelineRequest requestBody]. cbn zeta.
  destruct (whenTruthy token) as [secret|].
  - destruct (put _) as [e|url]; cbn; split; try reflexivity; intros _; discriminate.
  - cbn. split; [reflexivity|]. intros _. discriminate.
Qed.

(** X16. A timeline saved to the cloud is read back from its link as
    it was saved, without the previews of its entries, provided every
    entry has an id and an [imageUrl]. If one entry has none, as an
    entry whose upload failed, the save still ends in [success], and
    the link it shows loads nothing. *)
Theorem saved_timeline_loads_back
  (searchOf : string -> SearchParams) (w : World)
  (photos : list Photo) (secret url : string) :
  photos <> [] ->
  whenTruthy token = Some secret ->
  put (timelineCall now (JSON_stringify (map withoutLocalDataUrl photos)) secret) = inr url ->
  url <> "" ->
  w.(fetchTimeline) url = JSON_parse (JSON_stringify (map withoutLocalDataUrl photos)) ->
  searchOf (toString [("load_from_url", url)]) = [("load_from_url", url)] ->
  forall before,
    cloudSaveStateAfter
      (handleSaveToCloud toString (postTimelineToRoute token now put) photos) before
    = mkCloudSaveState CloudSaveStatus.success (Some (toString [("load_from_url", url)])) None
    /\ loadTimeline w (searchOf (toString [("load_from_url", url)]))
       = if loadable photos
         then Some (ReplaceWith (map withoutLocalDataUrl photos))
         else None.
Proof.
  intros Hphotos Htoken Hput Hurl Hfetch Hsearch before.
  split.
  - unfold handleSaveToCloud. rewrite (noPhotos_false Hphotos).
    unfold saveTimeline, postTimelineToRoute, UploadTimeline.POST,
      UploadTimeline.arrayBuffer.
    cbn [timelineRequest requestBody]. cbn zeta.
    rewrite Htoken. unfold timelineCall in Hput. rewrite Hput. reflexivity.
  - rewrite Hsearch. unfold loadTimeline. cbn [getParam String.eqb Ascii.eqb Bool.eqb whenTruthy].
    assert (Htruthy : truthy url = true).
    { unfold truthy. apply negb_true_iff. now apply String.eqb_neq. }
    rewrite Htruthy, Hfetch, parse_stringify. cbn [andThen].
    fold (loadable (map withoutLocalDataUrl photos)).
    rewrite loadable_withoutLocalDataUrl.
    destruct photos as [|p rest]; [contradiction|].
    cbn [map length Nat.eqb orb].
    now destruct (loadable (p :: rest)).
Qed.

End SavingToTheCloud.

(** The theorem at work: the store is down. *)
Lemma save_to_cloud_end_to_end_witness :
  cloudSaveStateAfter
    (handleSaveToCloud (platform := Reference.platform) SamplePage.toString
       (postTimelineToRoute SamplePage.token SamplePage.now SamplePage.down)
       [Sample.hills])
    (mkCloudSaveState CloudSaveStatus.idle None None)
  = mkCloudSaveState CloudSaveStatus.error None
      (Some ("Failed to save: 500 "
             ++ Str.stringifyProperty "error" "Internal Server Error: fetch failed")).
Proof.
  rewrite (proj1 (@save_to_cloud_end_to_end Reference.platform SamplePage.toString
                    SamplePage.token SamplePage.now SamplePage.down [Sample.hills]
                    ltac:(discriminate))).
  reflexivity.
Defined.

(** The theorem at work: a finished entry beside one whose upload
    failed. The save succeeds; its link loads nothing. *)
Lemma saved_timeline_loads_back_witness :
  loadTimeline (platform := Reference.platform)
    (SamplePage.serving
       (JSON_stringify (Platform := Reference.platform)
          (map withoutLocalDataUrl [Sample.hills; failedUpload])))
    (SamplePage.searchOf
       (SamplePage.toString
          [("load_from_url",
            "https://blob.example/timelines/past-forward-1700000000000.json")]))
  = None
  /\ loadTimeline (platform := Reference.platform)
       (SamplePage.serving
          (JSON_stringify (Platform := Reference.platform)
             (map withoutLocalDataUrl [Sample.hills])))
       (SamplePage.searchOf
          (SamplePage.toString
             [("load_from_url",
               "https://blob.example/timelines/past-forward-1700000000000.json")]))
     = Some (ReplaceWith [Sample.hills]).
Proof.
  split.
  - apply (@saved_timeline_loads_back Reference.platform SamplePage.toString SamplePage.token
             SamplePage.now SamplePage.put SamplePage.searchOf
             (SamplePage.serving
                (JSON_stringify (Platform := Reference.platform)
                   (map withoutLocalDataUrl [Sample.hills; failedUpload])))
             [Sample.hills; failedUpload] "vercel_blob_rw_0123"
             "https://blob.example/timelines/past-forward-1700000000000.json");
      try reflexivity; try discriminate.
    exact (mkCloudSaveState CloudSaveStatus.idle None None).
  - apply (@saved_timeline_loads_back Reference.platform SamplePage.toString SamplePage.token
             SamplePage.now SamplePage.put SamplePage.searchOf
             (SamplePage.serving
                (JSON_stringify (Platform := Reference.platform)
                   (map withoutLocalDataUrl [Sample.hills])))
             [Sample.hills] "vercel_blob_rw_0123"
             "https://blob.example/timelines/past-forward-1700000000000.json");
      try reflexivity; try discriminate.
    exact (mkCloudSaveState CloudSaveStatus.idle None None).
Defined.

(* ================================================================== *)
(** ** Exporting to a file and importing it again *)

Lemma hasIdAndUrl_toJson (p : Photo) :
  hasIdAndUrl (toJson p) = inr (truthy p.(id) && truthy p.(imageUrl)).
Proof.
  unfold hasIdAndUrl, toJson. cbn [getProp andThen app lookup String.eqb Ascii.eqb Bool.eqb toBoolean].
  destruct (truthy p.(id)); [|reflexivity].
  cbn [andThen getProp app lookup String.eqb Ascii.eqb Bool.eqb toBoolean].
  destruct (truthy p.(imageUrl)); [reflexivity|].
  cbn [andThen getProp app lookup String.eqb Ascii.eqb Bool.eqb toBoolean andb].
  destruct p as [? ? ? ? ? [g|] [e|] [l|]]; reflexivity.
Qed.

Lemma every_toJson (photos : list Photo) :
  every hasIdAndUrl (map toJson photos) = inr (loadable photos).
Proof.
  unfold loadable. induction photos as [|p photos IH]; [reflexivity|].
  cbn [map every forallb]. rewrite hasIdAndUrl_toJson. cbn [andThen].
  destruct (truthy p.(id) && truthy p.(imageUrl)); [exact IH|reflexivity].
Qed.

Lemma migrate_toJson (p : Photo) :
  truthy p.(imageUrl) = true -> migrate (toJson p) = inr (toJson p).
Proof.
  intros H. unfold migrate, toJson.
  cbn [getProp andThen app lookup String.eqb Ascii.eqb Bool.eqb toBoolean].
  rewrite H. cbn [andThen]. unfold Json.or. cbn [toBoolean]. rewrite H.
  cbn [ownProperties app setProp String.eqb Ascii.eqb Bool.eqb]. reflexivity.
Qed.

Lemma mapThrowing_migrate_toJson (photos : list Photo) :
  loadable photos = true ->
  mapThrowing migrate (map toJson photos) = inr (map toJson photos).
Proof.
  unfold loadable. induction photos as [|p photos IH]; [reflexivity|].
  cbn [map forallb mapThrowing]. intros H.
  apply andb_true_iff in H as [Hp Hrest]. apply andb_true_iff in Hp as [_ Hurl].
  rewrite (migrate_toJson _ Hurl), (IH Hrest). reflexivity.
Qed.

Section ExportAndImport.

Variable stringifyPretty : value -> string.
Variable parseJson : string -> Thrown + value.
Variable resizeImage : File -> nat -> Thrown + string.
Variable tempIdOf : nat -> string.

(** X17. The file [handleExportJson] writes for a list with entries
    is named [past-forward-timeline.json] and holds the entries without
    their previews under [photos]. Selected again, it loads exactly
    those entries when each of them has an id and an [imageUrl],
    whether or not it also carries a [shareableUrl]; if one entry has
    none, as an entry whose upload failed, the file is refused as a
    whole and nothing is loaded. *)
Theorem exported_file_imports_back (photos : list Photo) (cloudSaveState : CloudSaveState) :
  photos <> [] ->
  parseJson (stringifyPretty (exportData photos cloudSaveState))
  = inr (exportData photos cloudSaveState) ->
  handleExportJson stringifyPretty photos cloudSaveState
  = [Downloaded "past-forward-timeline.json"
                (exportedFile stringifyPretty photos cloudSaveState).(content)]
  /\ handleFileSelect parseJson resizeImage tempIdOf
       (Some [exportedFile stringifyPretty photos cloudSaveState])
     = if loadable photos
       then [TimelineLoaded (map toJson (map withoutLocalDataUrl photos));
             Alerted "Successfully loaded timeline from past-forward-timeline.json"]
       else [Alerted "Could not load the timeline from past-forward-timeline.json. The file might be corrupted or in the wrong format."].
Proof.
  intros Hphotos Hparse. split.
  - unfold handleExportJson. rewrite (noPhotos_false Hphotos). reflexivity.
  - unfold handleFileSelect, exportedFile.
    cbn [filter type startsWith String.prefix String.eqb Ascii.eqb Bool.eqb].
    unfold loadJsonFile. cbn [content name]. rewrite Hparse.
    unfold readTimeline. cbn [andThen].
    unfold exportData at 1, photosToLoad.
    cbn [getProp lookup String.eqb Ascii.eqb Bool.eqb andThen].
    rewrite every_toJson, loadable_withoutLocalDataUrl. cbn [andThen].
    destruct (loadable photos) eqn:Hloadable.
    + rewrite mapThrowing_migrate_toJson
        by (rewrite loadable_withoutLocalDataUrl; exact Hloadable).
      reflexivity.
    + reflexivity.
Qed.

End ExportAndImport.

(** The theorem at work: the sample entry, exported and selected again. *)
Lemma exported_file_imports_back_witness :
  handleFileSelect SampleExport.parse SampleFiles.resize SampleFiles.tempId
    (Some [exportedFile Printer.stringifyPretty SampleExport.photos SampleExport.saved])
  = [TimelineLoaded (map toJson SampleExport.photos);
     Alerted "Successfully loaded timeline from past-forward-timeline.json"].
Proof.
  apply (@exported_file_imports_back Printer.stringifyPretty SampleExport.parse
           SampleFiles.resize SampleFiles.tempId SampleExport.photos SampleExport.saved).
  - discriminate.
  - vm_compute. reflexivity.
Defined.

(* ================================================================== *)
(** ** The album *)

Lemma entry_define (key k : string) (v : option string) (acc : list (string * option string)) :
  entry key (define k v acc) = if k =? key then Some v else entry key acc.
Proof.
  induction acc as [|[k' x] acc IH]; cbn [define entry].
  - reflexivity.
  - destruct (k' =? k) eqn:E; cbn [entry].
    + apply String.eqb_eq in E as ->. destruct (k =? key); reflexivity.
    + destruct (k' =? key) eqn:E'; [|exact IH].
      apply String.eqb_eq in E' as ->. rewrite String.eqb_sym, E. reflexivity.
Qed.

Lemma find_app {A} (f : A -> bool) (l1 l2 : list A) :
  find f (l1 ++ l2) = match find f l1 with Some x => Some x | None => find f l2 end.
Proof.
  induction l1 as [|x l1 IH]; [reflexivity|]. cbn [app find]. destruct (f x); [reflexivity|exact IH].
Qed.

(** Assigning the keys of a list of entries, one after the other. *)
Lemma fold_assign_albumEntries (l : list Photo) (acc : list (string * option string)) :
  fold_left (fun acc photo => assign (albumKey photo) photo.(generatedUrl) acc) l acc
  = fold_left (fun acc photo => define (albumKey photo) photo.(generatedUrl) acc)
              (filter (fun p => negb (albumKey p =? "__proto__")) l) acc.
Proof.
  revert acc. induction l as [|p l IH]; intros acc; [reflexivity|].
  cbn [fold_left filter]. unfold assign at 2.
  destruct (albumKey p =? "__proto__"); cbn [negb fold_left]; apply IH.
Qed.

Lemma entry_fold (key : string) (l : list Photo) (acc : list (string * option string)) :
  entry key (fold_left (fun acc photo => define (albumKey photo) photo.(generatedUrl) acc) l acc)
  = match find (fun p => albumKey p =? key) (rev l) with
    | Some p => Some p.(generatedUrl)
    | None => entry key acc
    end.
Proof.
  revert acc. induction l as [|p l IH]; intros acc; [reflexivity|].
  cbn [fold_left rev]. rewrite IH, find_app, entry_define. cbn [find].
  destruct (find (fun p0 => albumKey p0 =? key) (rev l)); [reflexivity|].
  destruct (albumKey p =? key); reflexivity.
Qed.

Lemma keys_define (k : string) (v : option string) (acc : list (string * option string)) :
  (In k (map fst acc) /\ length (define k v acc) = length acc
   /\ map fst (define k v acc) = map fst acc)
  \/ (~ In k (map fst acc) /\ length (define k v acc) = S (length acc)
      /\ map fst (define k v acc) = (map fst acc ++ [k])%list).
Proof.
  induction acc as [|[k' x] acc IH]; cbn [define map fst length In app].
  - right. repeat split. tauto.
  - destruct (k' =? k) eqn:E.
    + apply String.eqb_eq in E as ->. left. cbn [map fst length]. repeat split. now left.
    + apply String.eqb_neq in E. cbn [map fst length app].
      destruct IH as [(Hin & Hlen & Hkeys) | (Hnot & Hlen & Hkeys)].
      * left. rewrite Hlen, Hkeys. repeat split. now right.
      * right. rewrite Hlen, Hkeys. repeat split. intros [H|H]; [exact (E H)|exact (Hnot H)].
Qed.

Lemma length_fold (l : list Photo) (acc : list (string * option string)) :
  length (fold_left (fun acc photo => define (albumKey photo) photo.(generatedUrl) acc) l acc)
  <= length acc + length l
  /\ (length (fold_left (fun acc photo => define (albumKey photo) photo.(generatedUrl) acc) l acc)
      = length acc + length l
      <-> NoDup (map albumKey l)
          /\ forall k, In k (map albumKey l) -> ~ In k (map fst acc)).
Proof.
  revert acc. induction l as [|p l IH]; intros acc.
  - cbn [fold_left length map]. split; [lia|]. split.
    + intros _. split; [constructor|]. intros k [].
    + lia.
  - cbn [fold_left length map].
    destruct (IH (define (albumKey p) p.(generatedUrl) acc)) as (Hle & Heq).
    destruct (keys_define (albumKey p) p.(generatedUrl) acc)
      as [(Hin & Hlen & Hkeys) | (Hnot & Hlen & Hkeys)];
      rewrite Hlen in Hle, Heq; rewrite Hkeys in Heq.
    + split; [lia|]. split; [lia|].
      intros (_ & Hfresh). exfalso. apply (Hfresh (albumKey p)); [now left|exact Hin].
    + split; [lia|]. rewrite Nat.add_succ_r, <- Nat.add_succ_l, Heq. split.
      * intros (Hnodup & Hfresh). split.
        -- constructor; [|exact Hnodup].
           intros Hp. apply (Hfresh _ Hp). apply in_or_app. right. now left.
        -- intros k [<-|Hk]; [exact Hnot|].
           intros Hacc. apply (Hfresh _ Hk). apply in_or_app. now left.
      * intros (Hnodup & Hfresh). inversion Hnodup as [|? ? Hp Hnodup']; subst. split.
        -- exact Hnodup'.
        -- intros k Hk Hacc. apply in_app_or in Hacc as [Hacc|[<-|[]]].
           ++ apply (Hfresh k); [now right|exact Hacc].
           ++ exact (Hp Hk).
Qed.

(** X18. The album is keyed by the date of an entry, or by its id when
    it has no date, and holds only finished entries with a generated
    image. Under each key it holds the image of the last such entry of
    the list; so it has at most as many images as there are such
    entries, and exactly as many when their keys are all different and
    none is [__proto__], which cannot be assigned: two finished entries
    with the same date leave one image. Without a finished entry
    [handleDownloadAlbum] only alerts; with one it sets [isDownloading],
    asks for the album once, and resets [isDownloading] whether or not
    the album could be made. *)
Theorem album_keeps_the_last_image_per_key (photos : list Photo) :
  (forall key,
     entry key (imageData photos)
     = option_map generatedUrl
         (find (fun p => albumKey p =? key) (rev (albumEntries photos))))
  /\ length (imageData photos) <= length (generatedPhotos photos)
  /\ (length (imageData photos) = length (generatedPhotos photos)
      <-> NoDup (map albumKey (generatedPhotos photos))
          /\ ~ In "__proto__" (map albumKey (generatedPhotos photos)))
  /\ Forall (fun p => p.(status) = Status.done
                      /\ exists u, p.(generatedUrl) = Some u /\ u <> "")
            (generatedPhotos photos)
  /\ forall createAlbumPage,
       (generatedPhotos photos = [] ->
        handleDownloadAlbum createAlbumPage photos
        = [ToolbarAlerted "You need at least one successfully generated image to create an album."])
       /\ (generatedPhotos photos <> [] ->
           exists outcome,
             handleDownloadAlbum createAlbumPage photos
             = [SetIsDownloading true; AlbumRequested (imageData photos); outcome;
                SetIsDownloading false]).
Proof.
  assert (Hfilter : forall l : list Photo,
             length (filter (fun p => negb (albumKey p =? "__proto__")) l) <= length l
             /\ (length (filter (fun p => negb (albumKey p =? "__proto__")) l) = length l
                 <-> ~ In "__proto__" (map albumKey l))
             /\ (~ In "__proto__" (map albumKey l) ->
                 filter (fun p => negb (albumKey p =? "__proto__")) l = l)).
  { induction l as [|p l (IHle & IHeq & IHsame)].
    - cbn. repeat split; auto.
    - cbn [filter map In length].
      destruct (albumKey p =? "__proto__") eqn:E; cbn [negb length].
      + apply String.eqb_eq in E. split; [lia|]. split.
        * split; [lia|]. intros H. exfalso. apply H. left. exact E.
        * intros H. exfalso. apply H. left. exact E.
      + apply String.eqb_neq in E. split; [lia|]. split.
        * split.
          -- intros H [Hp|Hl]; [exact (E Hp)|]. apply IHeq; [lia|exact Hl].
          -- intros H. f_equal. apply IHeq. intros Hl. apply H. now right.
        * intros H. f_equal. apply IHsame. intros Hl. apply H. now right. }
  assert (Hdata : imageData photos
                  = fold_left (fun acc photo => define (albumKey photo) photo.(generatedUrl) acc)
                              (albumEntries photos) []).
  { unfold imageData. now rewrite fold_assign_albumEntries. }
  destruct (Hfilter (generatedPhotos photos)) as (Hle & Heq & Hsame).
  fold (albumEntries photos) in Hle, Heq, Hsame.
  destruct (length_fold (albumEntries photos) []) as (Hle' & Heq').
  cbn [length Nat.add map] in Hle', Heq'. rewrite <- Hdata in Hle', Heq'.
  clear Hfilter.
  split; [|split; [|split; [|split]]].
  - intros key. rewrite Hdata, entry_fold.
    destruct (find (fun p => albumKey p =? key) (rev (albumEntries photos))); reflexivity.
  - lia.
  - split.
    + intros H.
      assert (Hall : length (albumEntries photos) = length (generatedPhotos photos)) by lia.
      apply Heq in Hall. split; [|exact Hall].
      rewrite <- (Hsame Hall). apply Heq'. lia.
    + intros (Hnodup & Hproto). rewrite (Hsame Hproto) in *.
      apply Heq'. split; [exact Hnodup|]. intros k _ [].
  - unfold generatedPhotos. apply Forall_forall. intros p Hp.
    apply filter_In in Hp as (_ & Hp). apply andb_true_iff in Hp as (Hdone & Hurl).
    apply Status.eqb_eq in Hdone. split; [exact Hdone|].
    destruct p.(generatedUrl) as [u|]; [|discriminate].
    exists u. split; [reflexivity|]. unfold truthy in Hurl.
    apply negb_true_iff in Hurl. now apply String.eqb_neq.
  - intros createAlbumPage. unfold handleDownloadAlbum. split.
    + intros ->. reflexivity.
    + intros Hsome. destruct (generatedPhotos photos) as [|p rest] eqn:E; [contradiction|].
      cbn [length Nat.eqb].
      destruct (createAlbumPage _); eexists; reflexivity.
Qed.

(* ================================================================== *)
(** ** The toolbar *)

Lemma existsb_false_Forall {A} (f : A -> bool) (l : list A) :
  existsb f l = false -> Forall (fun x => f x = false) l.
Proof.
  induction l as [|x l IH]; [constructor|]. cbn [existsb]. intros H.
  apply orb_false_iff in H as [Hx Hl]. constructor; auto.
Qed.

Section Toolbar.

Context {platform : Platform}.

(** X19. A button of the toolbar passes a click on only in a render
    whose list has entries, none of them uploading; so the handlers
    never meet the empty list they guard against, and what is saved,
    exported or shared holds no entry whose upload is still running.
    Download Album asks in addition for an entry that is [done]. While
    one entry is uploading, no button of the toolbar works. *)
Theorem toolbar_waits_for_uploads
  (photos : list Photo) (cloudStatus : CloudSaveStatus.t) (isDownloading : bool)
  (b : ToolbarButton) :
  (clickable photos cloudStatus isDownloading b = true ->
   photos <> []
   /\ noPhotos photos = false
   /\ handleShare photos = Some [("data", encodeShare photos)]
   /\ Forall (fun p => p.(status) <> Status.uploading) photos
   /\ (b = DownloadAlbum -> exists p, In p photos /\ p.(status) = Status.done))
  /\ (isUploading photos = true -> clickable photos cloudStatus isDownloading b = false).
Proof.
  split.
  - intros H. unfold clickable in H. apply andb_true_iff in H as [Hhas Hdisabled].
    apply negb_true_iff in Hdisabled.
    assert (Hne : photos <> []) by (destruct photos; [discriminate|discriminate]).
    assert (Hup : isUploading photos = false).
    { destruct b; cbn [toolbarDisabled] in Hdisabled;
        repeat (apply orb_false_iff in Hdisabled as [? Hdisabled]); assumption. }
    split; [exact Hne|]. split; [now apply noPhotos_false|].
    split; [unfold handleShare; destruct photos; [contradiction|reflexivity]|].
    split.
    + apply existsb_false_Forall in Hup. apply Forall_forall. intros p Hp Hstatus.
      rewrite Forall_forall in Hup. specialize (Hup p Hp). cbn beta in Hup.
      rewrite Hstatus in Hup. discriminate.
    + intros ->. cbn [toolbarDisabled] in Hdisabled.
      apply orb_false_iff in Hdisabled as [Hdisabled _].
      apply orb_false_iff in Hdisabled as [_ Hgenerated].
      apply negb_false_iff in Hgenerated. unfold hasGeneratedPhotos in Hgenerated.
      apply existsb_exists in Hgenerated as (p & Hp & Hdone).
      exists p. split; [exact Hp|]. now apply Status.eqb_eq.
  - intros Hup. unfold clickable.
    destruct b; cbn [toolbarDisabled]; rewrite Hup, ?orb_true_r; cbn [negb];
      apply andb_false_r.
Qed.

End Toolbar.

(** The theorem at work: the toolbar over the sample entry. *)
Lemma toolbar_waits_for_uploads_witness :
  Forall (fun p => p.(status) <> Status.uploading) [Sample.hills].
Proof.
  apply (proj1 (@toolbar_waits_for_uploads Reference.platform [Sample.hills]
                  CloudSaveStatus.idle false ShareLink) eq_refl).
Defined.

(* ================================================================== *)
(** ** The image a card shows *)

Lemma tryLoadImage_find (loads : string -> bool) (sources : list string) (state : ImageState) :
  tryLoadImage loads sources state
  = match find loads sources with
    | Some src => mkImageState src true false
    | None => mkImageState state.(currentImageSrc) false true
    end.
Proof.
  induction sources as [|src rest IH]; [reflexivity|].
  cbn [tryLoadImage find]. destruct (loads src); [reflexivity|exact IH].
Qed.

Lemma filter_truthy_pushIf (v : string) : filter truthy (pushIf v) = pushIf v.
Proof. unfold pushIf. destruct (truthy v) eqn:E; cbn [filter]; rewrite ?E; reflexivity. Qed.

Lemma filter_truthy_pushIfSet (v : option string) : filter truthy (pushIfSet v) = pushIfSet v.
Proof. destruct v; [apply filter_truthy_pushIf|reflexivity]. Qed.

(** X20. A card tries its sources in order and shows the first one the
    browser can load; when none loads it reports the image as not
    available. Its sources are never empty strings, and the [dataUrl]
    it is given comes last: in the editor that is the local preview of
    the entry or else its [imageUrl], so a generated image that cannot
    be loaded falls back to the original. A card without any source
    leaves its state as it is. *)
Theorem card_shows_the_first_source_that_loads
  (loads : string -> bool) (isSharedView : bool) (view : CardView)
  (generatedSrc : option string) (imageSrc dataSrc : string) (state : ImageState) :
  Forall (fun src => src <> "")
         (getImageSources isSharedView view generatedSrc imageSrc dataSrc)
  /\ loadImage loads (getImageSources isSharedView view generatedSrc imageSrc dataSrc) state
     = match getImageSources isSharedView view generatedSrc imageSrc dataSrc with
       | [] => state
       | sources =>
           match find loads sources with
           | Some src => mkImageState src true false
           | None => mkImageState state.(currentImageSrc) false true
           end
       end
  /\ (dataSrc <> "" ->
      exists before,
        getImageSources isSharedView view generatedSrc imageSrc dataSrc
        = (before ++ [dataSrc])%list)
  /\ (forall photo generated,
        photo.(generatedUrl) = Some generated -> generated <> "" ->
        cardSources photo viewGenerated = [generated; cardDataUrl photo]
        \/ (cardDataUrl photo = "" /\ cardSources photo viewGenerated = [generated])).
Proof.
  split; [|split; [|split]].
  - unfold getImageSources. apply Forall_forall. intros src Hsrc.
    apply filter_In in Hsrc as (_ & Hsrc). unfold truthy in Hsrc.
    apply negb_true_iff in Hsrc. now apply String.eqb_neq.
  - unfold loadImage.
    destruct (getImageSources isSharedView view generatedSrc imageSrc dataSrc) as [|src rest];
      [reflexivity|].
    cbn [length Nat.ltb Nat.leb]. rewrite tryLoadImage_find. reflexivity.
  - intros Hdata.
    assert (Hpush : pushIf dataSrc = [dataSrc]).
    { unfold pushIf, truthy. apply String.eqb_neq in Hdata. now rewrite Hdata. }
    unfold getImageSources.
    destruct isSharedView; [|destruct view];
      rewrite !filter_app, ?filter_truthy_pushIf, ?filter_truthy_pushIfSet, Hpush;
      cbn [filter app];
      [ exists (pushIfSet generatedSrc ++ pushIf imageSrc)%list; now rewrite app_assoc
      | exists (pushIfSet generatedSrc); reflexivity
      | exists (pushIf imageSrc); reflexivity ].
  - intros photo generated Hgenerated Hne.
    unfold cardSources, getImageSources. rewrite Hgenerated.
    assert (Htruthy : truthy generated = true).
    { unfold truthy. apply negb_true_iff. now apply String.eqb_neq. }
    cbn [pushIfSet app]. rewrite filter_app, !filter_truthy_pushIf.
    unfold pushIf. rewrite Htruthy. cbn [app].
    destruct (truthy (cardDataUrl photo)) eqn:E.
    + left. reflexivity.
    + right. split; [|reflexivity]. unfold truthy in E. apply negb_false_iff in E.
      now apply String.eqb_eq.
Qed.

(* ================================================================== *)
(** ** The API key of the client *)

(** X21. [getGeminiClient] makes the client once: after a call that
    returned a client, every later call returns the same one without
    looking at the environment or fetching the configuration. A call
    that fails leaves no client behind and throws the one error that
    names [GEMINI_API_KEY], so the next call resolves the key again. *)
Theorem client_is_made_once
  (env : GeminiService.Env) (fetchConfig : Thrown + GeminiService.ConfigResponse)
  (ai : option string) :
  (forall fetched client ai',
     GeminiService.getGeminiClient env fetchConfig ai = (fetched, inr client, ai') ->
     ai' = Some client
     /\ forall env' fetchConfig',
          GeminiService.getGeminiClient env' fetchConfig' ai' = (false, inr client, ai'))
  /\ (forall fetched error ai',
        GeminiService.getGeminiClient env fetchConfig ai = (fetched, inl error, ai') ->
        ai = None /\ ai' = None
        /\ error = ErrorObject "GEMINI_API_KEY is not configured. Please set it in .env.local").
Proof.
  unfold GeminiService.getGeminiClient. split.
  - intros fetched client ai' H. destruct ai as [known|].
    + injection H as _ <- <-. split; [reflexivity|]. intros env' fetchConfig'. reflexivity.
    + destruct (GeminiService.resolveApiKey env fetchConfig) as [f apiKey].
      destruct (whenTruthy apiKey) as [key|]; [|discriminate].
      injection H as _ <- <-. split; [reflexivity|]. intros env' fetchConfig'. reflexivity.
  - intros fetched error ai' H. destruct ai as [known|]; [discriminate|].
    destruct (GeminiService.resolveApiKey env fetchConfig) as [f apiKey].
    destruct (whenTruthy apiKey) as [key|]; [discriminate|].
    injection H as _ <- <-. repeat split.
Qed.

(** X22. Without a client yet, the key is [NEXT_PUBLIC_GEMINI_API_KEY]
    when that is set, else on the server [GEMINI_API_KEY] when that is
    set, and in both cases the configuration is not fetched; otherwise
    [/api/gemini-config] is fetched, and a failure of that fetch is
    swallowed. Against the route handler, a browser without a public
    key gets the key of the server whenever the server has one: the
    handler asks nothing of who calls it. *)
Theorem api_key_resolution
  (env : GeminiService.Env) (fetchConfig : Thrown + GeminiService.ConfigResponse) :
  (forall key,
     whenTruthy env.(GeminiService.NEXT_PUBLIC_GEMINI_API_KEY) = Some key ->
     GeminiService.getGeminiClient env fetchConfig None = (false, inr key, Some key))
  /\ (forall key,
        whenTruthy env.(GeminiService.NEXT_PUBLIC_GEMINI_API_KEY) = None ->
        env.(GeminiService.onServer) = true ->
        whenTruthy env.(GeminiService.GEMINI_API_KEY) = Some key ->
        GeminiService.getGeminiClient env fetchConfig None = (false, inr key, Some key))
  /\ (whenTruthy env.(GeminiService.NEXT_PUBLIC_GEMINI_API_KEY) = None ->
      env.(GeminiService.onServer) = false ->
      forall serverKey,
        GeminiService.getGeminiClient env
          (inr (GeminiService.configFrom (GeminiConfig.GET serverKey))) None
        = match whenTruthy serverKey with
          | Some key => (true, inr key, Some key)
          | None =>
              (true,
               inl (ErrorObject "GEMINI_API_KEY is not configured. Please set it in .env.local"),
               None)
          end)
  /\ (whenTruthy env.(GeminiService.NEXT_PUBLIC_GEMINI_API_KEY) = None ->
      env.(GeminiService.onServer) = false ->
      forall e,
        GeminiService.getGeminiClient env (inl e) None
        = (true,
           inl (ErrorObject "GEMINI_API_KEY is not configured. Please set it in .env.local"),
           None)).
Proof.
  unfold GeminiService.getGeminiClient, GeminiService.resolveApiKey, GeminiService.isSet.
  split; [|split; [|split]].
  - intros key H.
    repeat (progress (rewrite ?H; cbn [negb andb]; cbv iota)). reflexivity.
  - intros key Hpublic Hserver Hkey.
    repeat (progress (rewrite ?Hpublic, ?Hserver, ?Hkey; cbn [negb andb]; cbv iota)).
    reflexivity.
  - intros Hpublic Hbrowser serverKey.
    repeat (progress (rewrite ?Hpublic, ?Hbrowser; cbn [negb andb]; cbv iota)).
    unfold GeminiConfig.GET.
    destruct (whenTruthy serverKey) as [key|] eqn:E;
      cbn [GeminiService.configFrom routeStatus routeKey routeValue okStatus
           GeminiService.configOk GeminiService.configApiKey
           Nat.leb andb String.eqb Ascii.eqb Bool.eqb].
    + assert (Hkey : whenTruthy (Some key) = Some key).
      { destruct serverKey as [k|]; [|discriminate]. cbn [whenTruthy] in E.
        destruct (truthy k) eqn:Ek; [|discriminate]. injection E as <-.
        cbn [whenTruthy]. now rewrite Ek. }
      rewrite Hkey. reflexivity.
    + rewrite Hpublic. reflexivity.
  - intros Hpublic Hbrowser e.
    repeat (progress (rewrite ?Hpublic, ?Hbrowser; cbn [negb andb]; cbv iota)).
    reflexivity.
Qed.

(* ================================================================== *)
(** ** A generation without an API key *)

(** X23. When no client can be made, as without an API key, a
    generation fetches the image and then fails without calling the
    model or uploading anything: the entry goes to [pending] and then to
    [error], and its error text is [The AI model failed to generate an
    image. Details: ] followed by the message of what
    [getGeminiClient] threw. *)
Theorem generation_without_a_client
  (w : World) (photos : list Photo) (X : string) (photo : Photo)
  (imageResponse : ImageResponse) (dataUrl mime base64Data : string) (e : Thrown) :
  find (fun p => p.(id) =? X) photos = Some photo ->
  photo.(imageUrl) <> "" ->
  w.(fetchImage) photo.(imageUrl) = inr imageResponse ->
  imageResponse.(imageOk) = true ->
  imageResponse.(readAsDataURL) = inr dataUrl ->
  matchDataUrl dataUrl = Some (mime, base64Data) ->
  w.(getGeminiClient) = inl e ->
  handleGenerateImage w photos X
  = [SetPhotos (MergeById X GenerationStarted);
     Fetched photo.(imageUrl);
     SetPhotos (MergeById X
                  (GenerationFailed ("The AI model failed to generate an image. Details: "
                                     ++ messageOr stringifyThrown e)))]
  /\ modelCalls (handleGenerateImage w photos X) = 0
  /\ uploads (handleGenerateImage w photos X) = 0.
Proof.
  intros Hfind Hurl Hfetch Hok Hread Hmatch Hclient.
  assert (Htruthy : truthy photo.(imageUrl) = true).
  { unfold truthy. apply negb_true_iff. now apply String.eqb_neq. }
  assert (Hlog : handleGenerateImage w photos X
                 = [SetPhotos (MergeById X GenerationStarted);
                    Fetched photo.(imageUrl);
                    SetPhotos (MergeById X
                                 (GenerationFailed
                                    ("The AI model failed to generate an image. Details: "
                                     ++ messageOr stringifyThrown e)))]).
  { unfold handleGenerateImage. rewrite Hfind, Htruthy. cbn [negb].
    unfold generateTimelineImage.
    rewrite (imageUrlToDataUrl_ok _ _ Hfetch Hok Hread).
    unfold bind at 3. rewrite Hmatch.
    unfold callGeminiWithRetry. rewrite Hclient.
    reflexivity. }
  rewrite Hlog. repeat split.
Qed.

(** The theorem at work: the sample entry in a world without a key. *)
Lemma generation_without_a_client_witness :
  handleGenerateImage
    (mkWorld (fun _ => inr (mkImageResponse true "OK" (inr "data:image/jpeg;base64,AAAA")))
             (inl (ErrorObject "GEMINI_API_KEY is not configured. Please set it in .env.local"))
             (fun _ => inl (ErrorObject "offline"))
             (fun _ => inl (ErrorObject "offline")))
    [Sample.beach Status.idle None None] "1700000000000-0.5"
  = [SetPhotos (MergeById "1700000000000-0.5" GenerationStarted);
     Fetched "https://blob.example/beach.jpg";
     SetPhotos (MergeById "1700000000000-0.5"
                  (GenerationFailed "The AI model failed to generate an image. Details: GEMINI_API_KEY is not configured. Please set it in .env.local"))].
Proof.
  apply (@generation_without_a_client
           (mkWorld (fun _ => inr (mkImageResponse true "OK" (inr "data:image/jpeg;base64,AAAA")))
                    (inl (ErrorObject "GEMINI_API_KEY is not configured. Please set it in .env.local"))
                    (fun _ => inl (ErrorObject "offline"))
                    (fun _ => inl (ErrorObject "offline")))
           [Sample.beach Status.idle None None] "1700000000000-0.5"
           (Sample.beach Status.idle None None)
           (mkImageResponse true "OK" (inr "data:image/jpeg;base64,AAAA"))
           "data:image/jpeg;base64,AAAA" "image/jpeg" "AAAA"
           (ErrorObject "GEMINI_API_KEY is not configured. Please set it in .env.local"));
    try reflexivity; discriminate.
Defined.

(* ================================================================== *)
(** ** Deleting *)



(* ================================================================== *)
(** ** An entry saved while it is pending *)

Section PendingForever.

Context {platform : Platform}.

(** X25. Saving, exporting and sharing wait for uploads only: with an
    entry that is [pending] the buttons work. The loader of a cloud link
    checks ids and URLs and takes the statuses as they come, so an
    entry saved as [pending] is loaded as [pending]. Its card then
    offers nothing: no Delete, no Generate Image, no Try Again, and
    read-only inputs; a click on either button of the card does
    nothing. *)
Theorem reloaded_pending_entry_offers_nothing
  (w : World) (search : SearchParams) (loadFromUrl : string)
  (photos : list Photo) (p : Photo) :
  getParam "load_from_url" search = Some loadFromUrl ->
  loadFromUrl <> "" ->
  w.(fetchTimeline) loadFromUrl = inr photos ->
  loadable photos = true ->
  In p photos ->
  p.(status) = Status.pending ->
  loadTimeline w search = Some (ReplaceWith photos)
  /\ deleteOffered false p = false
  /\ isEditable p = false
  /\ rendered p GenerateImage = false
  /\ rendered p TryAgain = false
  /\ (forall w' b, click w' photos p b = [])
  /\ (isUploading photos = false ->
      forall isDownloading,
        clickable photos CloudSaveStatus.idle isDownloading SaveToCloud = true
        /\ clickable photos CloudSaveStatus.idle isDownloading ExportFile = true
        /\ clickable photos CloudSaveStatus.idle isDownloading ShareLink = true).
Proof.
  intros Hparam Hurl Hfetch Hloadable Hin Hstatus.
  assert (Htruthy : truthy loadFromUrl = true).
  { unfold truthy. apply negb_true_iff. now apply String.eqb_neq. }
  split.
  { unfold loadTimeline. rewrite Hparam. cbn [whenTruthy]. rewrite Htruthy, Hfetch.
    cbn [andThen]. fold (loadable photos). rewrite Hloadable, orb_true_r. reflexivity. }
  unfold deleteOffered, isEditable, click, rendered. rewrite Hstatus. cbn.
  repeat (split; [reflexivity|]). split.
  - intros w' b. destruct b; reflexivity.
  - intros Hup isDownloading. unfold clickable, toolbarDisabled, hasPhotos.
    rewrite Hup. destruct photos as [|q rest]; [contradiction|]. cbn. repeat split.
Qed.

End PendingForever.

(** The theorem at work: the sample entry, saved while its image was
    being generated. *)
Lemma reloaded_pending_entry_offers_nothing_witness :
  loadTimeline (platform := Reference.platform)
    (mkWorld (fun _ => inl (ErrorObject "offline")) (inl (ErrorObject "no key"))
             (fun _ => inl (ErrorObject "offline"))
             (fun _ => inr [Sample.beach Status.pending None None]))
    [("load_from_url", "https://blob.example/timeline.json")]
  = Some (ReplaceWith [Sample.beach Status.pending None None])
  /\ deleteOffered false (Sample.beach Status.pending None None) = false.
Proof.
  destruct (@reloaded_pending_entry_offers_nothing Reference.platform
              (mkWorld (fun _ => inl (ErrorObject "offline")) (inl (ErrorObject "no key"))
                       (fun _ => inl (ErrorObject "offline"))
                       (fun _ => inr [Sample.beach Status.pending None None]))
              [("load_from_url", "https://blob.example/timeline.json")]
              "https://blob.example/timeline.json"
              [Sample.beach Status.pending None None]
              (Sample.beach Status.pending None None))
    as (H1 & H2 & _); try reflexivity; try discriminate.
  - left. reflexivity.
  - split; [exact H1|exact H2].
Defined.

(* ================================================================== *)
(** ** A response with an image *)

(** X26. [processGeminiResponse] returns a data URL exactly when some
    part of the first candidate carries [inlineData], whatever text the
    response has beside it. The URL is made of the type and the data of
    the first such part; later image parts are not looked at. Without
    such a part it throws an error that quotes the text of the
    response, or [No text response received.] when there is none. *)
Theorem image_part_wins (response : GenerateContentResponse) :
  (forall d, firstImage response = Some d ->
             processGeminiResponse response
             = inr ("data:" ++ interpolate d.(mimeType) ++ ";base64," ++ interpolate d.(data)))
  /\ (firstImage response = None ->
      exists quoted,
        processGeminiResponse response
        = inl (ErrorObject ("The AI model responded with text instead of an image: "
                            ++ dquote ++ quoted ++ dquote))
        /\ quoted = match whenTruthy response.(responseText) with
                    | Some t => t
                    | None => "No text response received."
                    end)
  /\ ((exists dataUrl, processGeminiResponse response = inr dataUrl)
      <-> hasImagePart response = true)
  /\ (forall before image after text,
        response.(parts) = Some (before ++ image :: after)%list ->
        Forall (fun part => part.(inlineData) = None) before ->
        image.(inlineData) <> None ->
        processGeminiResponse response
        = processGeminiResponse (mkResponse (Some [image]) text)).
Proof.
  assert (Hfirst : forall d, firstImage response = Some d ->
             processGeminiResponse response
             = inr ("data:" ++ interpolate d.(mimeType) ++ ";base64," ++ interpolate d.(data))).
  { unfold firstImage, processGeminiResponse. intros d.
    destruct response.(parts) as [ps|]; [|discriminate].
    destruct (find _ ps) as [[[d'|] t]|]; cbn [inlineData]; try discriminate.
    intros [= ->]. reflexivity. }
  assert (Hnone : firstImage response = None ->
             exists quoted,
               processGeminiResponse response
               = inl (ErrorObject ("The AI model responded with text instead of an image: "
                                   ++ dquote ++ quoted ++ dquote))
               /\ quoted = match whenTruthy response.(responseText) with
                           | Some t => t
                           | None => "No text response received."
                           end).
  { unfold firstImage, processGeminiResponse. intros H. eexists. split; [|reflexivity].
    destruct response.(parts) as [ps|].
    - destruct (find _ ps) as [[[d'|] t]|]; cbn [inlineData] in H; try discriminate;
        destruct response.(responseText) as [t'|]; cbn [whenTruthy];
          try destruct (truthy t'); reflexivity.
    - destruct response.(responseText) as [t'|]; cbn [whenTruthy];
        try destruct (truthy t'); reflexivity. }
  assert (Hhas : hasImagePart response = true <-> exists d, firstImage response = Some d).
  { unfold hasImagePart, firstImage. destruct response.(parts) as [ps|].
    - induction ps as [|[[d|] t] ps IH]; cbn [existsb find inlineData].
      + split; [discriminate|]. intros (d & [=]).
      + split; [|reflexivity]. intros _. now exists d.
      + exact IH.
    - split; [discriminate|]. intros (d & [=]). }
  split; [exact Hfirst|]. split; [exact Hnone|]. split.
  - split.
    + intros (dataUrl & Hok). apply Hhas.
      destruct (firstImage response) as [d|] eqn:E; [now exists d|].
      destruct (Hnone eq_refl) as (quoted & Hthrown & _). congruence.
    + intros H. apply Hhas in H as (d & Hd). eexists. exact (Hfirst d Hd).
  - intros before image after text Hparts Hbefore Himage.
    unfold processGeminiResponse. rewrite Hparts. cbn [parts].
    assert (Hfind : forall l,
               find (fun part => match part.(inlineData) with Some _ => true | None => false end)
                    (before ++ image :: l)%list = Some image).
    { intros l. clear - Hbefore Himage.
      induction Hbefore as [|part before Hpart Hbefore IH]; cbn [app find].
      - destruct image.(inlineData); [reflexivity|contradiction].
      - rewrite Hpart. exact IH. }
    rewrite Hfind. cbn [find].
    destruct image as [[d|] t]; [|contradiction]. reflexivity.
Qed.
